(** * wandbot: the Slack event router, the index loader and the prompt
      template formatter, embedded in Rocq.

    The development follows the source files
      - [src/wandbot/apps/slack/__main__.py]  (module [Slack]),
      - [src/wandbot/utils.py]                (module [Utils]),
      - [src/wandbot/chat/prompts.py]         (modules [Prompts] and
                                                [ChatPrompt]).

    Part I holds the definitions: a small model of the Python values the
    handlers touch, a free monad of external calls with exceptions, and the
    functions of the three files.  Part II holds the lemmas and theorems. *)

From stdpp Require Import gmap strings list.
From Stdlib Require Import ZArith Ascii String Lia.

Set Warnings "-register-all".
#[local] Open Scope Z_scope.

(* ===================================================================== *)
(** * Part I: definitions                                                 *)
(* ===================================================================== *)

(** ** Python values *)

Module Py.

(** The JSON-shaped objects that Slack payloads and API answers are made
    of.  A [dict] is a finite map with [str] keys. *)
Inductive value : Type :=
  | VNone
  | VBool (b : bool)
  | VInt (z : Z)
  | VStr (s : string)
  | VList (l : list value)
  | VDict (d : gmap string value).

(** The exceptions that can reach a handler.  All of them are instances
    of Python's [Exception], so [except Exception] catches each one;
    [Failure] stands for whatever an external service raises (a Slack API
    error, an HTTP error, a validation error). *)
Inductive exn : Type :=
  | KeyError (key : string)
  | IndexError
  | TypeError (what : string)
  | AttributeError (attr : string)
  | ValueError (msg : string)
  | Failure (name : string).

Definition result (A : Type) : Type := exn + A.

(** [bool(v)]: Python truthiness. *)
Definition truthy (v : value) : bool :=
  match v with
  | VNone => false
  | VBool b => b
  | VInt z => negb (z =? 0)
  | VStr s => negb (String.eqb s EmptyString)
  | VList l => match l with [] => false | _ :: _ => true end
  | VDict d => negb (Nat.eqb (size d) 0)
  end.

(** [a or b] on two already evaluated operands. *)
Definition py_or (a b : value) : value := if truthy a then a else b.

(** [v == s] for a string literal [s]. *)
Definition eq_str (v : value) (s : string) : bool :=
  match v with
  | VStr t => String.eqb t s
  | _ => false
  end.

(** [d[key]] on a [dict]. *)
Definition dict_getitem (d : gmap string value) (key : string) : result value :=
  match d !! key with
  | Some v => inr v
  | None => inl (KeyError key)
  end.

(** [d.get(key, dflt)] on a [dict]. *)
Definition dict_get (d : gmap string value) (key : string) (dflt : value) : value :=
  default dflt (d !! key).

(** [v[key]] for a string key on an arbitrary object. *)
Definition getitem (v : value) (key : string) : result value :=
  match v with
  | VDict d => dict_getitem d key
  | VList _ => inl (TypeError "list indices must be integers or slices, not str")
  | VStr _ => inl (TypeError "string indices must be integers")
  | _ => inl (TypeError "object is not subscriptable")
  end.

(** [v.get(key, dflt)] on an arbitrary object: only a [dict] has the
    method. *)
Definition get (v : value) (key : string) (dflt : value) : result value :=
  match v with
  | VDict d => inr (dict_get d key dflt)
  | _ => inl (AttributeError "get")
  end.

(** [len(v)]. *)
Definition len (v : value) : result Z :=
  match v with
  | VList l => inr (Z.of_nat (List.length l))
  | VStr s => inr (Z.of_nat (String.length s))
  | VDict d => inr (Z.of_nat (size d))
  | _ => inl (TypeError "object has no len()")
  end.

(** [v[0]]. *)
Definition first_item (v : value) : result value :=
  match v with
  | VList l => match l with x :: _ => inr x | [] => inl IndexError end
  | VStr s => match s with
              | String c _ => inr (VStr (String c EmptyString))
              | EmptyString => inl IndexError
              end
  | VDict _ => inl (KeyError "0")
  | _ => inl (TypeError "object is not subscriptable")
  end.

End Py.

(** ** External calls and the handler monad *)

Module Eff.
Import Py.

(** A Slack web-API response behaves like its JSON body:
    [resp[key]] and [resp.get(key)] are both [data.get(key, None)]. *)
Record SlackResponse : Type := { data : gmap string value }.

Definition resp_get (r : SlackResponse) (key : string) : value :=
  dict_get (data r) key VNone.

(** A structured answer of the question-answering API (a pydantic
    model): [model_dump()] gives its fields. *)
Record APIResponse : Type := { model_dump : gmap string value }.

(** [api_response.ad_copies]. *)
Definition ad_copies (r : APIResponse) : result value :=
  match model_dump r !! "ad_copies" with
  | Some v => inr v
  | None => inl (AttributeError "ad_copies")
  end.

(** A vector index of the index library: an identifier and the storage
    context it writes to ([index.storage_context]). *)
Record Index : Type := { index_id : string; storage_context_of : string }.

(** Every function that the three files call and that lives outside
    them: the Slack SDK ([ack], [say], [app.client]), the API client,
    the helpers of [wandbot.apps], and the index library.  The index of
    the type is the Python type of the returned object. *)
Inductive call : Type → Type :=
  (* Slack Bolt *)
  | ack : call unit
  | say_text (text : string) (thread_ts : option value) (token : string)
      : call SlackResponse
  | say_blocks (blocks : value) (thread_ts : value) (token : string)
      : call SlackResponse
  | say_positional (arg : value) (thread_ts : value) (token : string)
      : call SlackResponse
  | reactions_add (channel timestamp : value) (name token : string)
      : call unit
  | conversations_replies (channel ts : value) (inclusive : bool)
      (limit : Z) (token : string) : call SlackResponse
  (* wandbot.apps.slack.utils, wandbot.apps.slack.formatter,
     wandbot.apps.utils, wandbot.apps.slack.config *)
  | get_initial_message (message channel_id : value) (token : string)
      : call value
  | get_init_block (user : value) : call value
  | get_adcopy_blocks : call value
  | MrkdwnFormatter (message : string) : call string
  | intro_message_format (user : value) : call string
  | format_response (api_response : APIResponse) (outro : string)
      : call string
  (* wandbot.api.client.AsyncAPIClient *)
  | get_chat_history (application : string) (thread_id : value)
      : call value
  | query (question chat_history : value) (language application : string)
      : call APIResponse
  | create_question_answer (thread_id question_answer_id : value)
      (language : string) (fields : gmap string value) : call unit
  | generate_ads (query action persona : value) : call APIResponse
  | create_feedback (feedback_id question_answer_id : value) (rating : Z)
      : call unit
  (* llama_index *)
  | load_index_from_storage (storage_context : string) : call Index
  | VectorStoreIndex (nodes : list string)
      (service_context storage_context : string) (show_progress : bool)
      : call Index
  | persist (storage_context : string) (persist_dir : string) : call unit.

(** What an observer of a run sees, in order: the calls made and the
    log lines written. *)
Inductive event : Type :=
  | Called {X : Type} (c : call X)
  | LogInfo (msg : string) (payload : value)
  | LogError (msg : string) (e : exn).

Definition trace : Type := list event.

(** The outside world answers a call, given everything that happened
    before it, with a returned object or a raised exception. *)
Definition world : Type := ∀ X : Type, trace → call X → result X.

(** Programs: a free monad over [call] with exceptions.  The
    continuation of [Do] receives the outcome of the call, so that a
    [try] around it can intercept the failure. *)
Inductive prog (A : Type) : Type :=
  | Ret (a : A)
  | Raise (e : exn)
  | Do {X : Type} (c : call X) (k : result X → prog A)
  | Emit (ev : event) (k : prog A).

Arguments Ret {A} a.
Arguments Raise {A} e.
Arguments Do {A X} c k.
Arguments Emit {A} ev k.

Definition lift {A : Type} (r : result A) : prog A :=
  match r with
  | inl e => Raise e
  | inr a => Ret a
  end.

(** [await f(...)]. *)
Definition await {X : Type} (c : call X) : prog X := Do c lift.

Fixpoint bind {A B : Type} (p : prog A) (f : A → prog B) : prog B :=
  match p with
  | Ret a => f a
  | Raise e => Raise e
  | Do c k => Do c (λ r, bind (k r) f)
  | Emit ev k => Emit ev (bind k f)
  end.

(** [try: p  except Exception as e: h e]. *)
Fixpoint try_except {A : Type} (p : prog A) (h : exn → prog A) : prog A :=
  match p with
  | Ret a => Ret a
  | Raise e => h e
  | Do c k => Do c (λ r, try_except (k r) h)
  | Emit ev k => Emit ev (try_except k h)
  end.

Definition log_info (msg : string) (payload : value) : prog unit :=
  Emit (LogInfo msg payload) (Ret tt).

Definition log_error (msg : string) (e : exn) : prog unit :=
  Emit (LogError msg e) (Ret tt).

(** Running a program against a world, from the trace so far. *)
Fixpoint run {A : Type} (w : world) (p : prog A) (tr : trace)
  : trace * result A :=
  match p with
  | Ret a => (tr, inr a)
  | Raise e => (tr, inl e)
  | Do c k => run w (k (w _ tr c)) (tr ++ [Called c])
  | Emit ev k => run w k (tr ++ [ev])
  end.

Definition exec {A : Type} (w : world) (p : prog A) : trace * result A :=
  run w p [].

(** The world answers the call [c] with [r] whenever it is made. *)
Definition answers {X : Type} (w : world) (c : call X) (r : result X)
  : Prop :=
  ∀ tr, w X tr c = r.

(** The monad operations, so that programs are written with stdpp's
    [x ← p; q] and [p;; q]. *)
#[export] Instance prog_ret : MRet prog := λ A a, Ret a.
#[export] Instance prog_bind : MBind prog := λ A B f p, bind p f.

End Eff.


(** ** [src/wandbot/apps/slack/__main__.py] *)

Module Slack.
Import Py Eff.

(** The language profile selected at start-up ([SlackAppEnConfig] or
    [SlackAppJaConfig]); the classes are not part of the sources at hand,
    so the fields the handlers read are taken as parameters.
    [INTRO_MESSAGE.format(user=...)] is the call [intro_message_format]. *)
Record Config : Type := {
  SLACK_APP_TOKEN : string;
  SLACK_BOT_TOKEN : string;
  APPLICATION : string;
  OUTRO_MESSAGE : string;
  bot_language : string
}.

(** [parse_reaction], lines 255-270. *)
Definition parse_reaction (reaction : value) : Z :=
  if eq_str reaction "+1" then 1
  else if eq_str reaction "-1" then -1
  else 0.

Section Handlers.
Variable config : Config.

(** [send_message], lines 56-63; [say] is already bound to the bot
    token by the caller ([partial(say, token=...)]). *)
Definition send_message (message : string) (thread : value)
  : prog SlackResponse :=
  message ← await (MrkdwnFormatter message);
  match thread with
  | VNone => await (say_text message None (SLACK_BOT_TOKEN config))
  | _ => await (say_text message (Some thread) (SLACK_BOT_TOKEN config))
  end.

(** The [thread_ts] keyword of the [say] inside [send_message]: given
    only when [thread is not None]. *)
Definition thread_kw (thread : value) : option value :=
  match thread with
  | VNone => None
  | _ => Some thread
  end.

(** [handle_mention], lines 66-74. *)
Definition handle_mention (event : gmap string value) : prog unit :=
  let original_msg_ts := dict_get event "ts" VNone in
  let user := dict_get event "user" VNone in
  init_block ← await (get_init_block user);
  _ ← await (say_blocks init_block original_msg_ts (SLACK_BOT_TOKEN config));
  mret tt.

(** The expression
    [initial_message.get("thread_ts", None) or initial_message.get("ts", None)]
    of lines 104-106, 184-186 and 215-217. *)
Definition thread_id_of (initial_message : value) : prog value :=
  a ← lift (get initial_message "thread_ts" VNone);
  if truthy a then mret a
  else lift (get initial_message "ts" VNone).

(** The first statements of the three action handlers (lines 95-99,
    178-182, 205-209): log the body, resolve the originating message,
    log it. *)
Definition resolve_initial_message (body : gmap string value)
  : prog value :=
  log_info "Received message: " (VDict body);;
  message ← lift (dict_getitem body "message");
  channel ← lift (dict_getitem body "channel");
  channel_id ← lift (get channel "id" VNone);
  initial_message ←
    await (get_initial_message message channel_id (SLACK_BOT_TOKEN config));
  log_info "Initial message: " initial_message;;
  mret initial_message.

(** [body["channel"].get("id")]. *)
Definition channel_id_of (body : gmap string value) : prog value :=
  channel ← lift (dict_getitem body "channel");
  lift (get channel "id" VNone).

(** The statements inside the [try] of [docsbot_handler], lines
    102-157. *)
Definition docsbot_steps (body : gmap string value)
  (initial_message : value) : prog unit :=
  query_text ← lift (get initial_message "text" VNone);
  user ← lift (get initial_message "user" VNone);
  thread_id ← thread_id_of initial_message;
  chat_history ←
    await (get_chat_history (APPLICATION config) thread_id);
  (if negb (truthy chat_history) then
     intro ← await (intro_message_format user);
     _ ← send_message intro thread_id;
     mret tt
   else mret tt);;
  api_response ←
    await (query query_text chat_history (bot_language config)
             (APPLICATION config));
  response ← await (format_response api_response (OUTRO_MESSAGE config));
  sent_message ← send_message response thread_id;
  channel ← channel_id_of body;
  await (reactions_add channel (resp_get sent_message "ts") "thumbsup"
           (SLACK_BOT_TOKEN config));;
  channel ← channel_id_of body;
  await (reactions_add channel (resp_get sent_message "ts") "thumbsdown"
           (SLACK_BOT_TOKEN config));;
  let fields := model_dump api_response in
  if bool_decide (is_Some (fields !! "thread_id"))
     || bool_decide (is_Some (fields !! "question_answer_id"))
     || bool_decide (is_Some (fields !! "language"))
  then Raise (TypeError "got multiple values for keyword argument")
  else
    await (create_question_answer thread_id (resp_get sent_message "ts")
             (bot_language config) fields).

(** [docsbot_handler], lines 77-160. *)
Definition docsbot_handler (body : gmap string value) : prog unit :=
  await ack;;
  initial_message ← resolve_initial_message body;
  try_except (docsbot_steps body initial_message)
    (λ e, log_error "Error posting message: " e).

(** [adcopy_handler], lines 163-191. *)
Definition adcopy_handler (body : gmap string value) : prog unit :=
  await ack;;
  initial_message ← resolve_initial_message body;
  thread_ts ← thread_id_of initial_message;
  adcopy_blocks ← await get_adcopy_blocks;
  _ ← await (say_blocks adcopy_blocks thread_ts (SLACK_BOT_TOKEN config));
  mret tt.

(** [handle_adcopy_action], lines 194-220. *)
Definition handle_adcopy_action (body : gmap string value)
  (action persona : string) : prog unit :=
  initial_message ← resolve_initial_message body;
  query_text ← lift (get initial_message "text" VNone);
  api_response ←
    await (generate_ads query_text (VStr action) (VStr persona));
  thread_ts ← thread_id_of initial_message;
  copies ← lift (ad_copies api_response);
  _ ← await (say_positional copies thread_ts (SLACK_BOT_TOKEN config));
  mret tt.

(** The four ad-copy actions, lines 223-252. *)
Definition executive_awareness_handler (body : gmap string value)
  : prog unit :=
  await ack;; handle_adcopy_action body "awareness" "executive".

Definition executive_signups_handler (body : gmap string value)
  : prog unit :=
  await ack;; handle_adcopy_action body "signups" "executive".

Definition technical_awareness_handler (body : gmap string value)
  : prog unit :=
  await ack;; handle_adcopy_action body "awareness" "technical".

Definition technical_signups_handler (body : gmap string value)
  : prog unit :=
  await ack;; handle_adcopy_action body "signups" "technical".

(** [messages and len(messages)] in the condition of line 295. *)
Definition nonempty (messages : value) : prog bool :=
  if truthy messages then
    n ← lift (len messages);
    mret (truthy (VInt n))
  else mret false.

(** [handle_reaction_added], lines 273-303. *)
Definition handle_reaction_added (event : gmap string value)
  : prog unit :=
  item ← lift (dict_getitem event "item");
  channel_id ← lift (getitem item "channel");
  item ← lift (dict_getitem event "item");
  message_ts ← lift (getitem item "ts");
  conversation ←
    await (conversations_replies channel_id message_ts true 1
             (SLACK_BOT_TOKEN config));
  let messages := resp_get conversation "messages" in
  has_messages ← nonempty messages;
  if has_messages : bool then
    first ← lift (first_item messages);
    thread_ts ← lift (get first "thread_ts" VNone);
    if truthy thread_ts then
      reaction ← lift (dict_getitem event "reaction");
      let rating := parse_reaction reaction in
      feedback_id ← lift (dict_getitem event "event_ts");
      await (create_feedback feedback_id message_ts rating)
    else mret tt
  else mret tt.

End Handlers.

(** The acknowledgement returns, the action body names its message and
    its channel, and the originating message is resolved to the dict
    [m]: the steps ahead of the thread-id resolution succeed. *)
Definition resolves (config : Config) (w : world)
  (body : gmap string value) (message : value)
  (channel m : gmap string value) : Prop :=
  answers w ack (inr tt)
  ∧ body !! "message" = Some message
  ∧ body !! "channel" = Some (VDict channel)
  ∧ answers w
      (get_initial_message message (dict_get channel "id" VNone)
         (SLACK_BOT_TOKEN config))
      (inr (VDict m)).

(** The events of [docsbot_handler] ahead of its [try], in a run where
    [resolves] holds. *)
Definition before_guard (config : Config) (body : gmap string value)
    (message : value) (channel m : gmap string value) : trace :=
  [ Called ack;
    LogInfo "Received message: " (VDict body);
    Called (get_initial_message message (dict_get channel "id" VNone)
              (SLACK_BOT_TOKEN config));
    LogInfo "Initial message: " (VDict m) ].

(** The resolved thread id of the originating message [m]. *)
Definition thread_id (m : gmap string value) : value :=
  py_or (dict_get m "thread_ts" VNone) (dict_get m "ts" VNone).

(** First contact: the originating message is resolved to [m], the
    history fetched for its thread is empty ([h] is falsy), and every
    later step of the primary action returns normally; the other
    parameters name what the steps return. *)
Definition first_contact (config : Config) (w : world)
    (body : gmap string value) (message : value)
    (channel m : gmap string value) (h : value)
    (intro intro' response response' : string) (api : APIResponse)
    (sent_intro sent : SlackResponse) : Prop :=
  let token := SLACK_BOT_TOKEN config in
  let channel_id := dict_get channel "id" VNone in
  let sent_ts := resp_get sent "ts" in
  resolves config w body message channel m
  ∧ answers w (get_chat_history (APPLICATION config) (thread_id m)) (inr h)
  ∧ truthy h = false
  ∧ answers w (intro_message_format (dict_get m "user" VNone)) (inr intro)
  ∧ answers w (MrkdwnFormatter intro) (inr intro')
  ∧ answers w (say_text intro' (thread_kw (thread_id m)) token)
      (inr sent_intro)
  ∧ answers w
      (query (dict_get m "text" VNone) h (bot_language config)
         (APPLICATION config))
      (inr api)
  ∧ answers w (format_response api (OUTRO_MESSAGE config)) (inr response)
  ∧ answers w (MrkdwnFormatter response) (inr response')
  ∧ answers w (say_text response' (thread_kw (thread_id m)) token)
      (inr sent)
  ∧ answers w (reactions_add channel_id sent_ts "thumbsup" token) (inr tt)
  ∧ answers w (reactions_add channel_id sent_ts "thumbsdown" token)
      (inr tt)
  ∧ model_dump api !! "thread_id" = None
  ∧ model_dump api !! "question_answer_id" = None
  ∧ model_dump api !! "language" = None
  ∧ answers w
      (create_question_answer (thread_id m) sent_ts (bot_language config)
         (model_dump api))
      (inr tt).

(** The events of the guarded steps in a first contact. *)
Definition first_contact_events (config : Config)
    (channel m : gmap string value) (h : value)
    (intro intro' response response' : string) (api : APIResponse)
    (sent : SlackResponse) : trace :=
  let token := SLACK_BOT_TOKEN config in
  let channel_id := dict_get channel "id" VNone in
  let sent_ts := resp_get sent "ts" in
  [ Called (get_chat_history (APPLICATION config) (thread_id m));
    Called (intro_message_format (dict_get m "user" VNone));
    Called (MrkdwnFormatter intro);
    Called (say_text intro' (thread_kw (thread_id m)) token);
    Called (query (dict_get m "text" VNone) h (bot_language config)
              (APPLICATION config));
    Called (format_response api (OUTRO_MESSAGE config));
    Called (MrkdwnFormatter response);
    Called (say_text response' (thread_kw (thread_id m)) token);
    Called (reactions_add channel_id sent_ts "thumbsup" token);
    Called (reactions_add channel_id sent_ts "thumbsdown" token);
    Called (create_question_answer (thread_id m) sent_ts
              (bot_language config) (model_dump api)) ].

(** Observations on a trace: the messages sent with [send_message] (text
    and thread), the number of times the intro text was produced, and the
    feedback records submitted. *)
Definition says (tr : trace) : list (string * option value) :=
  omap (λ ev, match ev with
              | Called (say_text text thread _) => Some (text, thread)
              | _ => None
              end) tr.


Definition feedbacks (tr : trace) : list (value * value * Z) :=
  omap (λ ev, match ev with
              | Called (create_feedback fid qid rating) =>
                  Some (fid, qid, rating)
              | _ => None
              end) tr.

(** *** Concrete runs, for examples *)

Definition en_config : Config :=
  {| SLACK_APP_TOKEN := "xapp-1"; SLACK_BOT_TOKEN := "xoxb-1";
     APPLICATION := "Slack_EN"; OUTRO_MESSAGE := "outro";
     bot_language := "en" |}.

Definition answer_fields : gmap string value :=
  {[ "question" := VStr "How do I log a metric?";
     "answer" := VStr "Call wandb.log.";
     "ad_copies" := VStr "copy" ]}.

(** A world in which every call returns: the originating message is
    [initial], the chat history is [history], the thread lookup answers
    [replies], and every sent message gets the timestamp ["S1"]. *)
Definition scripted (initial history : value)
  (replies : gmap string value) : world :=
  λ X _ c,
    match c in call X return result X with
    | ack => inr tt
    | say_text _ _ _ | say_blocks _ _ _ | say_positional _ _ _ =>
        inr {| data := {[ "ts" := VStr "S1" ]} |}
    | reactions_add _ _ _ _ => inr tt
    | conversations_replies _ _ _ _ _ => inr {| data := replies |}
    | get_initial_message _ _ _ => inr initial
    | get_init_block _ => inr (VList [])
    | get_adcopy_blocks => inr (VList [])
    | MrkdwnFormatter message => inr message
    | intro_message_format _ => inr "intro"%string
    | format_response _ _ => inr "answer"%string
    | get_chat_history _ _ => inr history
    | query _ _ _ _ => inr {| model_dump := answer_fields |}
    | generate_ads _ _ _ => inr {| model_dump := answer_fields |}
    | create_question_answer _ _ _ _ => inr tt
    | create_feedback _ _ _ => inr tt
    | load_index_from_storage sc =>
        inr {| index_id := "loaded"; storage_context_of := sc |}
    | VectorStoreIndex _ _ sc _ =>
        inr {| index_id := "built"; storage_context_of := sc |}
    | persist _ _ => inr tt
    end.

(** The same world, except that the Slack thread lookup fails, the API
    is unreachable and no index is stored. *)
Definition flaky (initial history : value) : world :=
  λ X tr c,
    match c in call X return result X with
    | conversations_replies _ _ _ _ _ => inl (Failure "SlackApiError")
    | generate_ads _ _ _ => inl (Failure "HTTPError")
    | query _ _ _ _ => inl (Failure "HTTPError")
    | load_index_from_storage _ => inl (ValueError "No index in storage")
    | c' => scripted initial history ∅ _ tr c'
    end.

Definition demo_body : gmap string value :=
  {[ "message" := VDict {[ "ts" := VStr "T9" ]};
     "channel" := VDict {[ "id" := VStr "C1" ]} ]}.

Definition demo_message : gmap string value :=
  {[ "text" := VStr "How do I log a metric?";
     "user" := VStr "U2";
     "ts" := VStr "T2" ]}.

(** The same message with a present but empty [thread_ts]. *)
Definition falsy_message : gmap string value :=
  <[ "thread_ts" := VStr EmptyString ]> demo_message.

Definition demo_world : world :=
  scripted (VDict demo_message) (VList []) ∅.

Definition falsy_world : world :=
  scripted (VDict falsy_message) (VList []) ∅.

(** A thread with one earlier exchange. *)
Definition busy_world : world :=
  scripted (VDict demo_message)
    (VList [VList [VStr "question"; VStr "answer"]]) ∅.

Definition flaky_world : world := flaky (VDict demo_message) (VList []).

(** Thread lookups: the reacted message belongs to thread ["T1"]; the
    reacted message has no thread. *)
Definition thread_replies : gmap string value :=
  {[ "messages" :=
       VList [VDict {[ "ts" := VStr "T3"; "thread_ts" := VStr "T1" ]}] ]}.

Definition plain_replies : gmap string value :=
  {[ "messages" := VList [VDict {[ "ts" := VStr "T3" ]}] ]}.

Definition thread_world : world := scripted VNone VNone thread_replies.

Definition plain_world : world := scripted VNone VNone plain_replies.

Definition sent_s1 : SlackResponse := {| data := {[ "ts" := VStr "S1" ]} |}.

Definition demo_api : APIResponse := {| model_dump := answer_fields |}.

Definition demo_reaction : gmap string value :=
  {[ "item" := VDict {[ "channel" := VStr "C1"; "ts" := VStr "T3" ]};
     "reaction" := VStr "+1";
     "event_ts" := VStr "E1" ]}.

(** The same event with the reaction ["-1"], and with another one. *)
Definition down_reaction : gmap string value :=
  {[ "item" := VDict {[ "channel" := VStr "C1"; "ts" := VStr "T3" ]};
     "reaction" := VStr "-1";
     "event_ts" := VStr "E1" ]}.

Definition other_reaction : gmap string value :=
  {[ "item" := VDict {[ "channel" := VStr "C1"; "ts" := VStr "T3" ]};
     "reaction" := VStr "tada";
     "event_ts" := VStr "E1" ]}.

End Slack.

(** ** [src/wandbot/utils.py] *)

Module Utils.
Import Py Eff.

(** [load_index], lines 185-212. *)
Definition load_index (nodes : list string)
  (service_context storage_context persist_dir : string) : prog Index :=
  try_except
    (await (load_index_from_storage storage_context))
    (λ _,
       index ← await (VectorStoreIndex nodes service_context
                        storage_context true);
       await (persist (storage_context_of index) persist_dir);;
       mret index).

End Utils.

(** ** [src/wandbot/chat/prompts.py] *)

Module Prompts.
Import Py.

(** [partial_format] is written with three operations of Python itself:
    [str.replace], [string.Formatter.parse] and [str.format].  They are
    modelled here after CPython ([Objects/stringlib/unicode_format.h]:
    [MarkupIterator_next], [parse_field], [field_name_split],
    [get_integer], [do_markup]), errors included. *)

(** A Python [str], as the list of its characters (for text outside
    ASCII: of its UTF-8 bytes, none of which is an ASCII character). *)
Abbreviation text := (list ascii).

Definition str (s : string) : text := list_ascii_of_string s.

(** The bytes of UTF-8: a character of ASCII is one byte below 128; any
    other character is a lead byte (192 or more) followed by
    continuation bytes (128 to 191). *)
Definition is_ascii (c : ascii) : bool := Z.of_N (N_of_ascii c) <? 128.

Definition is_continuation (c : ascii) : bool :=
  (128 <=? Z.of_N (N_of_ascii c)) && (Z.of_N (N_of_ascii c) <? 192).

(** The continuation bytes at the head of a text, and what follows
    them. *)
Fixpoint span_continuation (s : text) : text * text :=
  match s with
  | [] => ([], [])
  | c :: s' =>
      if is_continuation c
      then let '(more, rest) := span_continuation s' in (c :: more, rest)
      else ([], s)
  end.

(** The first character of a text (its bytes), and the text after it. *)
Definition first_char (s : text) : option (text * text) :=
  match s with
  | [] => None
  | c :: s' =>
      let '(more, rest) := span_continuation s' in Some (c :: more, rest)
  end.

(** [s.startswith(p)]. *)
Fixpoint starts_with (p s : text) : bool :=
  match p, s with
  | [], _ => true
  | a :: p', b :: s' => Ascii.eqb a b && starts_with p' s'
  | _ :: _, [] => false
  end.

(** [s.replace(old, new)] for a non-empty [old]: scan from the left,
    replace every match and resume after it ([skip] characters of the
    match are still to be passed over). *)
Fixpoint replace_from (old new : text) (skip : nat) (s : text) : text :=
  match s with
  | [] => []
  | c :: s' =>
      match skip with
      | S n => replace_from old new n s'
      | O =>
          if starts_with old s
          then new ++ replace_from old new (List.length old - 1) s'
          else c :: replace_from old new 0 s'
      end
  end.

(** [new] put after every character of [s]: after every byte that no
    continuation byte follows. *)
Fixpoint after_each (new s : text) : text :=
  match s with
  | [] => []
  | c :: s' =>
      match s' with
      | c' :: _ =>
          if is_continuation c' then c :: after_each new s'
          else c :: new ++ after_each new s'
      | [] => c :: new
      end
  end.

(** [s.replace(old, new)]; an empty [old] matches before every character
    and at the end. *)
Definition replace (s old new : text) : text :=
  match old with
  | [] => new ++ after_each new s
  | _ :: _ => replace_from old new 0 s
  end.

(** *** The markup iterator of [str.format] and [Formatter.parse] *)

Record field : Type := {
  field_name : text;
  format_spec : text;
  conversion : option text
}.

(** One step of the iterator: the literal text, and the replacement
    field that follows it, if any. *)
Record item : Type := { literal : text; field_of : option field }.

Definition is_brace (c : ascii) : bool :=
  Ascii.eqb c "{" || Ascii.eqb c "}".

(** The literal text up to the first brace, then the brace and what
    follows it. *)
Fixpoint span_literal (s : text) : text * option (ascii * text) :=
  match s with
  | [] => ([], None)
  | c :: s' =>
      if is_brace c then ([], Some (c, s'))
      else let '(lit, r) := span_literal s' in (c :: lit, r)
  end.

(** The field name: up to [}], [:] or [!]; inside [[...]] nothing is
    looked at. *)
Inductive name_scan : Type :=
  | NameEnd (name : text) (terminator : ascii) (rest : text)
  | NameBrace
  | NameOpen.

Definition name_cons (c : ascii) (r : name_scan) : name_scan :=
  match r with
  | NameEnd name t rest => NameEnd (c :: name) t rest
  | other => other
  end.

Fixpoint scan_name (bracket : bool) (s : text) : name_scan :=
  match s with
  | [] => NameOpen
  | c :: s' =>
      if bracket then
        name_cons c (scan_name (negb (Ascii.eqb c "]")) s')
      else if Ascii.eqb c "{" then NameBrace
      else if Ascii.eqb c "[" then name_cons c (scan_name true s')
      else if Ascii.eqb c "}" || Ascii.eqb c ":" || Ascii.eqb c "!"
      then NameEnd [] c s'
      else name_cons c (scan_name false s')
  end.

(** The format spec: up to the [}] that closes the field, nested braces
    counted. *)
Fixpoint scan_spec (depth : nat) (s : text) : option (text * text) :=
  match s with
  | [] => None
  | c :: s' =>
      if Ascii.eqb c "{" then
        '(spec, rest) ← scan_spec (S depth) s'; Some (c :: spec, rest)
      else if Ascii.eqb c "}" then
        match depth with
        | O => Some ([], s')
        | S d => '(spec, rest) ← scan_spec d s'; Some (c :: spec, rest)
        end
      else '(spec, rest) ← scan_spec depth s'; Some (c :: spec, rest)
  end.

Definition spec_field (name : text) (conv : option text) (s : text)
  : result (field * text) :=
  match scan_spec 0 s with
  | Some (spec, rest) =>
      inr ({| field_name := name; format_spec := spec;
              conversion := conv |}, rest)
  | None => inl (ValueError "unmatched '{' in format spec")
  end.

(** [parse_field]: the text after the opening brace.  The conversion is
    the one character after [!], whatever it is. *)
Definition parse_field (s : text) : result (field * text) :=
  match scan_name false s with
  | NameBrace => inl (ValueError "unexpected '{' in field name")
  | NameOpen => inl (ValueError "expected '}' before end of string")
  | NameEnd name t rest =>
      if Ascii.eqb t "}" then
        inr ({| field_name := name; format_spec := [];
                conversion := None |}, rest)
      else if Ascii.eqb t ":" then spec_field name None rest
      else
        match first_char rest with
        | None =>
            inl (ValueError
                   "end of string while looking for conversion specifier")
        | Some (conv, rest1) =>
            match rest1 with
            | [] => spec_field name (Some conv) []
            | c :: rest2 =>
                if Ascii.eqb c "}" then
                  inr ({| field_name := name; format_spec := [];
                          conversion := Some conv |}, rest2)
                else if Ascii.eqb c ":" then
                  spec_field name (Some conv) rest2
                else
                  inl (ValueError
                         "expected ':' after conversion specifier")
            end
        end
  end.

(** [MarkupIterator_next]: [None] at the end of the text. *)
Definition markup_next (s : text) : result (option (item * text)) :=
  match s with
  | [] => inr None
  | _ :: _ =>
      match span_literal s with
      | (lit, None) =>
          inr (Some ({| literal := lit; field_of := None |}, []))
      | (lit, Some (c, r)) =>
          match r with
          | [] =>
              if Ascii.eqb c "}" then
                inl (ValueError "Single '}' encountered in format string")
              else
                inl (ValueError "Single '{' encountered in format string")
          | c' :: r' =>
              if Ascii.eqb c c' then
                inr (Some ({| literal := lit ++ [c]; field_of := None |},
                           r'))
              else if Ascii.eqb c "}" then
                inl (ValueError "Single '}' encountered in format string")
              else
                match parse_field r with
                | inl e => inl e
                | inr (f, rest) =>
                    inr (Some ({| literal := lit; field_of := Some f |},
                               rest))
                end
          end
      end
  end.

(** The whole iteration: the items produced, and the error that ends
    the iteration if there is one.  Every step consumes at least one
    character, so [length s] steps and one more for the end are
    enough. *)
Fixpoint markup_steps (fuel : nat) (s : text) : list item * option exn :=
  match fuel with
  | O => ([], None)
  | S fuel' =>
      match markup_next s with
      | inl e => ([], Some e)
      | inr None => ([], None)
      | inr (Some (it, rest)) =>
          let '(items, err) := markup_steps fuel' rest in
          (it :: items, err)
      end
  end.

Definition markup (s : text) : list item * option exn :=
  markup_steps (S (List.length s)) s.

(** [list(Formatter().parse(s))]. *)
Definition Formatter_parse (s : text) : result (list item) :=
  match markup s with
  | (items, None) => inr items
  | (_, Some e) => inl e
  end.

(** *** [str.format] with keyword arguments, on [str] values *)

(** What a call of [format] does.  [Unmodelled] marks the part of the
    format mini-language that is left out: attribute or index access on
    a value, the conversions [!r] and [!a], and a non-empty format spec,
    each applied to a value that was found; and a field name in which
    the search for an index meets a character outside ASCII (it may be
    a decimal digit of another script, which Python reads as a
    digit). *)
Inductive outcome : Type :=
  | Returned (s : text)
  | Raised (e : exn)
  | Unmodelled.

(** A decimal digit of ASCII. *)
Definition is_digit (c : ascii) : bool :=
  (48 <=? Z.of_N (N_of_ascii c)) && (Z.of_N (N_of_ascii c) <=? 57).

Definition PY_SSIZE_T_MAX : Z := 2 ^ 63 - 1.

(** What [get_integer] finds in the first part of a field name: an
    index; no index (the text is empty, or a character of ASCII that is
    not a digit comes first among the characters that are not digits of
    ASCII); too many digits; or a character outside ASCII met while
    every character before it was a digit, where [Py_UNICODE_TODECIMAL]
    decides and this model does not. *)
Inductive index : Type :=
  | Index (n : Z)
  | NoIndex
  | TooManyDigits
  | OtherScript.

Fixpoint get_integer_from (acc : Z) (s : text) : index :=
  match s with
  | [] => Index acc
  | c :: s' =>
      if is_digit c then
        let d := Z.of_N (N_of_ascii c) - 48 in
        if (PY_SSIZE_T_MAX - d) / 10 <? acc then TooManyDigits
        else get_integer_from (acc * 10 + d) s'
      else if is_ascii c then NoIndex
      else OtherScript
  end.

Definition get_integer (s : text) : index :=
  match s with
  | [] => NoIndex
  | _ :: _ => get_integer_from 0 s
  end.

(** [field_name_split]: the part before the first [.] or [[], and the
    accessors that follow. *)
Fixpoint split_first (s : text) : text * text :=
  match s with
  | [] => ([], [])
  | c :: s' =>
      if Ascii.eqb c "." || Ascii.eqb c "[" then ([], s)
      else let '(first, rest) := split_first s' in (c :: first, rest)
  end.

(** Rendering one replacement field; there are no positional
    arguments. *)
Definition render_field (kwargs : gmap text text) (f : field) : outcome :=
  let '(first, rest) := split_first (field_name f) in
  match get_integer first with
  | TooManyDigits =>
      Raised (ValueError "Too many decimal digits in format string")
  | OtherScript => Unmodelled
  | Index _ => Raised IndexError
  | NoIndex =>
      match first with
      | [] => Raised IndexError
      | _ :: _ =>
          match kwargs !! first with
          | None => Raised (KeyError (string_of_list_ascii first))
          | Some v =>
              match rest with
              | _ :: _ => Unmodelled
              | [] =>
                  match conversion f with
                  | Some c =>
                      if bool_decide (c = str "s") then
                        match format_spec f with
                        | [] => Returned v
                        | _ :: _ => Unmodelled
                        end
                      else if bool_decide (c = str "r")
                              || bool_decide (c = str "a")
                      then Unmodelled
                      else Raised (ValueError "Unknown conversion specifier")
                  | None =>
                      match format_spec f with
                      | [] => Returned v
                      | _ :: _ => Unmodelled
                      end
                  end
              end
          end
      end
  end.

(** [do_markup]: the items are rendered in order; the first failure
    ends the call. *)
Fixpoint render_items (kwargs : gmap text text) (items : list item)
    (err : option exn) : outcome :=
  match items with
  | [] =>
      match err with
      | Some e => Raised e
      | None => Returned []
      end
  | it :: items' =>
      match field_of it with
      | None =>
          match render_items kwargs items' err with
          | Returned out => Returned (literal it ++ out)
          | other => other
          end
      | Some f =>
          match render_field kwargs f with
          | Returned v =>
              match render_items kwargs items' err with
              | Returned out => Returned (literal it ++ v ++ out)
              | other => other
              end
          | other => other
          end
      end
  end.

(** [s.format] applied to the keyword arguments [kwargs]. *)
Definition format (s : text) (kwargs : gmap text text) : outcome :=
  let '(items, err) := markup s in render_items kwargs items err.

(** *** [partial_format], lines 27-43 *)

(** The names of the replacement fields:
    [[x[1] for x in Formatter().parse(s) if x[1] is not None]]. *)
Definition field_names (items : list item) : list text :=
  omap (λ it, field_name <$> field_of it) items.

Definition TEMP_PLACEHOLDER : text := str "TEMP_PLACEHOLDER_".

Definition braced (k : text) : text := str "{" ++ k ++ str "}".

(** [partial_format], called with the template as its one positional
    argument and with [kwargs] as its keyword arguments.  The function
    is [def partial_format(s, **kwargs)]: a keyword argument named [s]
    is a second value for the parameter [s], and the call raises
    [TypeError] before the body runs.  [set_order] is the order in which
    Python iterates over the set built from a list; it is the same in
    the three loops over [place_holders], which is not modified between
    them. *)
Definition partial_format (set_order : list text → list text)
    (s : text) (kwargs : gmap text text) : outcome :=
  match kwargs !! str "s" with
  | Some _ =>
      Raised (TypeError
                "partial_format() got multiple values for argument 's'")
  | None =>
      match Formatter_parse s with
      | inl e => Raised e
      | inr items =>
          let place_holders := set_order (field_names items) in
          let replacements : gmap text text :=
            list_to_map
              ((λ k, (k, default (braced k) (kwargs !! k)))
                 <$> place_holders)
          in
          let s :=
            foldl (λ s k, replace s (braced k) (TEMP_PLACEHOLDER ++ k))
              s place_holders in
          let s :=
            replace (replace s (str "{") (str "{{")) (str "}") (str "}}")
          in
          let s :=
            foldl (λ s k, replace s (TEMP_PLACEHOLDER ++ k) (braced k))
              s place_holders in
          format s replacements
      end
  end.

(** An iteration order: every name once, in the order of last
    occurrence. *)
Definition last_seen (l : list text) : list text := remove_dups l.



(** *** Templates as token lists

    The templates for which the formatter is specified: literal
    characters other than braces, doubled braces, placeholders [{name}]
    with a plain name, and other brace groups [{...}] that
    [Formatter.parse] reads as one replacement field (a field with a
    conversion or a format spec: the way it reads the braces of a JSON
    object). *)

Inductive token : Type :=
  | Lit (c : ascii)
  | Open
  | Close
  | Hole (k : text)
  | Group (body : text).

#[export] Instance token_eq_dec : EqDecision token.
Proof. solve_decision. Defined.

Definition brace_free (x : text) : bool :=
  forallb (λ c, negb (is_brace c)) x.

(** The field that the brace group [{body}] is read as, and its name. *)
Definition group_field (body : text) : option field :=
  match parse_field (body ++ str "}") with
  | inr (f, []) => Some f
  | _ => None
  end.

Definition plain_field (k : text) : field :=
  {| field_name := k; format_spec := []; conversion := None |}.

Definition group_name (body : text) : text :=
  field_name (default (plain_field []) (group_field body)).

(** The escaping of the braces, on any text. *)
Definition escape_text (x : text) : text :=
  flat_map (λ a, if Ascii.eqb "}" a then str "}}" else [a])
    (flat_map (λ a, if Ascii.eqb "{" a then str "{{" else [a]) x).

(** The text of a token in the template. *)
Definition piece_plain (t : token) : text :=
  match t with
  | Lit c => [c]
  | Open => str "{{"
  | Close => str "}}"
  | Hole k => braced k
  | Group body => braced body
  end.

(** The text of a token after the first loop (every placeholder
    replaced by its marker) ... *)
Definition piece_marked (t : token) : text :=
  match t with
  | Hole k => TEMP_PLACEHOLDER ++ k
  | _ => piece_plain t
  end.

(** ... and after the escaping of the braces. *)
Definition piece_escaped (t : token) : text :=
  match t with
  | Lit c => [c]
  | Open => str "{{{{"
  | Close => str "}}}}"
  | Hole k => TEMP_PLACEHOLDER ++ k
  | Group body => escape_text (braced body)
  end.

(** The template a token list stands for. *)
Definition render (toks : list token) : text := flat_map piece_plain toks.

(** The placeholders, in order of occurrence ... *)
Definition holes (toks : list token) : list text :=
  omap (λ t, match t with Hole k => Some k | _ => None end) toks.

(** ... and the field names that [Formatter.parse] reports: those of the
    placeholders and those of the other groups. *)
Definition names (toks : list token) : list text :=
  omap (λ t, match t with
             | Hole k => Some k
             | Group body => Some (group_name body)
             | _ => None
             end) toks.

(** A plain name: not empty, without the characters that end or
    structure a field name, and not read as an index: a character of
    ASCII that is not a digit comes in it before any character outside
    ASCII. *)
Definition name_char (c : ascii) : bool :=
  negb (Ascii.eqb c "{" || Ascii.eqb c "}" || Ascii.eqb c "["
        || Ascii.eqb c "." || Ascii.eqb c ":" || Ascii.eqb c "!").

Definition plain_name (k : text) : bool :=
  forallb name_char k
  && match k, get_integer k with
     | _ :: _, NoIndex => true
     | _, _ => false
     end.

(** The tokens that [format] is given: no group is left among them. *)
Definition plain_token (t : token) : bool :=
  match t with
  | Lit c => negb (is_brace c)
  | Hole k => plain_name k
  | Open | Close => true
  | Group _ => false
  end.

(** A group is read as one field, with a name without braces, and does
    not start with a second brace. *)
Definition group_ok (body : text) : bool :=
  match body with
  | c :: _ => negb (Ascii.eqb c "{")
  | [] => true
  end
  && match group_field body with
     | Some f => brace_free (field_name f)
     | None => false
     end.

(** The tokens of a template. *)
Definition template_token (t : token) : bool :=
  match t with
  | Group body => group_ok body
  | _ => plain_token t
  end.

(** In the text [flat_map piece toks], the pattern [pat] occurs only at
    the start of the tokens [Hole k]. *)
Fixpoint only_at_holes (pat k : text) (piece : token → text)
    (toks : list token) : bool :=
  match toks with
  | [] => true
  | t :: ts =>
      forallb
        (λ j, implb (starts_with pat (drop j (piece t ++ flat_map piece ts)))
                (Nat.eqb j 0 && bool_decide (t = Hole k)))
        (seq 0 (List.length (piece t)))
      && only_at_holes pat k piece ts
  end.

(** The two textual substitutions of [partial_format] hit placeholders
    only: for every field name [k] of the template, the text [{k}]
    occurs in the template only as the placeholder [{k}], and the marker
    [TEMP_PLACEHOLDER_k] occurs in the marked and escaped text only
    where a placeholder [{k}] was marked. *)
Definition interference_free (toks : list token) : bool :=
  forallb
    (λ k, only_at_holes (braced k) k piece_plain toks
          && only_at_holes (TEMP_PLACEHOLDER ++ k) k piece_escaped toks)
    (names toks).

(** What [partial_format] is to return: supplied placeholders replaced
    by their values; the other placeholders, the doubled braces and the
    other groups left as they are. *)
Definition expand (kwargs : gmap text text) (toks : list token) : text :=
  flat_map
    (λ t, match t with
          | Hole k => default (braced k) (kwargs !! k)
          | _ => piece_plain t
          end)
    toks.

(** [set_order] enumerates, without repetition, the elements of the
    list it is given: what the iteration over a Python set does. *)
Definition enumerates (set_order : list text → list text) : Prop :=
  ∀ l, NoDup (set_order l) ∧ ∀ x, x ∈ set_order l ↔ x ∈ l.

(** The tokens of a text without placeholders, for the examples. *)
Definition lits (s : string) : list token := Lit <$> str s.

Definition kw (l : list (string * string)) : gmap text text :=
  list_to_map ((λ p, (str p.1, str p.2)) <$> l).

(** *** The intermediate texts of [partial_format]

    The Prop form of [only_at_holes]. *)
Fixpoint sited (pat k : text) (piece : token → text)
    (toks : list token) : Prop :=
  match toks with
  | [] => True
  | t :: ts =>
      (∀ j, (j < List.length (piece t))%nat →
            starts_with pat (drop j (piece t ++ flat_map piece ts)) = true →
            j = 0%nat ∧ t = Hole k)
      ∧ sited pat k piece ts
  end.

(** The text of a token during the first loop, when the names in [seen]
    have been marked ... *)
Definition piece_marking (seen : list text) (t : token) : text :=
  match t with
  | Hole k =>
      if bool_decide (k ∈ seen) then TEMP_PLACEHOLDER ++ k else braced k
  | _ => piece_plain t
  end.

(** ... during the last loop, when the names in [seen] have been
    restored ... *)
Definition piece_restoring (seen : list text) (t : token) : text :=
  match t with
  | Hole k =>
      if bool_decide (k ∈ seen) then braced k else TEMP_PLACEHOLDER ++ k
  | _ => piece_escaped t
  end.

(** ... and after the last loop, as handed to [format]. *)
Definition piece_final (t : token) : text :=
  match t with
  | Hole k => braced k
  | _ => piece_escaped t
  end.

(** An escaped text as a token list: every brace of the text is now a
    doubled brace. *)
Definition char_tokens (x : text) : list token :=
  (λ c, if Ascii.eqb c "{" then Open
        else if Ascii.eqb c "}" then Close else Lit c) <$> x.

(** The final text as a token list. *)
Definition final_tokens (toks : list token) : list token :=
  flat_map (λ t, match t with
                 | Open => [Open; Open]
                 | Close => [Close; Close]
                 | Group body => char_tokens (braced body)
                 | _ => [t]
                 end) toks.

(** What [format] makes of a token of the final text. *)
Definition piece_formatted (kwargs : gmap text text) (t : token) : text :=
  match t with
  | Lit c => [c]
  | Open => str "{"
  | Close => str "}"
  | Hole k => default [] (kwargs !! k)
  | Group _ => []
  end.

(** The items that the markup iterator yields on a rendered token
    list: a literal character joins the item that follows it. *)
Definition cons_lit (c : ascii) (items : list item) : list item :=
  match items with
  | [] => [ {| literal := [c]; field_of := None |} ]
  | it :: rest =>
      {| literal := c :: literal it; field_of := field_of it |} :: rest
  end.

Fixpoint items_of (toks : list token) : list item :=
  match toks with
  | [] => []
  | Lit c :: ts => cons_lit c (items_of ts)
  | Open :: ts => {| literal := str "{"; field_of := None |} :: items_of ts
  | Close :: ts => {| literal := str "}"; field_of := None |} :: items_of ts
  | Hole k :: ts =>
      {| literal := []; field_of := Some (plain_field k) |} :: items_of ts
  | Group body :: ts =>
      {| literal := [];
         field_of := Some (default (plain_field []) (group_field body)) |}
      :: items_of ts
  end.

(** The output of [partial_format] as a token list: a supplied
    placeholder has become the characters of its value. *)
Definition fill (kwargs : gmap text text) (toks : list token)
  : list token :=
  flat_map (λ t, match t with
                 | Hole k =>
                     match kwargs !! k with
                     | Some v => Lit <$> v
                     | None => [Hole k]
                     end
                 | _ => [t]
                 end) toks.


(** *** Templates for the examples *)

Definition bob_kwargs : gmap text text := {[ str "user" := str "bob" ]}.

(** [Hi {user}, send {'intent': 1} or {{x}} in {lang}] *)
Definition greeting : list token :=
  lits "Hi " ++ [Hole (str "user")] ++ lits ", send "
  ++ [Group (str "'intent': 1")] ++ lits " or " ++ [Open]
  ++ lits "x" ++ [Close] ++ lits " in " ++ [Hole (str "lang")].

End Prompts.

(** ** Observations on the runs of the handlers *)

Module Runs.
Import Py Eff Slack.

(** The function behind an event of a trace. *)
Definition step_name (ev : event) : string :=
  match ev with
  | Called c =>
      match c with
      | ack => "ack"
      | say_text _ _ _ | say_blocks _ _ _ | say_positional _ _ _ => "say"
      | reactions_add _ _ _ _ => "reactions_add"
      | conversations_replies _ _ _ _ _ => "conversations_replies"
      | get_initial_message _ _ _ => "get_initial_message"
      | get_init_block _ => "get_init_block"
      | get_adcopy_blocks => "get_adcopy_blocks"
      | MrkdwnFormatter _ => "MrkdwnFormatter"
      | intro_message_format _ => "INTRO_MESSAGE.format"
      | format_response _ _ => "format_response"
      | get_chat_history _ _ => "get_chat_history"
      | query _ _ _ _ => "query"
      | create_question_answer _ _ _ _ => "create_question_answer"
      | generate_ads _ _ _ => "generate_ads"
      | create_feedback _ _ _ => "create_feedback"
      | load_index_from_storage _ => "load_index_from_storage"
      | VectorStoreIndex _ _ _ _ => "VectorStoreIndex"
      | persist _ _ => "persist"
      end
  | LogInfo _ _ => "logger.info"
  | LogError _ _ => "logger.error"
  end.

(** The steps inside the [try] of [docsbot_handler], in the order of
    lines 109-157; the intro (lines 113-119) is there or not. *)
Definition intro_steps : list string :=
  [ "INTRO_MESSAGE.format"; "MrkdwnFormatter"; "say" ].

Definition answer_steps : list string :=
  [ "query"; "format_response"; "MrkdwnFormatter"; "say";
    "reactions_add"; "reactions_add"; "create_question_answer" ].

Definition guarded_steps (intro : bool) : list string :=
  "get_chat_history" :: (if intro then intro_steps else []) ++ answer_steps.

(** [names] is [order] in full, or a part of [order] from its start
    followed by the error log and nothing else. *)
Fixpoint in_order (order names : list string) : bool :=
  match names with
  | [] => match order with [] => true | _ :: _ => false end
  | n :: ns =>
      (String.eqb n "logger.error" && match ns with [] => true | _ => false end)
      || match order with
         | o :: os => String.eqb n o && in_order os ns
         | [] => false
         end
  end.

(** The records persisted in a trace. *)
Definition persisted (tr : trace) : list (value * value) :=
  omap (λ ev, match ev with
              | Called (create_question_answer tid qid _ _) => Some (tid, qid)
              | _ => None
              end) tr.

(** A later contact: the originating message is resolved to [m], the
    history fetched for its thread is not empty ([h] is truthy), and the
    steps up to the second reaction return normally. *)
Definition answered (config : Config) (w : world)
    (body : gmap string value) (message : value)
    (channel m : gmap string value) (h : value)
    (response response' : string) (api : APIResponse)
    (sent : SlackResponse) : Prop :=
  let token := SLACK_BOT_TOKEN config in
  let channel_id := dict_get channel "id" VNone in
  let sent_ts := resp_get sent "ts" in
  resolves config w body message channel m
  ∧ answers w (get_chat_history (APPLICATION config) (thread_id m)) (inr h)
  ∧ truthy h = true
  ∧ answers w
      (query (dict_get m "text" VNone) h (bot_language config)
         (APPLICATION config))
      (inr api)
  ∧ answers w (format_response api (OUTRO_MESSAGE config)) (inr response)
  ∧ answers w (MrkdwnFormatter response) (inr response')
  ∧ answers w (say_text response' (thread_kw (thread_id m)) token)
      (inr sent)
  ∧ answers w (reactions_add channel_id sent_ts "thumbsup" token) (inr tt)
  ∧ answers w (reactions_add channel_id sent_ts "thumbsdown" token)
      (inr tt).

(** The events of the guarded steps of a later contact, up to the
    second reaction. *)
Definition answered_events (config : Config)
    (channel m : gmap string value) (h : value)
    (response response' : string) (api : APIResponse)
    (sent : SlackResponse) : trace :=
  let token := SLACK_BOT_TOKEN config in
  let channel_id := dict_get channel "id" VNone in
  let sent_ts := resp_get sent "ts" in
  [ Called (get_chat_history (APPLICATION config) (thread_id m));
    Called (query (dict_get m "text" VNone) h (bot_language config)
              (APPLICATION config));
    Called (format_response api (OUTRO_MESSAGE config));
    Called (MrkdwnFormatter response);
    Called (say_text response' (thread_kw (thread_id m)) token);
    Called (reactions_add channel_id sent_ts "thumbsup" token);
    Called (reactions_add channel_id sent_ts "thumbsdown" token) ].

(** The keyword arguments of [create_question_answer] (lines 152-157)
    name [k] twice. *)
Definition collides (fields : gmap string value) : Prop :=
  is_Some (fields !! "thread_id")
  ∨ is_Some (fields !! "question_answer_id")
  ∨ is_Some (fields !! "language").

(** The four ad-copy buttons (lines 223-252), each with the action and
    the persona it asks for. *)
Definition adcopy_buttons (config : Config)
  : list ((gmap string value → prog unit) * (string * string)) :=
  [ (executive_awareness_handler config, ("awareness", "executive"));
    (executive_signups_handler config, ("signups", "executive"));
    (technical_awareness_handler config, ("awareness", "technical"));
    (technical_signups_handler config, ("signups", "technical")) ]%string.

(** The handlers of actions, which all start with [await ack()]. *)
Definition action_handlers (config : Config)
  : list (gmap string value → prog unit) :=
  docsbot_handler config :: adcopy_handler config
  :: (fst <$> adcopy_buttons config).

(** *** Concrete runs, for examples *)

(** An API answer that carries a [thread_id] of its own. *)
Definition echo_fields : gmap string value :=
  <[ "thread_id" := VStr "T0" ]> answer_fields.

Definition echo_api : APIResponse := {| model_dump := echo_fields |}.

(** The world [busy_world], with that answer. *)
Definition echo_world : world :=
  λ X tr c,
    match c in call X return result X with
    | query _ _ _ _ => inr echo_api
    | c' => busy_world _ tr c'
    end.

Definition busy_history : value :=
  VList [VList [VStr "question"; VStr "answer"]].

(** A mention inside a thread. *)
Definition demo_mention : gmap string value :=
  {[ "user" := VStr "U2"; "ts" := VStr "T5"; "thread_ts" := VStr "T1" ]}.

(** A reaction event that names no reaction. *)
Definition bare_reaction : gmap string value :=
  {[ "item" := VDict {[ "channel" := VStr "C1"; "ts" := VStr "T3" ]};
     "event_ts" := VStr "E1" ]}.

(** A world in which nothing can be built or stored. *)
Definition failing_store : world :=
  λ X tr c,
    match c in call X return result X with
    | VectorStoreIndex _ _ _ _ => inl (Failure "EmbeddingError")
    | c' => flaky_world _ tr c'
    end.

(** A world in which the built index cannot be written. *)
Definition read_only_store : world :=
  λ X tr c,
    match c in call X return result X with
    | persist _ _ => inl (Failure "PermissionError")
    | c' => flaky_world _ tr c'
    end.

(** A message that carries no timestamp at all. *)
Definition untimed_message : gmap string value :=
  {[ "text" := VStr "How do I log a metric?"; "user" := VStr "U2" ]}.

Definition untimed_world : world :=
  scripted (VDict untimed_message) (VList []) ∅.

(** A world in which the acknowledgement fails. *)
Definition unacknowledged : world :=
  λ X tr c,
    match c in call X return result X with
    | ack => inl (Failure "SlackApiError")
    | c' => demo_world _ tr c'
    end.

(** A world in which the originating message is not found: the lookup
    answers [None]. *)
Definition lost_world : world := scripted VNone (VList []) ∅.

End Runs.

(** ** [src/wandbot/chat/prompts.py]: loading a chat prompt *)

Module ChatPrompt.
Import Py Prompts.

(** [llama_index.llms.MessageRole], as far as [ROLE_MAP] names it. *)
Inductive MessageRole : Type := SYSTEM | USER | ASSISTANT.

(** [ROLE_MAP], lines 46-50. *)
Definition ROLE_MAP : gmap string MessageRole :=
  {[ "system" := SYSTEM; "human" := USER; "assistant" := ASSISTANT ]}.

(** [ROLE_MAP[k]]. *)
Definition role_of (k : string) : result MessageRole :=
  match ROLE_MAP !! k with
  | Some r => inr r
  | None => inl (KeyError k)
  end.

(** What lies outside the file: the JSON file behind a path
    ([json.load(f_name.open("r"))]: a missing file and a text that is
    no JSON are exceptions; the loaded numbers are taken to be
    integers), the two constructors of the index library, and the orders
    in which Python iterates over a set and over the entries of a
    dict. *)
Record Outside : Type := {
  message : Type;
  prompt : Type;
  json_load : string → result value;
  ChatMessage : MessageRole → value → result message;
  ChatPromptTemplate : list message → result prompt;
  set_iter : list text → list text;
  dict_items : gmap string value → list (string * value)
}.

(** The outcome of a call: a returned object, a raised exception, or
    [Beyond] where [partial_format] leaves the modelled part of the
    format mini-language. *)
Inductive answer (A : Type) : Type :=
  | Value (a : A)
  | Error (e : exn)
  | Beyond.

Arguments Value {A} a.
Arguments Error {A} e.
Arguments Beyond {A}.

#[export] Instance answer_ret : MRet answer := λ A a, Value a.

#[export] Instance answer_bind : MBind answer :=
  λ A B f x,
    match x with
    | Value a => f a
    | Error e => Error e
    | Beyond => Beyond
    end.

Definition of_result {A : Type} (r : result A) : answer A :=
  match r with
  | inl e => Error e
  | inr a => Value a
  end.

Definition of_outcome (o : outcome) : answer text :=
  match o with
  | Returned s => Value s
  | Raised e => Error e
  | Unmodelled => Beyond
  end.

(** A loop with a body that may raise: the first exception ends it. *)
Fixpoint for_each {A B : Type} (f : A → answer B) (l : list A)
  : answer (list B) :=
  match l with
  | [] => Value []
  | x :: l' =>
      y ← f x;
      ys ← for_each f l';
      mret (y :: ys)
  end.

(** [pathlib.Path(f_name)]; the default of [f_name] is [None]. *)
Definition Path (f_name : option string) : result string :=
  match f_name with
  | Some p => inr p
  | None =>
      inl (TypeError
             "expected str, bytes or os.PathLike object, not NoneType")
  end.

(** [v[-1]]. *)
Definition last_item (v : value) : result value :=
  match v with
  | VList l =>
      match last l with
      | Some x => inr x
      | None => inl IndexError
      end
  | VStr s =>
      match last (list_ascii_of_string s) with
      | Some c => inr (VStr (String c EmptyString))
      | None => inl IndexError
      end
  | VDict _ => inl (KeyError "-1")
  | _ => inl (TypeError "object is not subscriptable")
  end.

(** The objects that [for ... in v[:-1]] goes through.  In
    [load_chat_prompt] the slice is reached only after [v[-1]["human"]]
    has returned, which it does on a list only. *)
Definition but_last (v : value) : result (list value) :=
  match v with
  | VList l => inr (removelast l)
  | VStr s =>
      inr ((λ c, VStr (String c EmptyString))
             <$> removelast (list_ascii_of_string s))
  | VDict _ => inl (TypeError "unhashable type: 'slice'")
  | _ => inl (TypeError "object is not subscriptable")
  end.

(** [type(v).__name__]. *)
Definition type_name (v : value) : string :=
  match v with
  | VNone => "NoneType"
  | VBool _ => "bool"
  | VInt _ => "int"
  | VStr _ => "str"
  | VList _ => "list"
  | VDict _ => "dict"
  end.

Section LoadChatPrompt.
Variable outside : Outside.

(** [message.items()]. *)
Definition items (v : value) : result (list (string * value)) :=
  match v with
  | VDict d => inr (dict_items outside d)
  | _ => inl (AttributeError "items")
  end.

(** [partial_format(s, language_code=..., query_intent=...)] on an
    object read from the file: [Formatter().parse] takes a [str]
    only. *)
Definition format_human (s : value) (language_code query_intent : text)
  : answer text :=
  match s with
  | VStr s =>
      of_outcome
        (partial_format (set_iter outside) (str s)
           (<[ str "language_code" := language_code ]>
              {[ str "query_intent" := query_intent ]}))
  | v => Error (TypeError ("expected str, got " ++ type_name v))
  end.

(** The inner loop of lines 84-85: one chat message for each entry of
    [message]. *)
Definition chat_messages (m : value) : answer (list (message outside)) :=
  entries ← of_result (items m);
  for_each
    (λ '(k, v),
       role ← of_result (role_of k);
       of_result (ChatMessage outside role v))
    entries.

(** [load_chat_prompt], lines 53-88. *)
Definition load_chat_prompt (f_name : option string)
    (language_code query_intent : text) : answer (prompt outside) :=
  f_name ← of_result (Path f_name);
  template ← of_result (json_load outside f_name);
  messages ← of_result (getitem template "messages");
  last ← of_result (last_item messages);
  human ← of_result (getitem last "human");
  human_template ← format_human human language_code query_intent;
  messages ← of_result (getitem template "messages");
  earlier ← of_result (but_last messages);
  chat ← for_each chat_messages earlier;
  user ←
    of_result
      (ChatMessage outside USER
         (VStr (string_of_list_ascii human_template)));
  of_result (ChatPromptTemplate outside (List.concat chat ++ [user])).

End LoadChatPrompt.

(** Python iterates over the entries of a dict in some order, each
    entry once. *)
Definition enumerates_entries
    (dict_items : gmap string value → list (string * value)) : Prop :=
  ∀ d, dict_items d ≡ₚ map_to_list d.

(** The keyword arguments that [load_chat_prompt] gives to
    [partial_format]. *)
Definition prompt_kwargs (language_code query_intent : text)
  : gmap text text :=
  <[ str "language_code" := language_code ]>
    {[ str "query_intent" := query_intent ]}.

(** A list of chat messages as it stands in the file: one object with
    one entry for each. *)
Definition single (entry : string * value) : value :=
  VDict {[ entry.1 := entry.2 ]}.

(** The role of an entry with a known key. *)
Definition role (k : string) : MessageRole := default USER (ROLE_MAP !! k).

(** *** A prompt file, for the examples *)

(** [Answer in {language_code}. Intent: {query_intent}. Question:
    {query_str}] *)
Definition demo_human : list token :=
  lits "Answer in " ++ [Hole (str "language_code")] ++ lits ". Intent: "
  ++ [Hole (str "query_intent")] ++ lits ". Question: "
  ++ [Hole (str "query_str")].

Definition demo_template : gmap string value :=
  {[ "messages" :=
       VList [ VDict {[ "system" := VStr "You answer from {context_str}." ]};
               VDict {[ "human" := VStr "Hello" ]};
               VDict {[ "assistant" := VStr "Hi." ]};
               VDict {[ "human" :=
                          VStr (string_of_list_ascii (render demo_human));
                        "note" := VStr "not read" ]} ] ]}.

(** The same file with the role [user] where [human] is expected. *)
Definition wrong_role_template : gmap string value :=
  {[ "messages" :=
       VList [ VDict {[ "system" := VStr "You answer." ]};
               VDict {[ "user" := VStr "Hello" ]};
               VDict {[ "human" := VStr "{query_str}" ]} ] ]}.

(** An outside in which ["prompt.json"] holds [demo_template],
    ["wrong.json"] holds [wrong_role_template], ["empty.json"] holds an
    empty list of messages and no other file exists; a chat message and
    a prompt are what their constructors are given. *)
Definition demo_outside : Outside :=
  {| message := MessageRole * value;
     prompt := list (MessageRole * value);
     json_load :=
       λ p, if String.eqb p "prompt.json" then inr (VDict demo_template)
            else if String.eqb p "wrong.json"
            then inr (VDict wrong_role_template)
            else if String.eqb p "empty.json"
            then inr (VDict {[ "messages" := VList [] ]})
            else inl (Failure "FileNotFoundError");
     ChatMessage := λ r c, inr (r, c);
     ChatPromptTemplate := λ l, inr l;
     set_iter := last_seen;
     dict_items := map_to_list |}.

End ChatPrompt.

(* ===================================================================== *)
(** * Part II: lemmas and theorems                                        *)
(* ===================================================================== *)

(** ** Running programs *)

Module EffFacts.
Import Py Eff.

Lemma run_ret {A} (w : world) (a : A) tr : run w (mret a) tr = (tr, inr a).
Proof. reflexivity. Qed.

Lemma run_bind {A B} (w : world) (p : prog A) (f : A → prog B) tr :
  run w (p ≫= f) tr =
  match run w p tr with
  | (tr', inr a) => run w (f a) tr'
  | (tr', inl e) => (tr', inl e)
  end.
Proof.
  unfold mbind, prog_bind.
  revert tr; induction p as [a|e|X c k IH|ev k IH]; intros tr; simpl; auto.
Qed.

Lemma run_try {A} (w : world) (p : prog A) (h : exn → prog A) tr :
  run w (try_except p h) tr =
  match run w p tr with
  | (tr', inr a) => (tr', inr a)
  | (tr', inl e) => run w (h e) tr'
  end.
Proof.
  revert tr; induction p as [a|e|X c k IH|ev k IH]; intros tr; simpl; auto.
Qed.

Lemma run_await {X} (w : world) (c : call X) tr :
  run w (await c) tr = (tr ++ [Called c], w X tr c).
Proof. unfold await; simpl. destruct (w X tr c); reflexivity. Qed.

Lemma run_lift {A} (w : world) (r : result A) tr :
  run w (lift r) tr = (tr, r).
Proof. destruct r; reflexivity. Qed.

Lemma run_log_info (w : world) msg v tr :
  run w (log_info msg v) tr = (tr ++ [LogInfo msg v], inr tt).
Proof. reflexivity. Qed.

Lemma run_log_error (w : world) msg e tr :
  run w (log_error msg e) tr = (tr ++ [LogError msg e], inr tt).
Proof. reflexivity. Qed.

(** A run only ever extends the trace it starts from. *)
Lemma run_extends {A} (w : world) (p : prog A) tr :
  ∃ more, (run w p tr).1 = tr ++ more.
Proof.
  revert tr; induction p as [a|e|X c k IH|ev k IH]; intros tr; simpl.
  - exists []. by rewrite app_nil_r.
  - exists []. by rewrite app_nil_r.
  - destruct (IH (w X tr c) (tr ++ [Called c])) as [m Hm].
    exists (Called c :: m). rewrite Hm. by rewrite <- app_assoc.
  - destruct (IH (tr ++ [ev])) as [m Hm].
    exists (ev :: m). rewrite Hm. by rewrite <- app_assoc.
Qed.

End EffFacts.

(** ** The Slack handlers *)

Module SlackFacts.
Import Py Eff Slack EffFacts.

(** C5.  [parse_reaction] is total on strings: 1 for exactly ["+1"], -1
    for exactly ["-1"], 0 for every other string (the empty string, an
    emoji name, ["+1 "] with a trailing space among them); the result is
    always one of -1, 0, 1.  Totality is the fact that the definition is
    a Rocq function: it has a value, and raises nothing, at every
    string. *)
Theorem parse_reaction_total :
  (∀ s : string,
     parse_reaction (VStr s) =
       if decide (s = "+1") then 1
       else if decide (s = "-1") then -1 else 0)
  ∧ (∀ s : string,
       parse_reaction (VStr s) = -1 ∨ parse_reaction (VStr s) = 0
       ∨ parse_reaction (VStr s) = 1)
  ∧ parse_reaction (VStr "+1") = 1
  ∧ parse_reaction (VStr "-1") = -1
  ∧ parse_reaction (VStr EmptyString) = 0
  ∧ parse_reaction (VStr "+1 ") = 0
  ∧ parse_reaction (VStr "thumbsup") = 0
  ∧ parse_reaction (VStr "👍") = 0.
Proof.
  assert (Hspec : ∀ s : string,
     parse_reaction (VStr s) =
       if decide (s = "+1") then 1
       else if decide (s = "-1") then -1 else 0).
  { intros s. unfold parse_reaction, eq_str.
    destruct (String.eqb_spec s "+1") as [->|H1]; [done|].
    destruct (String.eqb_spec s "-1") as [->|H2]; [done|].
    rewrite decide_False by done. by rewrite decide_False. }
  split; [exact Hspec|]. split; [|repeat split; reflexivity].
  intros s. rewrite Hspec.
  repeat case_decide; auto.
Qed.

(** Stepping through a run: split binds, perform calls, use what is
    known of the world. *)
Ltac run_with tac :=
  repeat first
    [ rewrite run_bind | rewrite run_await | rewrite run_lift
    | rewrite run_log_info | rewrite run_log_error | rewrite run_ret
    | rewrite run_try | progress tac | progress simpl ].

Section ThreadId.
Variable config : Config.

Lemma thread_id_of_dict (m : gmap string value) :
  thread_id_of (VDict m) =
  Ret (py_or (dict_get m "thread_ts" VNone) (dict_get m "ts" VNone)).
Proof.
  unfold thread_id_of, py_or; simpl.
  destruct (truthy (dict_get m "thread_ts" VNone)); reflexivity.
Qed.

Lemma run_resolve_initial_message w body message channel m tr :
  resolves config w body message channel m →
  run w (resolve_initial_message config body) tr =
  (tr ++ [ LogInfo "Received message: " (VDict body);
           Called (get_initial_message message
                     (dict_get channel "id" VNone)
                     (SLACK_BOT_TOKEN config));
           LogInfo "Initial message: " (VDict m) ],
   inr (VDict m)).
Proof.
  intros (Hack & Hmsg & Hch & Hinit).
  unfold resolve_initial_message, dict_getitem.
  run_with ltac:(rewrite ?Hmsg, ?Hch, ?Hinit).
  by rewrite <- !app_assoc.
Qed.

(** [docsbot_handler] fetches the chat history for the resolved
    thread id as soon as the originating message is known. *)
Lemma docsbot_history_fetch w body message channel m :
  resolves config w body message channel m →
  [ Called ack;
    LogInfo "Received message: " (VDict body);
    Called (get_initial_message message (dict_get channel "id" VNone)
              (SLACK_BOT_TOKEN config));
    LogInfo "Initial message: " (VDict m);
    Called (get_chat_history (APPLICATION config)
              (py_or (dict_get m "thread_ts" VNone)
                 (dict_get m "ts" VNone))) ]
  `prefix_of` (exec w (docsbot_handler config body)).1.
Proof.
  intros Hres. pose proof Hres as (Hack & _).
  unfold exec, docsbot_handler.
  rewrite run_bind, run_await, Hack. cbv beta iota.
  rewrite run_bind, (run_resolve_initial_message _ _ _ _ _ _ Hres).
  cbv beta iota. rewrite run_try.
  unfold docsbot_steps. rewrite thread_id_of_dict. simpl.
  match goal with
  | |- context [run w ?p ?tr] =>
      destruct (run_extends w p tr) as [more Hmore];
      destruct (run w p tr) as [tr' [e|[]]]; simpl in *; subst tr'
  end.
  - exists (more ++ [LogError "Error posting message: " e]).
    reflexivity.
  - exists more. reflexivity.
Qed.

(** [adcopy_handler] sends the ad-copy menu threaded to the resolved
    thread id. *)
Lemma adcopy_handler_trace w body message channel m blocks :
  resolves config w body message channel m →
  answers w get_adcopy_blocks (inr blocks) →
  (exec w (adcopy_handler config body)).1 =
  [ Called ack;
    LogInfo "Received message: " (VDict body);
    Called (get_initial_message message (dict_get channel "id" VNone)
              (SLACK_BOT_TOKEN config));
    LogInfo "Initial message: " (VDict m);
    Called get_adcopy_blocks;
    Called (say_blocks blocks
              (py_or (dict_get m "thread_ts" VNone)
                 (dict_get m "ts" VNone))
              (SLACK_BOT_TOKEN config)) ].
Proof.
  intros Hres Hblocks. pose proof Hres as (Hack & _).
  unfold exec, adcopy_handler.
  rewrite run_bind, run_await, Hack. cbv beta iota.
  rewrite run_bind, (run_resolve_initial_message _ _ _ _ _ _ Hres).
  cbv beta iota. rewrite thread_id_of_dict.
  run_with ltac:(rewrite ?Hblocks).
  match goal with |- context [w _ ?tr ?c] => destruct (w _ tr c) end;
    reflexivity.
Qed.

(** [handle_adcopy_action] sends the generated copy threaded to the
    resolved thread id. *)
Lemma handle_adcopy_action_trace w body message channel m
    action persona resp copies :
  resolves config w body message channel m →
  answers w
    (generate_ads (dict_get m "text" VNone) (VStr action) (VStr persona))
    (inr resp) →
  ad_copies resp = inr copies →
  (exec w (handle_adcopy_action config body action persona)).1 =
  [ LogInfo "Received message: " (VDict body);
    Called (get_initial_message message (dict_get channel "id" VNone)
              (SLACK_BOT_TOKEN config));
    LogInfo "Initial message: " (VDict m);
    Called (generate_ads (dict_get m "text" VNone) (VStr action)
              (VStr persona));
    Called (say_positional copies
              (py_or (dict_get m "thread_ts" VNone)
                 (dict_get m "ts" VNone))
              (SLACK_BOT_TOKEN config)) ].
Proof.
  intros Hres Hads Hcopies.
  unfold exec, handle_adcopy_action.
  rewrite run_bind, (run_resolve_initial_message _ _ _ _ _ _ Hres).
  cbv beta iota. rewrite thread_id_of_dict.
  run_with ltac:(rewrite ?Hads, ?Hcopies).
  match goal with |- context [w _ ?tr ?c] => destruct (w _ tr c) end;
    reflexivity.
Qed.

End ThreadId.

(** C6.  Thread id resolution.  When the originating message carries a
    [thread_ts] (a timestamp, hence a truthy value) that value is the
    conversation thread id; when it carries only [ts], that value is.
    The resolved id is what [docsbot_handler] fetches the chat history
    for and what [handle_adcopy_action] threads its reply to. *)
Theorem thread_id_resolution (config : Config) (w : world)
    (body : gmap string value) (message : value)
    (channel m : gmap string value) (action persona : string)
    (resp : APIResponse) (copies tid : value) :
  resolves config w body message channel m →
  answers w
    (generate_ads (dict_get m "text" VNone) (VStr action) (VStr persona))
    (inr resp) →
  ad_copies resp = inr copies →
  (m !! "thread_ts" = Some tid ∧ truthy tid = true)
  ∨ (m !! "thread_ts" = None ∧ m !! "ts" = Some tid) →
  thread_id_of (VDict m) = Ret tid
  ∧ [ Called ack;
      LogInfo "Received message: " (VDict body);
      Called (get_initial_message message (dict_get channel "id" VNone)
                (SLACK_BOT_TOKEN config));
      LogInfo "Initial message: " (VDict m);
      Called (get_chat_history (APPLICATION config) tid) ]
    `prefix_of` (exec w (docsbot_handler config body)).1
  ∧ (exec w (handle_adcopy_action config body action persona)).1 =
    [ LogInfo "Received message: " (VDict body);
      Called (get_initial_message message (dict_get channel "id" VNone)
                (SLACK_BOT_TOKEN config));
      LogInfo "Initial message: " (VDict m);
      Called (generate_ads (dict_get m "text" VNone) (VStr action)
                (VStr persona));
      Called (say_positional copies tid (SLACK_BOT_TOKEN config)) ].
Proof.
  intros Hres Hads Hcopies Hcase.
  assert (Htid : py_or (dict_get m "thread_ts" VNone)
                   (dict_get m "ts" VNone) = tid).
  { unfold py_or, dict_get.
    destruct Hcase as [[-> Ht]|[-> ->]]; simpl; [by rewrite Ht|done]. }
  split; [by rewrite thread_id_of_dict, Htid|].
  split.
  - rewrite <- Htid. by eapply docsbot_history_fetch.
  - rewrite <- Htid. by eapply handle_adcopy_action_trace.
Qed.

Lemma thread_id_resolution_witness :
  demo_message !! "thread_ts" = None
  ∧ demo_message !! "ts" = Some (VStr "T2")
  ∧ thread_id_of (VDict demo_message) = Ret (VStr "T2")
  ∧ (exec demo_world (handle_adcopy_action en_config demo_body "signups"
                        "technical")).1 =
    [ LogInfo "Received message: " (VDict demo_body);
      Called (get_initial_message (VDict {[ "ts" := VStr "T9" ]})
                (VStr "C1") "xoxb-1");
      LogInfo "Initial message: " (VDict demo_message);
      Called (generate_ads (VStr "How do I log a metric?")
                (VStr "signups") (VStr "technical"));
      Called (say_positional (VStr "copy") (VStr "T2") "xoxb-1") ].
Proof.
  assert (H1 : demo_message !! "thread_ts" = None) by reflexivity.
  assert (H2 : demo_message !! "ts" = Some (VStr "T2")) by reflexivity.
  split; [exact H1|]. split; [exact H2|].
  pose proof (thread_id_resolution en_config demo_world demo_body
                (VDict {[ "ts" := VStr "T9" ]}) {[ "id" := VStr "C1" ]}
                demo_message "signups" "technical"
                {| model_dump := answer_fields |} (VStr "copy")
                (VStr "T2")) as H.
  destruct H as (Ha & _ & Hc).
  - repeat split; try reflexivity; intros tr; reflexivity.
  - intros tr; reflexivity.
  - reflexivity.
  - right. split; assumption.
  - split; [exact Ha|exact Hc].
Defined.

(** C10.  A [thread_ts] that is present but falsy (the empty string,
    [None], ...) counts as absent: the thread id is then the message's
    [ts], in [docsbot_handler], [adcopy_handler] and
    [handle_adcopy_action] alike, because the resolution is
    [thread_ts or ts] and not a test of key presence. *)
Theorem falsy_thread_ts_is_absent (config : Config) (w : world)
    (body : gmap string value) (message : value)
    (channel m : gmap string value) (action persona : string)
    (resp : APIResponse) (copies blocks v : value) :
  resolves config w body message channel m →
  answers w
    (generate_ads (dict_get m "text" VNone) (VStr action) (VStr persona))
    (inr resp) →
  ad_copies resp = inr copies →
  answers w get_adcopy_blocks (inr blocks) →
  m !! "thread_ts" = Some v →
  truthy v = false →
  thread_id_of (VDict m) = Ret (dict_get m "ts" VNone)
  ∧ thread_id_of (VDict m) = thread_id_of (VDict (delete "thread_ts" m))
  ∧ [ Called ack;
      LogInfo "Received message: " (VDict body);
      Called (get_initial_message message (dict_get channel "id" VNone)
                (SLACK_BOT_TOKEN config));
      LogInfo "Initial message: " (VDict m);
      Called (get_chat_history (APPLICATION config)
                (dict_get m "ts" VNone)) ]
    `prefix_of` (exec w (docsbot_handler config body)).1
  ∧ (exec w (adcopy_handler config body)).1 =
    [ Called ack;
      LogInfo "Received message: " (VDict body);
      Called (get_initial_message message (dict_get channel "id" VNone)
                (SLACK_BOT_TOKEN config));
      LogInfo "Initial message: " (VDict m);
      Called get_adcopy_blocks;
      Called (say_blocks blocks (dict_get m "ts" VNone)
                (SLACK_BOT_TOKEN config)) ]
  ∧ (exec w (handle_adcopy_action config body action persona)).1 =
    [ LogInfo "Received message: " (VDict body);
      Called (get_initial_message message (dict_get channel "id" VNone)
                (SLACK_BOT_TOKEN config));
      LogInfo "Initial message: " (VDict m);
      Called (generate_ads (dict_get m "text" VNone) (VStr action)
                (VStr persona));
      Called (say_positional copies (dict_get m "ts" VNone)
                (SLACK_BOT_TOKEN config)) ].
Proof.
  intros Hres Hads Hcopies Hblocks Hv Hfalsy.
  assert (Htid : py_or (dict_get m "thread_ts" VNone)
                   (dict_get m "ts" VNone) = dict_get m "ts" VNone).
  { unfold py_or. unfold dict_get at 1. rewrite Hv; simpl.
    by rewrite Hfalsy. }
  split; [by rewrite thread_id_of_dict, Htid|].
  split.
  { rewrite !thread_id_of_dict, Htid. f_equal.
    unfold py_or, dict_get. rewrite lookup_delete_eq; simpl.
    by rewrite lookup_delete_ne. }
  rewrite <- Htid.
  split; [by eapply docsbot_history_fetch|].
  split; [by eapply adcopy_handler_trace|].
  by eapply handle_adcopy_action_trace.
Qed.

Lemma falsy_thread_ts_is_absent_witness :
  falsy_message !! "thread_ts" = Some (VStr EmptyString)
  ∧ truthy (VStr EmptyString) = false
  ∧ thread_id_of (VDict falsy_message) = Ret (VStr "T2")
  ∧ (exec falsy_world (adcopy_handler en_config demo_body)).1 =
    [ Called ack;
      LogInfo "Received message: " (VDict demo_body);
      Called (get_initial_message (VDict {[ "ts" := VStr "T9" ]})
                (VStr "C1") "xoxb-1");
      LogInfo "Initial message: " (VDict falsy_message);
      Called get_adcopy_blocks;
      Called (say_blocks (VList []) (VStr "T2") "xoxb-1") ].
Proof.
  assert (H1 : falsy_message !! "thread_ts" = Some (VStr EmptyString))
    by reflexivity.
  assert (H2 : truthy (VStr EmptyString) = false) by reflexivity.
  split; [exact H1|]. split; [exact H2|].
  pose proof (falsy_thread_ts_is_absent en_config falsy_world demo_body
                (VDict {[ "ts" := VStr "T9" ]}) {[ "id" := VStr "C1" ]}
                falsy_message "signups" "technical"
                {| model_dump := answer_fields |} (VStr "copy")
                (VList []) (VStr EmptyString)) as H.
  destruct H as (Ha & _ & _ & Hb & _).
  - repeat split; try reflexivity; intros tr; reflexivity.
  - intros tr; reflexivity.
  - reflexivity.
  - intros tr; reflexivity.
  - exact H1.
  - exact H2.
  - split; [exact Ha|exact Hb].
Defined.

(** *** The guard of the primary action *)

Section Guard.
Variable config : Config.

(** Once the originating message is resolved, the handler is its
    guarded steps: their exception, if any, is logged and dropped. *)
Lemma docsbot_handler_run w body message channel m :
  resolves config w body message channel m →
  exec w (docsbot_handler config body) =
  match run w (docsbot_steps config body (VDict m))
          (before_guard config body message channel m) with
  | (tr, inr _) => (tr, inr tt)
  | (tr, inl e) => (tr ++ [LogError "Error posting message: " e], inr tt)
  end.
Proof.
  intros Hres. pose proof Hres as (Hack & _).
  unfold exec, docsbot_handler.
  rewrite run_bind, run_await, Hack. cbv beta iota.
  rewrite run_bind, (run_resolve_initial_message _ _ _ _ _ _ _ Hres).
  cbv beta iota. rewrite run_try. simpl app.
  fold (before_guard config body message channel m).
  destruct (run w _ _) as [tr [e|[]]]; reflexivity.
Qed.

End Guard.

(** *** First contact: the primary action on a thread without history *)

Lemma send_message_run config w (text text' : string) thread tr
    (r : result SlackResponse) :
  answers w (MrkdwnFormatter text) (inr text') →
  answers w (say_text text' (thread_kw thread) (SLACK_BOT_TOKEN config)) r →
  run w (send_message config text thread) tr =
  (tr ++ [ Called (MrkdwnFormatter text);
           Called (say_text text' (thread_kw thread)
                     (SLACK_BOT_TOKEN config)) ], r).
Proof.
  intros Hfmt Hsay. unfold send_message.
  rewrite run_bind, run_await, Hfmt. cbv beta iota.
  destruct thread; unfold thread_kw in Hsay; cbv beta iota;
    rewrite run_await, Hsay; by rewrite <- app_assoc.
Qed.

#[local] Opaque send_message.

Lemma first_contact_steps config w body message channel m h
    intro intro' response response' api sent_intro sent tr0 :
  first_contact config w body message channel m h intro intro' response
    response' api sent_intro sent →
  run w (docsbot_steps config body (VDict m)) tr0 =
  (tr0 ++ first_contact_events config channel m h intro intro' response
            response' api sent,
   inr tt).
Proof.
  intros (Hres & Hhistory & Hempty & Hintro & Hintro' & Hsay_intro
          & Hquery & Hformat & Hresponse' & Hsay & Hup & Hdown
          & Hf1 & Hf2 & Hf3 & Hpersist).
  pose proof Hres as (Hack & _ & Hch & _).
  unfold docsbot_steps, channel_id_of.
  rewrite thread_id_of_dict. fold (thread_id m).
  unfold get, dict_getitem. rewrite Hch.
  run_with ltac:(rewrite ?Hhistory, ?Hempty, ?Hintro, ?Hquery, ?Hformat,
                   ?Hup, ?Hdown, ?Hf1, ?Hf2, ?Hf3, ?Hpersist,
                   ?(send_message_run _ _ _ _ _ _ _ Hintro' Hsay_intro),
                   ?(send_message_run _ _ _ _ _ _ _ Hresponse' Hsay)).
  by rewrite <- !app_assoc.
Qed.

#[local] Transparent send_message.

Lemma first_contact_run config w body message channel m h
    intro intro' response response' api sent_intro sent :
  first_contact config w body message channel m h intro intro' response
    response' api sent_intro sent →
  exec w (docsbot_handler config body) =
  (before_guard config body message channel m
   ++ first_contact_events config channel m h intro intro' response
        response' api sent,
   inr tt).
Proof.
  intros Hfc. pose proof Hfc as (Hres & _).
  rewrite (docsbot_handler_run _ _ _ _ _ _ Hres).
  by rewrite (first_contact_steps _ _ _ _ _ _ _ _ _ _ _ _ _ _ _ Hfc).
Qed.

(** C3.  The primary action on a message with text [Q], user [U] and
    timestamp [t2] (no [thread_ts]), in a thread whose fetched history
    is empty and with every step succeeding, performs in this order:
    fetch the history for thread [t2]; send the intro; query the API
    with [Q] and the history; send the formatted answer threaded to
    [t2]; attach the two reactions (thumbs up, thumbs down) to the sent
    answer; persist a question-answer record with [thread_id = t2],
    [question_answer_id] the timestamp of the sent answer, and every
    field of the API response. *)
Theorem primary_action_sequence (config : Config) (w : world)
    (body : gmap string value) (message : value)
    (channel m : gmap string value) (Q U h : value) (t2 : string)
    (intro intro' response response' : string) (api : APIResponse)
    (sent_intro sent : SlackResponse) :
  m !! "text" = Some Q →
  m !! "user" = Some U →
  m !! "ts" = Some (VStr t2) →
  m !! "thread_ts" = None →
  first_contact config w body message channel m h intro intro' response
    response' api sent_intro sent →
  exec w (docsbot_handler config body) =
  ([ Called ack;
     LogInfo "Received message: " (VDict body);
     Called (get_initial_message message (dict_get channel "id" VNone)
               (SLACK_BOT_TOKEN config));
     LogInfo "Initial message: " (VDict m);
     Called (get_chat_history (APPLICATION config) (VStr t2));
     Called (intro_message_format U);
     Called (MrkdwnFormatter intro);
     Called (say_text intro' (Some (VStr t2)) (SLACK_BOT_TOKEN config));
     Called (query Q h (bot_language config) (APPLICATION config));
     Called (format_response api (OUTRO_MESSAGE config));
     Called (MrkdwnFormatter response);
     Called (say_text response' (Some (VStr t2)) (SLACK_BOT_TOKEN config));
     Called (reactions_add (dict_get channel "id" VNone)
               (resp_get sent "ts") "thumbsup" (SLACK_BOT_TOKEN config));
     Called (reactions_add (dict_get channel "id" VNone)
               (resp_get sent "ts") "thumbsdown" (SLACK_BOT_TOKEN config));
     Called (create_question_answer (VStr t2) (resp_get sent "ts")
               (bot_language config) (model_dump api)) ],
   inr tt).
Proof.
  intros Htext Huser Hts Hthread Hfc.
  rewrite (first_contact_run _ _ _ _ _ _ _ _ _ _ _ _ _ _ Hfc).
  unfold before_guard, first_contact_events, thread_id, py_or, dict_get.
  rewrite Htext, Huser, Hts, Hthread. reflexivity.
Qed.

(** *** A thread that already has history *)



Lemma demo_first_contact :
  first_contact en_config demo_world demo_body
    (VDict {[ "ts" := VStr "T9" ]}) {[ "id" := VStr "C1" ]} demo_message
    (VList []) "intro" "intro" "answer" "answer" demo_api sent_s1 sent_s1.
Proof.
  repeat split; try reflexivity; intros tr; reflexivity.
Defined.

Lemma primary_action_sequence_witness :
  exec demo_world (docsbot_handler en_config demo_body) =
  ([ Called ack;
     LogInfo "Received message: " (VDict demo_body);
     Called (get_initial_message (VDict {[ "ts" := VStr "T9" ]})
               (VStr "C1") "xoxb-1");
     LogInfo "Initial message: " (VDict demo_message);
     Called (get_chat_history "Slack_EN" (VStr "T2"));
     Called (intro_message_format (VStr "U2"));
     Called (MrkdwnFormatter "intro");
     Called (say_text "intro" (Some (VStr "T2")) "xoxb-1");
     Called (query (VStr "How do I log a metric?") (VList []) "en"
               "Slack_EN");
     Called (format_response demo_api "outro");
     Called (MrkdwnFormatter "answer");
     Called (say_text "answer" (Some (VStr "T2")) "xoxb-1");
     Called (reactions_add (VStr "C1") (VStr "S1") "thumbsup" "xoxb-1");
     Called (reactions_add (VStr "C1") (VStr "S1") "thumbsdown" "xoxb-1");
     Called (create_question_answer (VStr "T2") (VStr "S1") "en"
               answer_fields) ],
   inr tt).
Proof.
  etrans;
    [ apply (primary_action_sequence en_config demo_world demo_body
               (VDict {[ "ts" := VStr "T9" ]}) {[ "id" := VStr "C1" ]}
               demo_message (VStr "How do I log a metric?") (VStr "U2")
               (VList []) "T2" "intro" "intro" "answer" "answer" demo_api
               sent_s1 sent_s1);
      [reflexivity | reflexivity | reflexivity | reflexivity
      | exact demo_first_contact]
    | reflexivity ].
Defined.



(** *** Failures *)

(** C2, as stated, fails: the reaction handler and the ad-copy action
    have no guard, so the failure of a call comes out of the handler;
    and in the primary action the body lookups ahead of the [try] are
    not covered by it. *)
Lemma unguarded_handlers_propagate :
  (exec flaky_world (handle_reaction_added en_config demo_reaction)).2
    = inl (Failure "SlackApiError")
  ∧ (exec flaky_world
       (handle_adcopy_action en_config demo_body "awareness" "executive")).2
    = inl (Failure "HTTPError")
  ∧ (exec demo_world (docsbot_handler en_config ∅)).2
    = inl (KeyError "message").
Proof. repeat split; reflexivity. Qed.

(** C2, amended.  The primary action has one broad guard around the
    steps that follow the acknowledgement and the lookup of the
    originating message: once these two have succeeded, an exception
    raised by any later step is logged and dropped, and the handler
    returns normally. *)
Theorem docsbot_guard (config : Config) (w : world)
    (body : gmap string value) (message : value)
    (channel m : gmap string value) :
  resolves config w body message channel m →
  (exec w (docsbot_handler config body)).2 = inr tt
  ∧ ∀ tr e,
      run w (docsbot_steps config body (VDict m))
        (before_guard config body message channel m) = (tr, inl e) →
      (exec w (docsbot_handler config body)).1 =
        tr ++ [LogError "Error posting message: " e].
Proof.
  intros Hres. rewrite (docsbot_handler_run _ _ _ _ _ _ Hres).
  destruct (run w _ _) as [tr [e|[]]]; simpl.
  - split; [reflexivity|]. intros tr' e' [= -> ->]. reflexivity.
  - split; [reflexivity|]. intros tr' e' [=].
Qed.

Lemma docsbot_guard_witness :
  exec flaky_world (docsbot_handler en_config demo_body) =
  ([ Called ack;
     LogInfo "Received message: " (VDict demo_body);
     Called (get_initial_message (VDict {[ "ts" := VStr "T9" ]})
               (VStr "C1") "xoxb-1");
     LogInfo "Initial message: " (VDict demo_message);
     Called (get_chat_history "Slack_EN" (VStr "T2"));
     Called (intro_message_format (VStr "U2"));
     Called (MrkdwnFormatter "intro");
     Called (say_text "intro" (Some (VStr "T2")) "xoxb-1");
     Called (query (VStr "How do I log a metric?") (VList []) "en"
               "Slack_EN");
     LogError "Error posting message: " (Failure "HTTPError") ],
   inr tt).
Proof.
  pose proof (docsbot_guard en_config flaky_world demo_body
                (VDict {[ "ts" := VStr "T9" ]}) {[ "id" := VStr "C1" ]}
                demo_message) as H.
  destruct H as [H2 H1].
  - repeat split; try reflexivity; intros tr; reflexivity.
  - apply injective_projections; [|exact H2].
    etrans; [eapply H1; reflexivity | reflexivity].
Defined.

(** *** Reactions *)

(** The rating of a reaction, as a relation: 1 for ["+1"], -1 for
    ["-1"], 0 for anything else. *)
Lemma parse_reaction_policy (reaction : value) (rating : Z) :
  reaction = VStr "+1" ∧ rating = 1
  ∨ reaction = VStr "-1" ∧ rating = -1
  ∨ reaction ≠ VStr "+1" ∧ reaction ≠ VStr "-1" ∧ rating = 0 →
  parse_reaction reaction = rating.
Proof.
  intros [[-> ->]|[[-> ->]|(Hup & Hdown & ->)]]; [reflexivity..|].
  unfold parse_reaction, eq_str.
  destruct reaction as [| | |s| |]; try reflexivity.
  destruct (String.eqb_spec s "+1") as [->|_]; [done|].
  destruct (String.eqb_spec s "-1") as [->|_]; [done|].
  reflexivity.
Qed.

(** C4.  On a reaction-added event for the message with timestamp [M]:
    when the single-message thread lookup shows a thread for [M],
    exactly one feedback record is submitted, with the rating given by
    the fixed policy (1 for the reaction ["+1"], -1 for ["-1"], 0 for
    any other reaction), [question_answer_id = M] and [feedback_id] the
    timestamp of the reaction event itself; when no thread context is
    found (no messages, or a first message without a [thread_ts]) no
    feedback is submitted and the handler returns silently. *)
Theorem reaction_feedback (config : Config) (w : world)
    (event item : gmap string value) (channel_id M : value)
    (conversation : SlackResponse) :
  event !! "item" = Some (VDict item) →
  item !! "channel" = Some channel_id →
  item !! "ts" = Some M →
  answers w
    (conversations_replies channel_id M true 1 (SLACK_BOT_TOKEN config))
    (inr conversation) →
  (∀ first others t reaction E (rating : Z),
     resp_get conversation "messages" = VList (VDict first :: others) →
     first !! "thread_ts" = Some t →
     truthy t = true →
     event !! "reaction" = Some reaction →
     event !! "event_ts" = Some E →
     reaction = VStr "+1" ∧ rating = 1
     ∨ reaction = VStr "-1" ∧ rating = -1
     ∨ reaction ≠ VStr "+1" ∧ reaction ≠ VStr "-1" ∧ rating = 0 →
     (exec w (handle_reaction_added config event)).1 =
       [ Called (conversations_replies channel_id M true 1
                   (SLACK_BOT_TOKEN config));
         Called (create_feedback E M rating) ]
     ∧ feedbacks (exec w (handle_reaction_added config event)).1 =
       [ (E, M, rating) ])
  ∧ (truthy (resp_get conversation "messages") = false
     ∨ (∃ first others,
          resp_get conversation "messages" = VList (VDict first :: others)
          ∧ truthy (dict_get first "thread_ts" VNone) = false) →
     exec w (handle_reaction_added config event) =
       ([ Called (conversations_replies channel_id M true 1
                    (SLACK_BOT_TOKEN config)) ],
        inr tt)).
Proof.
  intros Hitem Hchannel Hts Hconv.
  assert (Hstart :
    run w (handle_reaction_added config event) [] =
    run w (let messages := resp_get conversation "messages" in
           has_messages ← nonempty messages;
           if has_messages : bool then
             first ← lift (first_item messages);
             thread_ts ← lift (get first "thread_ts" VNone);
             if truthy thread_ts then
               reaction ← lift (dict_getitem event "reaction");
               let rating := parse_reaction reaction in
               feedback_id ← lift (dict_getitem event "event_ts");
               await (create_feedback feedback_id M rating)
             else mret tt
           else mret tt)
      [ Called (conversations_replies channel_id M true 1
                  (SLACK_BOT_TOKEN config)) ]).
  { unfold handle_reaction_added, dict_getitem.
    rewrite Hitem. simpl. unfold dict_getitem. rewrite Hchannel, Hts.
    simpl. rewrite Hconv. reflexivity. }
  unfold exec. rewrite Hstart. clear Hstart.
  split.
  - intros first others t reaction E rating
      Hmsgs Hthread Htruthy Hreaction HE Hrating.
    rewrite <- (parse_reaction_policy _ _ Hrating).
    rewrite Hmsgs. unfold nonempty, dict_getitem, get, dict_get. simpl.
    rewrite Hthread. simpl. rewrite Htruthy, Hreaction. simpl.
    rewrite HE. simpl.
    destruct (w _ _ _); split; reflexivity.
  - intros [Hfalsy|(first & others & Hmsgs & Hfalsy)].
    + unfold nonempty. simpl. rewrite Hfalsy. reflexivity.
    + rewrite Hmsgs. unfold nonempty, get. simpl. rewrite Hfalsy.
      reflexivity.
Qed.

Lemma reaction_feedback_witness :
  (exec thread_world (handle_reaction_added en_config demo_reaction)).1 =
    [ Called (conversations_replies (VStr "C1") (VStr "T3") true 1 "xoxb-1");
      Called (create_feedback (VStr "E1") (VStr "T3") 1) ]
  ∧ (exec thread_world
       (handle_reaction_added en_config down_reaction)).1 =
    [ Called (conversations_replies (VStr "C1") (VStr "T3") true 1 "xoxb-1");
      Called (create_feedback (VStr "E1") (VStr "T3") (-1)) ]
  ∧ (exec thread_world
       (handle_reaction_added en_config other_reaction)).1 =
    [ Called (conversations_replies (VStr "C1") (VStr "T3") true 1 "xoxb-1");
      Called (create_feedback (VStr "E1") (VStr "T3") 0) ]
  ∧ exec plain_world (handle_reaction_added en_config demo_reaction) =
    ([ Called (conversations_replies (VStr "C1") (VStr "T3") true 1
                 "xoxb-1") ],
     inr tt).
Proof.
  split; [|split; [|split]].
  - etrans;
      [ eapply (proj1 (reaction_feedback en_config thread_world
                         demo_reaction
                         {[ "channel" := VStr "C1"; "ts" := VStr "T3" ]}
                         (VStr "C1") (VStr "T3")
                         {| data := thread_replies |}
                         eq_refl eq_refl eq_refl (λ tr, eq_refl))
                  {[ "ts" := VStr "T3"; "thread_ts" := VStr "T1" ]} []
                  (VStr "T1") (VStr "+1") (VStr "E1") 1);
        first [ reflexivity | left; split; reflexivity ]
      | reflexivity ].
  - etrans;
      [ eapply (proj1 (reaction_feedback en_config thread_world
                         down_reaction
                         {[ "channel" := VStr "C1"; "ts" := VStr "T3" ]}
                         (VStr "C1") (VStr "T3")
                         {| data := thread_replies |}
                         eq_refl eq_refl eq_refl (λ tr, eq_refl))
                  {[ "ts" := VStr "T3"; "thread_ts" := VStr "T1" ]} []
                  (VStr "T1") (VStr "-1") (VStr "E1") (-1));
        first [ reflexivity | right; left; split; reflexivity ]
      | reflexivity ].
  - etrans;
      [ eapply (proj1 (reaction_feedback en_config thread_world
                         other_reaction
                         {[ "channel" := VStr "C1"; "ts" := VStr "T3" ]}
                         (VStr "C1") (VStr "T3")
                         {| data := thread_replies |}
                         eq_refl eq_refl eq_refl (λ tr, eq_refl))
                  {[ "ts" := VStr "T3"; "thread_ts" := VStr "T1" ]} []
                  (VStr "T1") (VStr "tada") (VStr "E1") 0);
        first [ reflexivity
              | right; right; split; [|split]; [discriminate..|reflexivity] ]
      | reflexivity ].
  - etrans;
      [ eapply (proj2 (reaction_feedback en_config plain_world
                         demo_reaction
                         {[ "channel" := VStr "C1"; "ts" := VStr "T3" ]}
                         (VStr "C1") (VStr "T3")
                         {| data := plain_replies |}
                         eq_refl eq_refl eq_refl (λ tr, eq_refl)));
        right; exists {[ "ts" := VStr "T3" ]}, []; split; reflexivity
      | reflexivity ].
Defined.

End SlackFacts.

(** ** The index loader *)

Module UtilsFacts.
Import Py Eff Utils EffFacts.

(** C8.  [load_index] first tries to load a stored index.  When the load
    succeeds that index is returned and nothing is built or persisted.
    When the load fails, with whatever exception, a new index is built
    from the given nodes, persisted to [persist_dir] and returned. *)
Theorem load_index_contract (w : world) (nodes : list string)
    (service_context storage_context persist_dir : string) :
  (∀ index,
     w _ [] (load_index_from_storage storage_context) = inr index →
     exec w (load_index nodes service_context storage_context persist_dir)
     = ([ Called (load_index_from_storage storage_context) ], inr index))
  ∧ (∀ e index,
       w _ [] (load_index_from_storage storage_context) = inl e →
       w _ [ Called (load_index_from_storage storage_context) ]
         (VectorStoreIndex nodes service_context storage_context true)
       = inr index →
       w _ [ Called (load_index_from_storage storage_context);
             Called (VectorStoreIndex nodes service_context
                       storage_context true) ]
         (persist (storage_context_of index) persist_dir)
       = inr tt →
       exec w (load_index nodes service_context storage_context persist_dir)
       = ([ Called (load_index_from_storage storage_context);
            Called (VectorStoreIndex nodes service_context storage_context
                      true);
            Called (persist (storage_context_of index) persist_dir) ],
          inr index)).
Proof.
  unfold exec, load_index. split.
  - intros index Hload. simpl. rewrite Hload. reflexivity.
  - intros e index Hload Hbuild Hpersist. simpl. rewrite Hload. simpl.
    rewrite Hbuild. simpl. rewrite Hpersist. reflexivity.
Qed.

Lemma load_index_contract_witness :
  exec Slack.demo_world (load_index ["n1"; "n2"] "svc" "store" "/data")
  = ([ Called (load_index_from_storage "store") ],
     inr {| index_id := "loaded"; storage_context_of := "store" |})
  ∧ exec Slack.flaky_world (load_index ["n1"; "n2"] "svc" "store" "/data")
  = ([ Called (load_index_from_storage "store");
       Called (VectorStoreIndex ["n1"; "n2"] "svc" "store" true);
       Called (persist "store" "/data") ],
     inr {| index_id := "built"; storage_context_of := "store" |}).
Proof.
  split.
  - apply (proj1 (load_index_contract Slack.demo_world ["n1"; "n2"] "svc"
                    "store" "/data")).
    reflexivity.
  - apply (proj2 (load_index_contract Slack.flaky_world ["n1"; "n2"] "svc"
                    "store" "/data")
             (ValueError "No index in storage")
             {| index_id := "built"; storage_context_of := "store" |});
      reflexivity.
Defined.

End UtilsFacts.

(** ** The template formatter *)

Module PromptsFacts.
Import Py Prompts.


(** *** Prefixes *)

Lemma starts_with_nil_r p : starts_with p [] = true → p = [].
Proof. by destruct p. Qed.

Lemma starts_with_cons a p b s :
  starts_with (a :: p) (b :: s) = true ↔ a = b ∧ starts_with p s = true.
Proof.
  simpl. rewrite andb_true_iff.
  split; intros [H1 H2]; split; auto.
  - by apply Ascii.eqb_eq.
  - by apply Ascii.eqb_eq.
Qed.

Lemma starts_with_app p s : starts_with p (p ++ s) = true.
Proof. induction p as [|a p IH]; [done|]. apply starts_with_cons; auto. Qed.

Lemma starts_with_spec p s :
  starts_with p s = true ↔ ∃ r, s = p ++ r.
Proof.
  split.
  - revert s; induction p as [|a p IH]; intros s H; [by exists s|].
    destruct s as [|b s]; [done|].
    apply starts_with_cons in H as [-> H].
    destruct (IH _ H) as [r ->]. by exists r.
  - intros [r ->]. apply starts_with_app.
Qed.

Lemma starts_with_weaken p x z :
  starts_with p x = true → starts_with p (x ++ z) = true.
Proof.
  rewrite !starts_with_spec. intros [r ->]. exists (r ++ z).
  by rewrite app_assoc.
Qed.

(** *** [replace] *)

Lemma replace_from_skip old new x s :
  replace_from old new (List.length x) (x ++ s) = replace_from old new 0 s.
Proof.
  induction x as [|c x IH]; simpl; [done|]. exact IH.
Qed.

Lemma replace_from_hit old new s :
  old ≠ [] →
  replace_from old new 0 (old ++ s) = new ++ replace_from old new 0 s.
Proof.
  destruct old as [|a old]; [done|]. intros _.
  change ((a :: old) ++ s) with (a :: (old ++ s)).
  cbn [replace_from].
  change (a :: old ++ s) with ((a :: old) ++ s).
  rewrite starts_with_app. f_equal.
  replace (List.length (a :: old) - 1)%nat with (List.length old)
    by (simpl; lia).
  apply replace_from_skip.
Qed.

Lemma replace_from_miss old new x s :
  (∀ j, (j < List.length x)%nat →
        starts_with old (drop j (x ++ s)) = false) →
  replace_from old new 0 (x ++ s) = x ++ replace_from old new 0 s.
Proof.
  induction x as [|c x IH]; intros H; [done|].
  pose proof (H 0%nat ltac:(simpl; lia)) as H0.
  change ((c :: x) ++ s) with (c :: (x ++ s)) in *.
  cbn [replace_from drop] in *. rewrite H0.
  change ((c :: x) ++ replace_from old new 0 s)
    with (c :: (x ++ replace_from old new 0 s)).
  f_equal.
  apply IH. intros j Hj. apply (H (S j)). simpl; lia.
Qed.

Lemma replace_nonempty s old new :
  old ≠ [] → replace s old new = replace_from old new 0 s.
Proof. by destruct old. Qed.

(** Replacing a single character. *)
Lemma replace_from_char c new s :
  replace_from [c] new 0 s =
  flat_map (λ x, if Ascii.eqb c x then new else [x]) s.
Proof.
  induction s as [|x s IH]; [done|].
  cbn [replace_from flat_map starts_with].
  rewrite andb_true_r. destruct (Ascii.eqb c x); simpl; by rewrite IH.
Qed.

(** *** Substitution at the holes of one name *)

Lemma only_at_holes_sited pat k piece toks :
  only_at_holes pat k piece toks = true → sited pat k piece toks.
Proof.
  induction toks as [|t ts IH]; simpl; [done|].
  rewrite andb_true_iff, forallb_forall. intros [Hhere Hrest].
  split; [|by apply IH].
  intros j Hj Hm.
  specialize (Hhere j). rewrite Hm in Hhere. simpl in Hhere.
  assert (Hin : In j (seq 0 (List.length (piece t))))
    by (apply in_seq; lia).
  apply Hhere in Hin. apply andb_true_iff in Hin as [H0 Ht].
  split; [by apply Nat.eqb_eq|by apply bool_decide_eq_true in Ht].
Qed.

Lemma replace_pieces old new k (P P' : token → text) toks :
  old ≠ [] →
  P (Hole k) = old →
  P' (Hole k) = new →
  (∀ t, t ≠ Hole k → P' t = P t) →
  sited old k P toks →
  replace_from old new 0 (flat_map P toks) = flat_map P' toks.
Proof.
  intros Hne Hold Hnew Hsame.
  induction toks as [|t ts IH]; [done|].
  intros [Hhere Hrest]. cbn [flat_map].
  destruct (decide (t = Hole k)) as [->|Hneq].
  - rewrite Hold, Hnew, replace_from_hit by done. by rewrite IH.
  - rewrite (Hsame _ Hneq), replace_from_miss; [by rewrite IH|].
    intros j Hj. apply not_true_is_false. intros Hm.
    by destruct (Hhere j Hj Hm).
Qed.



(** *** The markup iterator terminates *)

Lemma span_literal_length s lit c r :
  span_literal s = (lit, Some (c, r)) →
  (List.length r < List.length s)%nat.
Proof.
  revert lit c r; induction s as [|a s IH]; intros lit c r; simpl;
    [done|].
  destruct (is_brace a).
  - intros [= _ _ ->]. lia.
  - destruct (span_literal s) as [lit' [[c' r']|]]; [|done].
    intros [= _ -> ->]. specialize (IH _ _ _ eq_refl). lia.
Qed.

Lemma scan_name_length b s name t rest :
  scan_name b s = NameEnd name t rest →
  (List.length rest < List.length s)%nat.
Proof.
  revert b name t rest; induction s as [|a s IH]; intros b name t rest;
    simpl; [done|].
  destruct b.
  { destruct (scan_name _ s) eqn:E; simpl; [|done..].
    intros [= _ _ <-]. apply IH in E. lia. }
  destruct (Ascii.eqb a "{"); [done|].
  destruct (Ascii.eqb a "[").
  { destruct (scan_name _ s) eqn:E; simpl; [|done..].
    intros [= _ _ <-]. apply IH in E. lia. }
  destruct (_ || _).
  { intros [= _ _ <-]. lia. }
  destruct (scan_name _ s) eqn:E; simpl; [|done..].
  intros [= _ _ <-]. apply IH in E. lia.
Qed.

Lemma scan_spec_length d s spec rest :
  scan_spec d s = Some (spec, rest) →
  (List.length rest < List.length s)%nat.
Proof.
  revert d spec rest; induction s as [|a s IH]; intros d spec rest; simpl;
    [done|].
  destruct (Ascii.eqb a "{").
  { destruct (scan_spec _ s) as [[spec' rest']|] eqn:E; simpl; [|done].
    intros [= _ <-]. apply IH in E. lia. }
  destruct (Ascii.eqb a "}").
  { destruct d as [|d]; [intros [= _ <-]; lia|].
    destruct (scan_spec _ s) as [[spec' rest']|] eqn:E; simpl; [|done].
    intros [= _ <-]. apply IH in E. lia. }
  destruct (scan_spec _ s) as [[spec' rest']|] eqn:E; simpl; [|done].
  intros [= _ <-]. apply IH in E. lia.
Qed.

Lemma spec_field_length name conv s f rest :
  spec_field name conv s = inr (f, rest) →
  (List.length rest < List.length s)%nat.
Proof.
  unfold spec_field.
  destruct (scan_spec 0 s) as [[spec rest']|] eqn:E; [|done].
  intros [= _ <-]. by apply scan_spec_length in E.
Qed.

Lemma span_continuation_length s more rest :
  span_continuation s = (more, rest) →
  (List.length rest ≤ List.length s)%nat.
Proof.
  revert more rest; induction s as [|a s IH]; intros more rest; simpl.
  { intros [= _ <-]. done. }
  destruct (is_continuation a); [|intros [= _ <-]; done].
  destruct (span_continuation s) as [more' rest'].
  intros [= _ <-]. specialize (IH _ _ eq_refl). lia.
Qed.

Lemma first_char_length s c rest :
  first_char s = Some (c, rest) →
  (List.length rest < List.length s)%nat.
Proof.
  destruct s as [|a s]; [done|]. simpl.
  destruct (span_continuation s) as [more rest'] eqn:E.
  intros [= _ <-]. apply span_continuation_length in E. lia.
Qed.

Lemma parse_field_length s f rest :
  parse_field s = inr (f, rest) →
  (List.length rest < List.length s)%nat.
Proof.
  unfold parse_field.
  destruct (scan_name false s) as [name t r| |] eqn:E; [|done..].
  apply scan_name_length in E.
  destruct (Ascii.eqb t "}"); [intros [= _ <-]; lia|].
  destruct (Ascii.eqb t ":").
  { intros H%spec_field_length. lia. }
  destruct (first_char r) as [[conv r1]|] eqn:F; [|done].
  apply first_char_length in F.
  destruct r1 as [|c r2].
  - intros H%spec_field_length. simpl in H. lia.
  - destruct (Ascii.eqb c "}"); [intros [= _ <-]; simpl in *; lia|].
    destruct (Ascii.eqb c ":"); [|done].
    intros H%spec_field_length. simpl in *. lia.
Qed.

Lemma markup_next_length s it rest :
  markup_next s = inr (Some (it, rest)) →
  (List.length rest < List.length s)%nat.
Proof.
  unfold markup_next. destruct s as [|a s]; [done|].
  destruct (span_literal (a :: s)) as [lit [[c r]|]] eqn:E.
  - apply span_literal_length in E.
    destruct r as [|c' r']; [by destruct (Ascii.eqb c "}")|].
    destruct (Ascii.eqb c c'); [intros [= _ <-]; simpl in *; lia|].
    destruct (Ascii.eqb c "}"); [done|].
    destruct (parse_field (c' :: r')) as [e|[f rest']] eqn:F; [done|].
    intros [= _ <-]. apply parse_field_length in F. lia.
  - intros [= _ <-]. simpl. lia.
Qed.

(** Any fuel above the length of the text gives the same items. *)
Lemma markup_steps_fuel fuel fuel' s :
  (List.length s < fuel)%nat → (List.length s < fuel')%nat →
  markup_steps fuel s = markup_steps fuel' s.
Proof.
  revert fuel' s; induction fuel as [|fuel IH]; intros fuel' s H H';
    [lia|].
  destruct fuel' as [|fuel']; [lia|]. simpl.
  destruct (markup_next s) as [e|[[it rest]|]] eqn:E; [done| |done].
  apply markup_next_length in E.
  rewrite (IH fuel' rest) by lia. done.
Qed.

Lemma markup_eq fuel s :
  (List.length s < fuel)%nat → markup_steps fuel s = markup s.
Proof. intros H. apply markup_steps_fuel; [done|lia]. Qed.

(** *** The markup of a rendered token list *)

Lemma markup_next_lit c b s :
  is_brace c = false →
  markup_next (c :: b :: s) =
  match markup_next (b :: s) with
  | inl e => inl e
  | inr None => inr None
  | inr (Some (it, rest)) =>
      inr (Some ({| literal := c :: literal it; field_of := field_of it |},
                 rest))
  end.
Proof.
  intros Hc. unfold markup_next.
  change (span_literal (c :: b :: s))
    with (if is_brace c then ([], Some (c, b :: s))
          else let '(lit, r) := span_literal (b :: s) in (c :: lit, r)).
  rewrite Hc.
  destruct (span_literal (b :: s)) as [lit [[c0 r]|]]; [|done].
  destruct r as [|c' r']; [by destruct (Ascii.eqb c0 "}")|].
  destruct (Ascii.eqb c0 c'); [done|].
  destruct (Ascii.eqb c0 "}"); [done|].
  by destruct (parse_field (c' :: r')) as [e|[f rest']].
Qed.

Lemma markup_next_nonempty b s : markup_next (b :: s) ≠ inr None.
Proof.
  unfold markup_next.
  destruct (span_literal (b :: s)) as [lit [[c0 r]|]]; [|done].
  destruct r as [|c' r']; [by destruct (Ascii.eqb c0 "}")|].
  destruct (Ascii.eqb c0 c'); [done|].
  destruct (Ascii.eqb c0 "}"); [done|].
  by destruct (parse_field (c' :: r')) as [e|[f rest']].
Qed.

Lemma markup_steps_S fuel s :
  markup_steps (S fuel) s =
  match markup_next s with
  | inl e => ([], Some e)
  | inr None => ([], None)
  | inr (Some (it, rest)) =>
      let '(items, err) := markup_steps fuel rest in (it :: items, err)
  end.
Proof. reflexivity. Qed.

Lemma markup_steps_lit fuel c s items :
  is_brace c = false →
  (List.length s < fuel)%nat →
  markup_steps fuel s = (items, None) →
  markup_steps (S fuel) (c :: s) = (cons_lit c items, None).
Proof.
  intros Hc Hfuel Hs.
  destruct fuel as [|fuel]; [lia|].
  destruct s as [|b s].
  - simpl in Hs. injection Hs as <-.
    cbn [markup_steps markup_next span_literal]. rewrite Hc. done.
  - rewrite markup_steps_S in Hs. rewrite markup_steps_S.
    rewrite (markup_next_lit _ _ _ Hc).
    destruct (markup_next (b :: s)) as [e|[[it rest]|]] eqn:E;
      [done| |by apply markup_next_nonempty in E].
    apply markup_next_length in E.
    rewrite (markup_steps_fuel (S fuel) fuel rest) by (simpl in *; lia).
    destruct (markup_steps fuel rest) as [items' err].
    injection Hs as <- ->. done.
Qed.

Lemma plain_name_chars k :
  plain_name k = true →
  ∃ c k', k = c :: k' ∧ get_integer k = NoIndex
          ∧ forallb name_char k = true.
Proof.
  unfold plain_name. rewrite andb_true_iff. intros [Hall Hk].
  destruct k as [|c k']; [done|].
  destruct (get_integer (c :: k')) as [n| | |]; [done| |done..]. eauto.
Qed.

Lemma name_char_spec c :
  name_char c = true →
  Ascii.eqb c "{" = false ∧ Ascii.eqb c "}" = false
  ∧ Ascii.eqb c "[" = false ∧ Ascii.eqb c "." = false
  ∧ Ascii.eqb c ":" = false ∧ Ascii.eqb c "!" = false.
Proof.
  unfold name_char. rewrite negb_true_iff, !orb_false_iff. tauto.
Qed.

Lemma scan_name_plain k s :
  forallb name_char k = true →
  scan_name false (k ++ "}"%char :: s) = NameEnd k "}" s.
Proof.
  induction k as [|c k IH]; [done|]. cbn [forallb app].
  rewrite andb_true_iff. intros [Hc Hk].
  destruct (name_char_spec _ Hc) as (H1 & H2 & H3 & H4 & H5 & H6).
  cbn [scan_name]. rewrite H1, H3, H2, H5, H6. simpl.
  by rewrite (IH Hk).
Qed.

Lemma markup_next_field c r :
  Ascii.eqb "{" c = false →
  markup_next ("{"%char :: c :: r) =
  match parse_field (c :: r) with
  | inl e => inl e
  | inr (f, rest) =>
      inr (Some ({| literal := []; field_of := Some f |}, rest))
  end.
Proof.
  intros H. unfold markup_next.
  change (span_literal ("{"%char :: c :: r))
    with ([] : text, Some ("{"%char, c :: r)).
  cbv beta iota. rewrite H. reflexivity.
Qed.

(** Reading a field does not depend on the text after it. *)
Lemma scan_name_app b x s name t rest :
  scan_name b x = NameEnd name t rest →
  scan_name b (x ++ s) = NameEnd name t (rest ++ s).
Proof.
  revert b name; induction x as [|a x IH]; intros b name; [done|].
  cbn [scan_name app].
  destruct b.
  { destruct (scan_name _ x) eqn:E; simpl; [|done..].
    intros [= <- <- <-]. by rewrite (IH _ _ E). }
  destruct (Ascii.eqb a "{"); [done|].
  destruct (Ascii.eqb a "[").
  { destruct (scan_name _ x) eqn:E; simpl; [|done..].
    intros [= <- <- <-]. by rewrite (IH _ _ E). }
  destruct (_ || _); [by intros [= <- <- <-]|].
  destruct (scan_name _ x) eqn:E; simpl; [|done..].
  intros [= <- <- <-]. by rewrite (IH _ _ E).
Qed.

Lemma scan_spec_app d x s spec rest :
  scan_spec d x = Some (spec, rest) →
  scan_spec d (x ++ s) = Some (spec, rest ++ s).
Proof.
  revert d spec; induction x as [|a x IH]; intros d spec; [done|].
  cbn [scan_spec app].
  destruct (Ascii.eqb a "{").
  { destruct (scan_spec _ x) as [[spec' rest']|] eqn:E; simpl; [|done].
    intros [= <- <-]. by rewrite (IH _ _ E). }
  destruct (Ascii.eqb a "}").
  { destruct d as [|d]; [by intros [= <- <-]|].
    destruct (scan_spec _ x) as [[spec' rest']|] eqn:E; simpl; [|done].
    intros [= <- <-]. by rewrite (IH _ _ E). }
  destruct (scan_spec _ x) as [[spec' rest']|] eqn:E; simpl; [|done].
  intros [= <- <-]. by rewrite (IH _ _ E).
Qed.

Lemma spec_field_app name conv x s f rest :
  spec_field name conv x = inr (f, rest) →
  spec_field name conv (x ++ s) = inr (f, rest ++ s).
Proof.
  unfold spec_field.
  destruct (scan_spec 0 x) as [[spec rest']|] eqn:E; [|done].
  intros [= <- <-]. by rewrite (scan_spec_app _ _ _ _ _ E).
Qed.

(** A character that is followed by another one is read the same way
    whatever comes later. *)
Lemma span_continuation_app x s more c rest :
  span_continuation x = (more, c :: rest) →
  span_continuation (x ++ s) = (more, (c :: rest) ++ s).
Proof.
  revert more; induction x as [|a x IH]; intros more; [done|].
  cbn [span_continuation app].
  destruct (is_continuation a); [|by intros [= <- <- <-]].
  destruct (span_continuation x) as [more' rest'].
  intros [= <- ->]. by rewrite (IH _ eq_refl).
Qed.

Lemma first_char_app x s conv c rest :
  first_char x = Some (conv, c :: rest) →
  first_char (x ++ s) = Some (conv, (c :: rest) ++ s).
Proof.
  destruct x as [|a x]; [done|]. cbn [first_char app].
  destruct (span_continuation x) as [more rest'] eqn:E.
  intros [= <- ->]. by rewrite (span_continuation_app _ s _ _ _ E).
Qed.

Lemma parse_field_app x s f rest :
  parse_field x = inr (f, rest) →
  parse_field (x ++ s) = inr (f, rest ++ s).
Proof.
  unfold parse_field.
  destruct (scan_name false x) as [name t r| |] eqn:E; [|done..].
  rewrite (scan_name_app _ _ s _ _ _ E).
  destruct (Ascii.eqb t "}"); [by intros [= <- <-]|].
  destruct (Ascii.eqb t ":"); [apply spec_field_app|].
  destruct (first_char r) as [[conv [|c r2]]|] eqn:F; [done| |done].
  rewrite (first_char_app _ s _ _ _ F). cbn [app].
  destruct (Ascii.eqb c "}"); [by intros [= <- <-]|].
  destruct (Ascii.eqb c ":"); [|done].
  apply spec_field_app.
Qed.

(** The name of a field starts the text of the field. *)
Lemma scan_name_prefix b x name t rest :
  scan_name b x = NameEnd name t rest → x = name ++ t :: rest.
Proof.
  revert b name; induction x as [|a x IH]; intros b name; [done|].
  cbn [scan_name].
  destruct b.
  { destruct (scan_name _ x) eqn:E; simpl; [|done..].
    intros [= <- <- <-]. by rewrite (IH _ _ E) at 1. }
  destruct (Ascii.eqb a "{"); [done|].
  destruct (Ascii.eqb a "[").
  { destruct (scan_name _ x) eqn:E; simpl; [|done..].
    intros [= <- <- <-]. by rewrite (IH _ _ E) at 1. }
  destruct (_ || _); [by intros [= <- <- <-]|].
  destruct (scan_name _ x) eqn:E; simpl; [|done..].
  intros [= <- <- <-]. by rewrite (IH _ _ E) at 1.
Qed.

Lemma parse_field_name x f rest :
  parse_field x = inr (f, rest) → starts_with (field_name f) x = true.
Proof.
  unfold parse_field.
  destruct (scan_name false x) as [name t r| |] eqn:E; [|done..].
  apply scan_name_prefix in E as ->.
  assert (Hname : ∀ conv y f rest,
            spec_field name conv y = inr (f, rest) → field_name f = name).
  { intros conv y f' rest'. unfold spec_field.
    destruct (scan_spec 0 y) as [[spec r']|]; [|done]. by intros [= <- _]. }
  intros H. enough (field_name f = name) as -> by apply starts_with_app.
  revert H.
  destruct (Ascii.eqb t "}"); [by intros [= <- _]|].
  destruct (Ascii.eqb t ":"); [apply Hname|].
  destruct (first_char r) as [[conv [|c r2]]|]; [apply Hname| |done].
  destruct (Ascii.eqb c "}"); [by intros [= <- _]|].
  destruct (Ascii.eqb c ":"); [apply Hname|done].
Qed.

Lemma group_ok_spec body :
  group_ok body = true →
  ∃ f, group_field body = Some f
       ∧ parse_field (body ++ str "}") = inr (f, [])
       ∧ brace_free (field_name f) = true
       ∧ starts_with (str "{") (body ++ str "}") = false.
Proof.
  unfold group_ok. rewrite andb_true_iff. intros [Hfirst Hf].
  destruct (group_field body) as [f|] eqn:E; [|done].
  exists f. split; [done|]. split; [|split; [done|]].
  - unfold group_field in E.
    destruct (parse_field (body ++ str "}")) as [e|[f' [|? ?]]];
      [done| |done].
    by injection E as ->.
  - destruct body as [|c body]; [done|].
    change (starts_with (str "{") ((c :: body) ++ str "}"))
      with (Ascii.eqb "{" c && true).
    rewrite andb_true_r, Ascii.eqb_sym. by apply negb_true_iff.
Qed.

Lemma markup_next_group body s f :
  group_ok body = true →
  group_field body = Some f →
  markup_next (braced body ++ s) =
  inr (Some ({| literal := []; field_of := Some f |}, s)).
Proof.
  intros Hok Hf.
  destruct (group_ok_spec _ Hok) as (f' & Hf' & Hparse & _ & Hfirst).
  assert (f' = f) as -> by congruence.
  apply (parse_field_app _ s) in Hparse.
  unfold braced. rewrite <- !app_assoc.
  rewrite <- app_assoc in Hparse. cbn [app] in Hparse.
  destruct (body ++ str "}" ++ s) as [|c r] eqn:E.
  { by destruct body. }
  change (str "{" ++ c :: r) with ("{"%char :: c :: r).
  rewrite markup_next_field.
  - by rewrite Hparse.
  - destruct body as [|c' body].
    + by injection E as <- _.
    + injection E as <- _.
      change (starts_with (str "{") ((c' :: body) ++ str "}"))
        with (Ascii.eqb "{" c' && true) in Hfirst.
      by rewrite andb_true_r in Hfirst.
Qed.

Lemma markup_next_hole k s :
  plain_name k = true →
  markup_next (braced k ++ s) =
  inr (Some ({| literal := []; field_of := Some (plain_field k) |}, s)).
Proof.
  intros Hk. destruct (plain_name_chars _ Hk) as (c & k' & -> & _ & Hall).
  pose proof Hall as Hall'. cbn [forallb] in Hall'.
  apply andb_true_iff in Hall' as [Hc _].
  destruct (name_char_spec _ Hc) as (H1 & _).
  unfold braced. rewrite <- !app_assoc.
  change (str "{" ++ (c :: k') ++ str "}" ++ s)
    with ("{"%char :: c :: (k' ++ "}"%char :: s)).
  rewrite markup_next_field by (by rewrite Ascii.eqb_sym).
  unfold parse_field.
  change (c :: k' ++ "}"%char :: s) with ((c :: k') ++ "}"%char :: s).
  rewrite (scan_name_plain _ _ Hall). done.
Qed.

Lemma plain_template t : plain_token t = true → template_token t = true.
Proof. by destruct t. Qed.

Lemma plain_tokens_template toks :
  forallb plain_token toks = true → forallb template_token toks = true.
Proof.
  rewrite !forallb_forall. intros H t Ht. by apply plain_template, H.
Qed.

Lemma markup_render toks :
  forallb template_token toks = true →
  ∀ fuel, (List.length (render toks) < fuel)%nat →
  markup_steps fuel (render toks) = (items_of toks, None).
Proof.
  induction toks as [|t ts IH]; intros Hplain fuel Hfuel.
  { destruct fuel; [lia|]. done. }
  cbn [forallb] in Hplain. apply andb_true_iff in Hplain as [Ht Hts].
  specialize (IH Hts).
  destruct fuel as [|fuel]; [lia|].
  unfold render in *. cbn [flat_map] in *. rewrite length_app in Hfuel.
  destruct t as [c| | |k|body]; cbn [piece_plain items_of] in *.
  - simpl in Ht. apply negb_true_iff in Ht. simpl in Hfuel.
    apply markup_steps_lit; [done|lia|]. apply IH. lia.
  - simpl in Hfuel. cbn [markup_steps]. simpl. rewrite IH by lia. done.
  - simpl in Hfuel. cbn [markup_steps]. simpl. rewrite IH by lia. done.
  - cbn [markup_steps]. rewrite (markup_next_hole _ _ Ht).
    rewrite IH; [done|]. unfold braced in Hfuel.
    rewrite !length_app in Hfuel. simpl in Hfuel. lia.
  - cbn [template_token] in Ht.
    destruct (group_ok_spec _ Ht) as (f & Hf & _).
    cbn [markup_steps]. rewrite (markup_next_group _ _ _ Ht Hf), Hf.
    rewrite IH; [done|]. unfold braced in Hfuel.
    rewrite !length_app in Hfuel. simpl in Hfuel. lia.
Qed.

Lemma field_names_cons_lit c items :
  field_names (cons_lit c items) = field_names items.
Proof. by destruct items. Qed.

Lemma field_names_items_of toks : field_names (items_of toks) = names toks.
Proof.
  induction toks as [|[c| | |k|body] ts IH]; simpl; try done.
  - by rewrite field_names_cons_lit.
  - unfold field_names in *. simpl. by rewrite IH.
  - unfold field_names in *. simpl. by rewrite IH.
Qed.

Lemma Formatter_parse_render toks :
  forallb template_token toks = true →
  Formatter_parse (render toks) = inr (items_of toks).
Proof.
  intros H. unfold Formatter_parse, markup.
  rewrite (markup_render _ H); [done|lia].
Qed.



Lemma split_first_plain k :
  forallb name_char k = true → split_first k = (k, []).
Proof.
  induction k as [|c k IH]; [done|]. cbn [forallb].
  rewrite andb_true_iff. intros [Hc Hk].
  destruct (name_char_spec _ Hc) as (_ & _ & H3 & H4 & _).
  cbn [split_first]. rewrite H3, H4. simpl. by rewrite (IH Hk).
Qed.

Lemma render_field_plain kwargs k v :
  plain_name k = true →
  kwargs !! k = Some v →
  render_field kwargs (plain_field k) = Returned v.
Proof.
  intros Hk Hv. destruct (plain_name_chars _ Hk) as (c & k' & -> & Hd & Hall).
  unfold render_field, plain_field. cbn [field_name].
  rewrite (split_first_plain _ Hall), Hd, Hv. done.
Qed.

Lemma render_items_cons_lit kwargs c items err :
  (items ≠ [] ∨ err = None) →
  render_items kwargs (cons_lit c items) err =
  match render_items kwargs items err with
  | Returned out => Returned (c :: out)
  | other => other
  end.
Proof.
  destruct items as [|it rest]; simpl.
  - intros [?| ->]; done.
  - intros _. destruct (field_of it) as [f|].
    + destruct (render_field kwargs f); try done.
      by destruct (render_items kwargs rest err).
    + by destruct (render_items kwargs rest err).
Qed.

Lemma render_items_items_of kwargs toks :
  forallb plain_token toks = true →
  (∀ k, k ∈ holes toks → is_Some (kwargs !! k)) →
  render_items kwargs (items_of toks) None =
  Returned (flat_map (piece_formatted kwargs) toks).
Proof.
  induction toks as [|t ts IH]; intros Hplain Hkw; [done|].
  cbn [forallb] in Hplain. apply andb_true_iff in Hplain as [Ht Hts].
  assert (Hkw' : ∀ k, k ∈ holes ts → is_Some (kwargs !! k)).
  { intros k Hk. apply Hkw. destruct t; simpl; try done.
    by apply list_elem_of_further. }
  specialize (IH Hts Hkw').
  destruct t as [c| | |k|body]; cbn [items_of flat_map piece_formatted];
    [| | | |done].
  - rewrite render_items_cons_lit by auto. by rewrite IH.
  - cbn [render_items field_of literal]. by rewrite IH.
  - cbn [render_items field_of literal]. by rewrite IH.
  - destruct (Hkw k) as [v Hv]; [simpl; apply list_elem_of_here|].
    cbn [render_items field_of literal].
    rewrite (render_field_plain _ _ _ Ht Hv), IH, Hv. done.
Qed.

Lemma format_render kwargs toks :
  forallb plain_token toks = true →
  (∀ k, k ∈ holes toks → is_Some (kwargs !! k)) →
  format (render toks) kwargs =
  Returned (flat_map (piece_formatted kwargs) toks).
Proof.
  intros Hplain Hkw. unfold format, markup.
  rewrite (markup_render _ (plain_tokens_template _ Hplain)) by lia.
  by apply render_items_items_of.
Qed.

(** *** The text handed to [format] *)

Lemma escape_text_app x y :
  escape_text (x ++ y) = escape_text x ++ escape_text y.
Proof. unfold escape_text. by rewrite !flat_map_app. Qed.

Lemma escape_text_cons c x :
  escape_text (c :: x) = escape_text [c] ++ escape_text x.
Proof. apply (escape_text_app [c]). Qed.

Lemma escape_text_char c :
  escape_text [c] =
  if Ascii.eqb c "{" then str "{{"
  else if Ascii.eqb c "}" then str "}}" else [c].
Proof.
  unfold escape_text. cbn [flat_map]. rewrite (Ascii.eqb_sym "{" c).
  destruct (Ascii.eqb_spec c "{") as [->|H1]; [done|].
  cbn [flat_map app]. rewrite (Ascii.eqb_sym "}" c).
  by destruct (Ascii.eqb c "}").
Qed.

Lemma render_char_tokens x : render (char_tokens x) = escape_text x.
Proof.
  unfold render, char_tokens. induction x as [|c x IH]; [done|].
  rewrite escape_text_cons, escape_text_char, <- IH.
  cbn [fmap list_fmap flat_map].
  by destruct (Ascii.eqb c "{"), (Ascii.eqb c "}").
Qed.

Lemma plain_char_tokens x : forallb plain_token (char_tokens x) = true.
Proof.
  unfold char_tokens. induction x as [|c x IH]; [done|].
  cbn [fmap list_fmap forallb]. rewrite IH, andb_true_r.
  destruct (Ascii.eqb c "{") eqn:E1; [done|].
  destruct (Ascii.eqb c "}") eqn:E2; [done|].
  cbn [plain_token]. unfold is_brace. by rewrite E1, E2.
Qed.

Lemma holes_char_tokens x : holes (char_tokens x) = [].
Proof.
  unfold holes, char_tokens. induction x as [|c x IH]; [done|].
  cbn [fmap list_fmap omap list_omap].
  by destruct (Ascii.eqb c "{"), (Ascii.eqb c "}").
Qed.

Lemma formatted_char_tokens repl x :
  flat_map (piece_formatted repl) (char_tokens x) = x.
Proof.
  unfold char_tokens. induction x as [|c x IH]; [done|].
  cbn [fmap list_fmap flat_map]. rewrite IH.
  destruct (Ascii.eqb_spec c "{") as [->|_]; [done|].
  by destruct (Ascii.eqb_spec c "}") as [->|_].
Qed.

Lemma render_final_tokens toks :
  render (final_tokens toks) = flat_map piece_final toks.
Proof.
  unfold final_tokens.
  induction toks as [|t ts IH]; [done|].
  cbn [flat_map]. unfold render in *. rewrite flat_map_app, IH. f_equal.
  destruct t as [c| | |k|body];
    try (cbn [flat_map piece_plain piece_final piece_escaped];
         rewrite ?app_nil_r; reflexivity).
  apply render_char_tokens.
Qed.

Lemma plain_final_tokens toks :
  forallb template_token toks = true →
  forallb plain_token (final_tokens toks) = true.
Proof.
  unfold final_tokens.
  induction toks as [|t ts IH]; [done|].
  cbn [forallb flat_map]. rewrite andb_true_iff. intros [Ht Hts].
  rewrite forallb_app, (IH Hts), andb_true_r.
  destruct t as [c| | |k|body]; cbn [template_token] in Ht;
    try (by cbn [forallb]; rewrite ?Ht).
  apply plain_char_tokens.
Qed.

Lemma holes_final_tokens toks : holes (final_tokens toks) = holes toks.
Proof.
  unfold final_tokens, holes in *.
  induction toks as [|t ts IH]; [done|].
  cbn [flat_map]. rewrite omap_app, IH.
  destruct t as [c| | |k|body]; try done.
  fold (holes (char_tokens (braced body))). by rewrite holes_char_tokens.
Qed.

Lemma formatted_final_tokens kwargs repl toks :
  (∀ k, k ∈ holes toks →
        repl !! k = Some (default (braced k) (kwargs !! k))) →
  flat_map (piece_formatted repl) (final_tokens toks) = expand kwargs toks.
Proof.
  unfold final_tokens, expand.
  induction toks as [|t ts IH]; intros Hrepl; [done|].
  assert (Hrepl' : ∀ k, k ∈ holes ts →
            repl !! k = Some (default (braced k) (kwargs !! k))).
  { intros k Hk. apply Hrepl. destruct t; simpl; try done.
    by apply list_elem_of_further. }
  specialize (IH Hrepl').
  cbn [flat_map]. rewrite flat_map_app, IH. f_equal.
  destruct t as [c| | |k|body]; try done.
  - cbn [flat_map piece_formatted].
    rewrite (Hrepl k) by (simpl; apply list_elem_of_here).
    by rewrite app_nil_r.
  - apply formatted_char_tokens.
Qed.

(** The last step of [partial_format]. *)
Lemma format_final kwargs repl toks :
  forallb template_token toks = true →
  (∀ k, k ∈ holes toks →
        repl !! k = Some (default (braced k) (kwargs !! k))) →
  format (flat_map piece_final toks) repl = Returned (expand kwargs toks).
Proof.
  intros Hplain Hrepl. rewrite <- render_final_tokens.
  rewrite format_render.
  - by rewrite (formatted_final_tokens kwargs).
  - by apply plain_final_tokens.
  - intros k Hk. rewrite holes_final_tokens in Hk.
    rewrite (Hrepl k Hk). eauto.
Qed.

(** The substitution map built from an enumeration of the names. *)
Lemma replacements_lookup (kwargs : gmap text text) (ks : list text) k :
  k ∈ ks →
  (list_to_map ((λ k, (k, default (braced k) (kwargs !! k))) <$> ks)
     : gmap text text) !! k
  = Some (default (braced k) (kwargs !! k)).
Proof.
  induction ks as [|k0 ks IH]; [by intros ?%elem_of_nil|].
  intros Hk. rewrite fmap_cons, list_to_map_cons.
  destruct (decide (k0 = k)) as [->|Hne].
  - by rewrite lookup_insert_eq.
  - rewrite lookup_insert_ne by done. apply IH.
    apply elem_of_cons in Hk as [->|]; done.
Qed.



(** *** Texts without braces *)

Lemma brace_free_app x y :
  brace_free (x ++ y) = brace_free x && brace_free y.
Proof. apply forallb_app. Qed.

Lemma name_char_no_brace c : name_char c = true → is_brace c = false.
Proof.
  intros H. destruct (name_char_spec _ H) as (H1 & H2 & _).
  unfold is_brace. by rewrite H1, H2.
Qed.

Lemma plain_name_brace_free k : plain_name k = true → brace_free k = true.
Proof.
  intros H. destruct (plain_name_chars _ H) as (c & k' & -> & _ & Hall).
  unfold brace_free. apply forallb_forall. intros x Hx.
  rewrite forallb_forall in Hall. apply negb_true_iff, name_char_no_brace.
  by apply Hall.
Qed.

Lemma marker_brace_free k :
  brace_free k = true → brace_free (TEMP_PLACEHOLDER ++ k) = true.
Proof. intros H. by rewrite brace_free_app, H. Qed.

Lemma brace_free_cons c x :
  brace_free (c :: x) = true ↔ is_brace c = false ∧ brace_free x = true.
Proof.
  unfold brace_free. cbn [forallb].
  by rewrite andb_true_iff, negb_true_iff.
Qed.

(** A text without braces that starts [x ++ b :: y], with [b] a brace,
    starts [x]. *)
Lemma starts_with_brace_stop p x b y :
  brace_free p = true → is_brace b = true →
  starts_with p (x ++ b :: y) = true → starts_with p x = true.
Proof.
  revert x; induction p as [|a p IH]; intros x Hp Hb; [done|].
  apply brace_free_cons in Hp as [Ha Hp].
  destruct x as [|c x].
  - intros [-> _]%starts_with_cons. congruence.
  - intros [-> H]%starts_with_cons. apply starts_with_cons.
    split; [done|]. by apply IH.
Qed.

Lemma starts_with_close_inv y z s :
  brace_free z = true →
  starts_with (y ++ ["}"%char]) (z ++ s) = true →
  ∃ y', y = z ++ y' ∧ starts_with (y' ++ ["}"%char]) s = true.
Proof.
  revert y; induction z as [|a z IH]; intros y Hz H; [by exists y|].
  apply brace_free_cons in Hz as [Ha Hz].
  destruct y as [|b y].
  - apply starts_with_cons in H as [<- _]. done.
  - apply starts_with_cons in H as [-> H].
    destruct (IH _ Hz H) as (y' & -> & H'). by exists y'.
Qed.

(** *** Escaping the braces *)

Lemma char_map_brace_free c new x :
  is_brace c = true → brace_free x = true →
  flat_map (λ a, if Ascii.eqb c a then new else [a]) x = x.
Proof.
  intros Hc. induction x as [|a x IH]; [done|].
  intros [Ha Hx]%brace_free_cons. cbn [flat_map].
  destruct (Ascii.eqb_spec c a) as [->|_]; [congruence|].
  by rewrite (IH Hx).
Qed.

Lemma escape_text_brace_free x : brace_free x = true → escape_text x = x.
Proof.
  intros Hb. unfold escape_text.
  by rewrite (char_map_brace_free "{" _ _ eq_refl Hb),
    (char_map_brace_free "}" _ _ eq_refl Hb).
Qed.

Lemma escape_piece t :
  template_token t = true →
  escape_text (piece_marked t) = piece_escaped t.
Proof.
  intros Ht. destruct t as [c| | |k|body]; [|done|done| |done].
  - simpl in Ht. apply negb_true_iff in Ht.
    apply escape_text_brace_free. by apply brace_free_cons.
  - by apply escape_text_brace_free, marker_brace_free,
      plain_name_brace_free.
Qed.

Lemma escape_marked toks :
  forallb template_token toks = true →
  replace (replace (flat_map piece_marked toks) (str "{") (str "{{"))
    (str "}") (str "}}")
  = flat_map piece_escaped toks.
Proof.
  intros Hplain.
  change (str "{") with ["{"%char]. change (str "}") with ["}"%char].
  rewrite !replace_nonempty by done. rewrite !replace_from_char.
  induction toks as [|t ts IH]; [done|].
  cbn [forallb] in Hplain. apply andb_true_iff in Hplain as [Ht Hts].
  change (flat_map piece_marked (t :: ts))
    with (piece_marked t ++ flat_map piece_marked ts).
  change (flat_map piece_escaped (t :: ts))
    with (piece_escaped t ++ flat_map piece_escaped ts).
  rewrite !flat_map_app, (IH Hts). f_equal. by apply escape_piece.
Qed.

(** *** The field names of a template *)

Lemma names_brace_free toks k :
  forallb template_token toks = true → k ∈ names toks →
  brace_free k = true.
Proof.
  induction toks as [|t ts IH]; [by intros _ ?%elem_of_nil|].
  cbn [forallb]. rewrite andb_true_iff. intros [Ht Hts] Hk.
  destruct t as [c| | |k1|body]; simpl in Hk; try (by apply IH).
  - apply elem_of_cons in Hk as [->|Hk]; [|by apply IH].
    by apply plain_name_brace_free.
  - apply elem_of_cons in Hk as [->|Hk]; [|by apply IH].
    destruct (group_ok_spec _ Ht) as (f & Hf & _ & Hb & _).
    unfold group_name. by rewrite Hf.
Qed.

Lemma holes_names toks k : k ∈ holes toks → k ∈ names toks.
Proof.
  induction toks as [|t ts IH]; [done|].
  destruct t as [c| | |k1|body]; simpl; try done.
  - rewrite !elem_of_cons. intros [->|H]; auto.
  - intros H. apply list_elem_of_further. by apply IH.
Qed.

(** The name of a group starts its body. *)
Lemma group_name_prefix body :
  group_ok body = true → ∃ r, body = group_name body ++ r.
Proof.
  intros Hok. destruct (group_ok_spec _ Hok) as (f & Hf & Hp & Hb & _).
  unfold group_name. rewrite Hf. cbn [default].
  apply parse_field_name in Hp.
  apply (starts_with_brace_stop _ body "}"%char [] Hb eq_refl) in Hp.
  by apply starts_with_spec.
Qed.



(** *** Restoring the placeholders *)

Lemma marker_starts k c s :
  c ≠ "T"%char → starts_with (TEMP_PLACEHOLDER ++ k) (c :: s) = false.
Proof.
  intros Hc. apply not_true_is_false.
  change (TEMP_PLACEHOLDER ++ k)
    with ("T"%char :: (str "EMP_PLACEHOLDER_" ++ k)).
  intros [<- _]%starts_with_cons. done.
Qed.

Lemma marker_nonempty k : TEMP_PLACEHOLDER ++ k ≠ [].
Proof. done. Qed.

(** A match of a brace-free pattern in the text being restored is a
    match in the escaped text. *)
Lemma restoring_match p seen x ts :
  brace_free p = true →
  starts_with p (x ++ flat_map (piece_restoring seen) ts) = true →
  starts_with p (x ++ flat_map piece_escaped ts) = true.
Proof.
  intros Hp. revert x. induction ts as [|t ts IH]; intros x; [done|].
  cbn [flat_map].
  destruct t as [c| | |k1|body]; cbn [piece_restoring piece_escaped];
    rewrite ?(app_assoc x); try apply IH.
  case_bool_decide; [|rewrite ?(app_assoc x); apply IH].
  unfold braced. rewrite <- !app_assoc. intros Hm.
  apply starts_with_weaken.
  by apply (starts_with_brace_stop p x "{"%char _ Hp eq_refl) in Hm.
Qed.

Lemma sited_restoring k seen toks :
  brace_free k = true →
  sited (TEMP_PLACEHOLDER ++ k) k piece_escaped toks →
  sited (TEMP_PLACEHOLDER ++ k) k (piece_restoring seen) toks.
Proof.
  intros Hk. pose proof (marker_brace_free _ Hk) as Hp.
  induction toks as [|t ts IH]; [done|].
  cbn [sited]. intros [Hhere Hrest]. split; [|by apply IH].
  assert (Hsame : piece_restoring seen t = piece_escaped t →
    ∀ j, (j < List.length (piece_restoring seen t))%nat →
         starts_with (TEMP_PLACEHOLDER ++ k)
           (drop j (piece_restoring seen t
                    ++ flat_map (piece_restoring seen) ts)) = true →
         j = 0%nat ∧ t = Hole k).
  { intros -> j Hj Hm. apply (Hhere j Hj).
    rewrite drop_app_le in Hm |- * by lia.
    by apply restoring_match in Hm. }
  destruct t as [c| | |k1|body]; try (by apply Hsame).
  cbn [piece_restoring] in *. case_bool_decide; [|by apply Hsame].
  clear Hsame. intros j Hj Hm. exfalso.
  unfold braced in Hj, Hm. rewrite <- !app_assoc in Hm.
  cbn [str list_ascii_of_string app] in Hm.
  destruct j as [|i]; [by rewrite drop_0, marker_starts in Hm|].
  cbn [drop] in Hm.
  rewrite !length_app in Hj. simpl in Hj.
  rewrite drop_app_le in Hm by lia.
  apply (starts_with_brace_stop _ _ "}"%char _ Hp eq_refl) in Hm.
  destruct (decide (i = List.length k1)) as [->|Hi].
  { rewrite drop_all in Hm. by apply starts_with_nil_r in Hm. }
  change (piece_escaped (Hole k1)) with (TEMP_PLACEHOLDER ++ k1) in Hhere.
  destruct (Hhere (List.length TEMP_PLACEHOLDER + i)%nat) as [H0 _].
  - rewrite length_app. lia.
  - rewrite <- app_assoc, drop_app_add'.
    2: done.
    rewrite drop_app_le by lia. by apply starts_with_weaken.
  - simpl in H0; lia.
Qed.



(** *** Marking the placeholders *)

Lemma braced_starts k c s :
  c ≠ "{"%char → starts_with (braced k) (c :: s) = false.
Proof.
  intros Hc. apply not_true_is_false.
  unfold braced. cbn [str list_ascii_of_string app].
  intros [<- _]%starts_with_cons. done.
Qed.

Lemma braced_nonempty k : braced k ≠ [].
Proof. done. Qed.

(** A marker inside a field name shows in the escaped text. *)
Lemma marker_not_in_name k k' x z toks :
  forallb template_token toks = true →
  sited (TEMP_PLACEHOLDER ++ k') k' piece_escaped toks →
  k ∈ names toks →
  k ≠ x ++ (TEMP_PLACEHOLDER ++ k') ++ z.
Proof.
  intros Htoks Hsited Hk Heq.
  induction toks as [|t ts IH]; [by apply elem_of_nil in Hk|].
  cbn [forallb] in Htoks. apply andb_true_iff in Htoks as [Ht Hts].
  destruct Hsited as [Hhere Hrest].
  destruct t as [c| | |k1|body]; simpl in Hk; try (by apply IH).
  - apply elem_of_cons in Hk as [<-|Hk]; [|by apply IH].
    change (piece_escaped (Hole k)) with (TEMP_PLACEHOLDER ++ k) in Hhere.
    rewrite Heq in Hhere.
    destruct (Hhere (List.length (TEMP_PLACEHOLDER ++ x))) as [H0 _].
    + rewrite !length_app.
      change (List.length TEMP_PLACEHOLDER) with 17%nat. lia.
    + rewrite (app_assoc TEMP_PLACEHOLDER x),
        <- (app_assoc _ _ (flat_map _ _)).
      rewrite drop_app_length, <- app_assoc. apply starts_with_app.
    + rewrite length_app in H0.
      change (List.length TEMP_PLACEHOLDER) with 17%nat in H0. lia.
  - apply elem_of_cons in Hk as [Hk|Hk]; [|by apply IH].
    cbn [template_token] in Ht.
    pose proof (names_brace_free [Group body] k) as Hb.
    cbn [forallb template_token names omap list_omap] in Hb.
    rewrite Ht in Hb. specialize (Hb eq_refl).
    rewrite Hk in Hb. specialize (Hb (list_elem_of_here _ _)).
    destruct (group_name_prefix _ Ht) as [r Hr].
    rewrite <- Hk in Hr, Hb. clear Hk.
    assert (Hpiece : piece_escaped (Group body)
              = (str "{{" ++ x) ++ (TEMP_PLACEHOLDER ++ k')
                ++ z ++ escape_text (r ++ str "}")).
    { cbn [piece_escaped]. unfold braced.
      rewrite Hr, <- !app_assoc.
      rewrite (escape_text_app (str "{")), (escape_text_app k).
      rewrite (escape_text_brace_free k Hb), Heq, <- !app_assoc.
      reflexivity. }
    rewrite Hpiece in Hhere.
    destruct (Hhere (List.length (str "{{" ++ x))) as [H0 _].
    + rewrite !length_app.
      change (List.length TEMP_PLACEHOLDER) with 17%nat. simpl. lia.
    + rewrite <- (app_assoc _ _ (flat_map _ _)).
      rewrite drop_app_length, <- app_assoc. apply starts_with_app.
    + rewrite length_app in H0. simpl in H0. lia.
Qed.

(** A match of [k}] in the text being marked is a match in the
    template, unless [k] holds the marker of a placeholder. *)
Lemma marking_match seen y ts :
  forallb template_token ts = true →
  brace_free y = true →
  starts_with (y ++ ["}"%char]) (flat_map (piece_marking seen) ts) = true →
  starts_with (y ++ ["}"%char]) (flat_map piece_plain ts) = true
  ∨ ∃ k' x z, k' ∈ holes ts ∧ y = x ++ (TEMP_PLACEHOLDER ++ k') ++ z.
Proof.
  revert y. induction ts as [|t ts IH]; intros y Hplain Hy Hm.
  { by destruct y. }
  cbn [forallb] in Hplain. apply andb_true_iff in Hplain as [Ht Hts].
  cbn [flat_map] in Hm |- *.
  assert (Hopen : ∀ r r',
            starts_with (y ++ ["}"%char]) ("{"%char :: r) = true →
            starts_with (y ++ ["}"%char]) r' = true
            ∨ ∃ k' x z, k' ∈ holes (t :: ts)
                        ∧ y = x ++ (TEMP_PLACEHOLDER ++ k') ++ z).
  { intros r r' H. exfalso. destruct y as [|a y].
    - by apply starts_with_cons in H as [? _].
    - apply starts_with_cons in H as [-> _].
      by apply brace_free_cons in Hy as [? _]. }
  destruct t as [c| | |k1|body]; cbn [piece_marking piece_plain] in Hm |- *.
  - simpl in Ht. apply negb_true_iff in Ht.
    destruct y as [|a y].
    { apply starts_with_cons in Hm as [<- _]. done. }
    apply starts_with_cons in Hm as [-> Hm].
    apply brace_free_cons in Hy as [_ Hy].
    destruct (IH y Hts Hy Hm) as [H|(k' & x & z & Hk' & ->)].
    + left. by apply starts_with_cons.
    + right. by exists k', (c :: x), z.
  - by apply (Hopen _ _ Hm).
  - destruct y as [|a y]; [by left|].
    apply starts_with_cons in Hm as [-> _].
    by apply brace_free_cons in Hy as [? _].
  - case_bool_decide.
    + right.
      destruct (starts_with_close_inv _ _ _
                  (marker_brace_free _ (plain_name_brace_free _ Ht)) Hm)
        as (y' & -> & _).
      exists k1, [], y'. split; [simpl; apply list_elem_of_here|done].
    + unfold braced in Hm. rewrite <- !app_assoc in Hm.
      by apply (Hopen _ _ Hm).
  - unfold braced in Hm. rewrite <- !app_assoc in Hm.
    by apply (Hopen _ _ Hm).
Qed.

(** The same, for a match that starts before the text being marked. *)
Lemma marking_match_after seen y x ts :
  forallb template_token ts = true →
  brace_free y = true →
  starts_with (y ++ ["}"%char]) (x ++ flat_map (piece_marking seen) ts)
    = true →
  starts_with (y ++ ["}"%char]) (x ++ flat_map piece_plain ts) = true
  ∨ ∃ k' x' z, k' ∈ holes ts ∧ y = x' ++ (TEMP_PLACEHOLDER ++ k') ++ z.
Proof.
  intros Hts. revert y. induction x as [|a x IH]; intros y Hy Hm.
  { by apply (marking_match seen). }
  destruct y as [|b y].
  - left. apply starts_with_cons in Hm as [<- _]. by apply starts_with_cons.
  - apply starts_with_cons in Hm as [-> Hm].
    apply brace_free_cons in Hy as [_ Hy].
    destruct (IH y Hy Hm) as [H|(k' & x' & z & Hk' & ->)].
    + left. by apply starts_with_cons.
    + right. by exists k', (a :: x'), z.
Qed.

(** No match of [{k}] starts inside a text without opening brace. *)
Lemma braced_not_inside k j x s :
  Forall (λ c, c ≠ "{"%char) x → (j < List.length x)%nat →
  starts_with (braced k) (drop j (x ++ s)) = false.
Proof.
  intros Hx Hj. rewrite drop_app_le by lia.
  destruct (drop j x) as [|c r] eqn:E.
  - apply (f_equal List.length) in E. rewrite length_drop in E.
    simpl in E. lia.
  - apply braced_starts.
    assert (Hc : c ∈ drop j x) by (rewrite E; apply list_elem_of_here).
    apply (subseteq_drop j x) in Hc.
    by apply (proj1 (Forall_forall _ _) Hx).
Qed.

Lemma brace_free_no_open x :
  brace_free x = true → Forall (λ c, c ≠ "{"%char) x.
Proof.
  unfold brace_free. rewrite forallb_forall, Forall_forall.
  intros H c Hc%list_elem_of_In ->. by apply H in Hc.
Qed.

Lemma sited_marking k seen ts :
  brace_free k = true →
  forallb template_token ts = true →
  (∀ k' x z, k' ∈ holes ts → k ≠ x ++ (TEMP_PLACEHOLDER ++ k') ++ z) →
  sited (braced k) k piece_plain ts →
  sited (braced k) k (piece_marking seen) ts.
Proof.
  intros Hkb.
  induction ts as [|t ts IH]; [done|].
  cbn [forallb sited]. rewrite andb_true_iff.
  intros [Ht Hts] Hclean [Hhere Hrest].
  assert (Hclean' : ∀ k' x z,
            k' ∈ holes ts → k ≠ x ++ (TEMP_PLACEHOLDER ++ k') ++ z).
  { intros k' x z Hk'. apply Hclean. destruct t; simpl; try done.
    by apply list_elem_of_further. }
  split; [|by apply IH].
  assert (Hsame : piece_marking seen t = piece_plain t →
    ∀ j, (j < List.length (piece_marking seen t))%nat →
         starts_with (braced k)
           (drop j (piece_marking seen t
                    ++ flat_map (piece_marking seen) ts)) = true →
         j = 0%nat ∧ t = Hole k).
  { intros -> j Hj Hm. apply (Hhere j Hj).
    rewrite drop_app_le in Hm |- * by lia.
    destruct (drop j (piece_plain t)) as [|c r] eqn:E.
    { apply (f_equal List.length) in E. rewrite length_drop in E.
      simpl in E. lia. }
    unfold braced in Hm |- *.
    cbn [str list_ascii_of_string app] in Hm |- *.
    apply starts_with_cons in Hm as [<- Hm]. apply starts_with_cons.
    split; [done|].
    destruct (marking_match_after _ _ _ _ Hts Hkb Hm)
      as [Hp|(k' & x & z & Hk' & Heq)]; [done|].
    by destruct (Hclean' k' x z). }
  destruct t as [c| | |k1|body]; try (by apply Hsame).
  cbn [piece_marking] in *. case_bool_decide; [|by apply Hsame].
  intros j Hj Hm.
  rewrite braced_not_inside in Hm; [done| |done].
  by apply brace_free_no_open, marker_brace_free, plain_name_brace_free.
Qed.

(** *** The two loops *)

Lemma interference_free_sited toks k :
  interference_free toks = true → k ∈ names toks →
  sited (braced k) k piece_plain toks
  ∧ sited (TEMP_PLACEHOLDER ++ k) k piece_escaped toks.
Proof.
  unfold interference_free. rewrite forallb_forall.
  intros H Hk%list_elem_of_In. apply H in Hk.
  apply andb_true_iff in Hk as [H1 H2].
  split; by apply only_at_holes_sited.
Qed.

Lemma flat_map_pieces (P P' : token → text) toks :
  (∀ k, k ∈ holes toks → P (Hole k) = P' (Hole k)) →
  (∀ t, (∀ k, t ≠ Hole k) → P t = P' t) →
  flat_map P toks = flat_map P' toks.
Proof.
  intros Hh Ho. induction toks as [|t ts IH]; [done|].
  cbn [flat_map]. rewrite IH.
  - f_equal. destruct t as [c| | |k|body]; try (by apply Ho).
    apply Hh. simpl. apply list_elem_of_here.
  - intros k Hk. apply Hh. destruct t; simpl; try done.
    by apply list_elem_of_further.
Qed.

Ltac not_a_hole :=
  let Hn := fresh in
  intros [?| | |?k|?] Hn; [reflexivity..|by destruct (Hn k)|reflexivity].

Lemma mark_step toks k seen :
  forallb template_token toks = true →
  interference_free toks = true →
  k ∈ names toks → k ∉ seen →
  replace (flat_map (piece_marking seen) toks) (braced k)
    (TEMP_PLACEHOLDER ++ k)
  = flat_map (piece_marking (k :: seen)) toks.
Proof.
  intros Hplain Hfree Hk Hdone.
  rewrite replace_nonempty by apply braced_nonempty.
  apply (replace_pieces _ _ k).
  - apply braced_nonempty.
  - cbn [piece_marking]. by rewrite bool_decide_eq_false_2.
  - cbn [piece_marking]. rewrite bool_decide_eq_true_2; [done|].
    apply list_elem_of_here.
  - intros [c| | |k1|body] Hne; try done. cbn [piece_marking].
    assert (k1 ≠ k) by congruence.
    rewrite (bool_decide_ext (k1 ∈ k :: seen) (k1 ∈ seen)); [done|].
    rewrite elem_of_cons. split; [by intros [->|]|auto].
  - apply sited_marking.
    + by apply (names_brace_free toks).
    + done.
    + intros k' x z Hk'.
      apply (marker_not_in_name k k' x z toks); [done| |done].
      by apply interference_free_sited, holes_names.
    + by apply interference_free_sited.
Qed.

Lemma mark_loop toks ks :
  forallb template_token toks = true →
  interference_free toks = true →
  ∀ seen,
    NoDup ks →
    (∀ k, k ∈ ks → k ∈ names toks ∧ k ∉ seen) →
    foldl (λ s k, replace s (braced k) (TEMP_PLACEHOLDER ++ k))
      (flat_map (piece_marking seen) toks) ks
    = flat_map (piece_marking (reverse ks ++ seen)) toks.
Proof.
  intros Hplain Hfree.
  induction ks as [|k ks IH]; intros seen Hnd Hks; [done|].
  apply NoDup_cons in Hnd as [Hk Hnd].
  destruct (Hks k) as [Hkh Hkd]; [apply list_elem_of_here|].
  cbn [foldl]. rewrite mark_step by done.
  rewrite IH; [|done|].
  - by rewrite reverse_cons, <- app_assoc.
  - intros k' Hk'. destruct (Hks k') as [? ?];
      [by apply list_elem_of_further|].
    split; [done|]. rewrite elem_of_cons. intros [->|]; done.
Qed.

Lemma restore_step toks k seen :
  forallb template_token toks = true →
  interference_free toks = true →
  k ∈ names toks → k ∉ seen →
  replace (flat_map (piece_restoring seen) toks) (TEMP_PLACEHOLDER ++ k)
    (braced k)
  = flat_map (piece_restoring (k :: seen)) toks.
Proof.
  intros Hplain Hfree Hk Hdone.
  rewrite replace_nonempty by apply marker_nonempty.
  apply (replace_pieces _ _ k).
  - apply marker_nonempty.
  - cbn [piece_restoring]. by rewrite bool_decide_eq_false_2.
  - cbn [piece_restoring]. rewrite bool_decide_eq_true_2; [done|].
    apply list_elem_of_here.
  - intros [c| | |k1|body] Hne; try done. cbn [piece_restoring].
    assert (k1 ≠ k) by congruence.
    rewrite (bool_decide_ext (k1 ∈ k :: seen) (k1 ∈ seen)); [done|].
    rewrite elem_of_cons. split; [by intros [->|]|auto].
  - apply sited_restoring; [by apply (names_brace_free toks)|].
    by apply interference_free_sited.
Qed.

Lemma restore_loop toks ks :
  forallb template_token toks = true →
  interference_free toks = true →
  ∀ seen,
    NoDup ks →
    (∀ k, k ∈ ks → k ∈ names toks ∧ k ∉ seen) →
    foldl (λ s k, replace s (TEMP_PLACEHOLDER ++ k) (braced k))
      (flat_map (piece_restoring seen) toks) ks
    = flat_map (piece_restoring (reverse ks ++ seen)) toks.
Proof.
  intros Hplain Hfree.
  induction ks as [|k ks IH]; intros seen Hnd Hks; [done|].
  apply NoDup_cons in Hnd as [Hk Hnd].
  destruct (Hks k) as [Hkh Hkd]; [apply list_elem_of_here|].
  cbn [foldl]. rewrite restore_step by done.
  rewrite IH; [|done|].
  - by rewrite reverse_cons, <- app_assoc.
  - intros k' Hk'. destruct (Hks k') as [? ?];
      [by apply list_elem_of_further|].
    split; [done|]. rewrite elem_of_cons. intros [->|]; done.
Qed.

Lemma marking_nil toks : flat_map (piece_marking []) toks = render toks.
Proof.
  apply flat_map_pieces; [|not_a_hole]. intros k _. cbn [piece_marking].
  by rewrite bool_decide_eq_false_2 by apply not_elem_of_nil.
Qed.

Lemma restoring_nil toks :
  flat_map (piece_restoring []) toks = flat_map piece_escaped toks.
Proof.
  apply flat_map_pieces; [|not_a_hole]. intros k _. cbn [piece_restoring].
  by rewrite bool_decide_eq_false_2 by apply not_elem_of_nil.
Qed.

(** *** [partial_format] on a token list *)

Lemma partial_format_tokens set_order toks kwargs :
  enumerates set_order →
  forallb template_token toks = true →
  interference_free toks = true →
  kwargs !! str "s" = None →
  partial_format set_order (render toks) kwargs
  = Returned (expand kwargs toks).
Proof.
  intros Horder Hplain Hfree Hs. unfold partial_format. rewrite Hs.
  rewrite (Formatter_parse_render _ Hplain), field_names_items_of.
  destruct (Horder (names toks)) as [Hnd Hks].
  set (ks := set_order (names toks)) in *.
  assert (Hin : ∀ k, k ∈ ks → k ∈ names toks ∧ k ∉ [])
    by (intros k Hk; split; [by apply Hks|apply not_elem_of_nil]).
  assert (Hall : ∀ k, k ∈ holes toks → k ∈ reverse ks ++ []).
  { intros k Hk. rewrite app_nil_r, elem_of_reverse.
    by apply Hks, holes_names. }
  rewrite <- marking_nil.
  rewrite (mark_loop _ _ Hplain Hfree [] Hnd Hin).
  replace (flat_map (piece_marking (reverse ks ++ [])) toks)
    with (flat_map piece_marked toks).
  2: { apply flat_map_pieces; [|not_a_hole]. intros k Hk.
       cbn [piece_marked piece_marking].
       by rewrite bool_decide_eq_true_2 by auto. }
  rewrite (escape_marked _ Hplain).
  rewrite <- restoring_nil.
  rewrite (restore_loop _ _ Hplain Hfree [] Hnd Hin).
  replace (flat_map (piece_restoring (reverse ks ++ [])) toks)
    with (flat_map piece_final toks).
  2: { apply flat_map_pieces; [|not_a_hole]. intros k Hk.
       cbn [piece_final piece_restoring].
       by rewrite bool_decide_eq_true_2 by auto. }
  apply format_final; [done|].
  intros k Hk. apply replacements_lookup. by apply Hks, holes_names.
Qed.

(** *** Iteration orders *)

Lemma last_seen_enumerates : enumerates last_seen.
Proof.
  intros l. split; [apply NoDup_remove_dups|].
  intros x. apply elem_of_remove_dups.
Qed.

(** *** The output as a template *)

Lemma render_lits v : render (Lit <$> v) = v.
Proof.
  unfold render. induction v as [|c v IH]; [done|].
  cbn [fmap list_fmap flat_map piece_plain]. by rewrite IH.
Qed.

Lemma expand_fill kwargs toks : expand kwargs toks = render (fill kwargs toks).
Proof.
  unfold expand, fill, render.
  induction toks as [|t ts IH]; [done|].
  cbn [flat_map]. rewrite flat_map_app, IH. f_equal.
  destruct t as [c| | |k|body]; try (by cbn [flat_map]; rewrite app_nil_r).
  destruct (kwargs !! k) as [v|]; cbn [default].
  - symmetry. apply render_lits.
  - cbn [flat_map]. by rewrite app_nil_r.
Qed.

Lemma template_lits v :
  brace_free v = true → forallb template_token (Lit <$> v) = true.
Proof.
  induction v as [|c v IH]; [done|].
  intros [Hc Hv]%brace_free_cons.
  cbn [fmap list_fmap forallb template_token plain_token].
  rewrite Hc. by apply IH.
Qed.

Lemma template_fill kwargs toks :
  forallb template_token toks = true →
  (∀ k v, k ∈ holes toks → kwargs !! k = Some v → brace_free v = true) →
  forallb template_token (fill kwargs toks) = true.
Proof.
  unfold fill. induction toks as [|t ts IH]; [done|].
  cbn [forallb flat_map]. rewrite andb_true_iff. intros [Ht Hts] Hv.
  rewrite forallb_app, IH, andb_true_r; [|done|].
  - destruct t as [c| | |k|body]; try (by cbn [forallb]; rewrite Ht).
    destruct (kwargs !! k) as [v|] eqn:E.
    + apply template_lits. apply (Hv k v); [|done].
      simpl. apply list_elem_of_here.
    + cbn [forallb]. by rewrite Ht.
  - intros k v Hk. apply Hv. destruct t; simpl; try done.
    by apply list_elem_of_further.
Qed.



Lemma expand_empty toks : expand ∅ toks = render toks.
Proof.
  unfold expand, render. apply flat_map_ext. by intros [c| | |k|body].
Qed.







End PromptsFacts.

(** ** More on the Slack handlers *)

Module RunsFacts.
Import Py Eff Slack Runs EffFacts SlackFacts.

(** *** Sending a message, whatever the world answers *)

Lemma send_message_any config w (text : string) thread tr :
  run w (send_message config text thread) tr =
  match w _ tr (MrkdwnFormatter text) with
  | inl e => (tr ++ [Called (MrkdwnFormatter text)], inl e)
  | inr text' =>
      (tr ++ [ Called (MrkdwnFormatter text);
               Called (say_text text' (thread_kw thread)
                         (SLACK_BOT_TOKEN config)) ],
       w _ (tr ++ [Called (MrkdwnFormatter text)])
         (say_text text' (thread_kw thread) (SLACK_BOT_TOKEN config)))
  end.
Proof.
  unfold send_message. rewrite run_bind, run_await.
  destruct (w _ tr (MrkdwnFormatter text)) as [e|text']; [done|].
  destruct thread; cbv beta iota; rewrite run_await;
    by rewrite <- app_assoc.
Qed.

(** *** The order of the guarded steps *)

Lemma in_order_cons order n ns :
  in_order order (n :: ns) =
  (String.eqb n "logger.error" && match ns with [] => true | _ => false end)
  || match order with
     | o :: os => String.eqb n o && in_order os ns
     | [] => false
     end.
Proof. by destruct order. Qed.

Lemma in_order_spec order names :
  in_order order names = true →
  names = order ∨ ∃ n, names = take n order ++ ["logger.error"%string].
Proof.
  revert order; induction names as [|n ns IH]; intros order.
  { destruct order; [by left|done]. }
  rewrite in_order_cons.
  rewrite orb_true_iff, !andb_true_iff. intros [[Hn Hns]|H].
  - right. exists 0%nat. apply String.eqb_eq in Hn as ->.
    by destruct ns.
  - destruct order as [|o os]; [done|].
    apply andb_true_iff in H as [Hn H]. apply String.eqb_eq in Hn as ->.
    destruct (IH _ H) as [->|[k ->]]; [by left|].
    right. by exists (S k).
Qed.

(** Stepping through a run that is named by a hypothesis, with the
    world left free: every answer is split into its two cases. *)
Ltac run_in H :=
  repeat first
    [ rewrite run_bind in H | rewrite run_await in H | rewrite run_lift in H
    | rewrite run_log_info in H | rewrite run_log_error in H
    | rewrite run_ret in H | rewrite run_try in H
    | rewrite send_message_any in H | progress simpl in H ].

Ltac any_world w H :=
  repeat
    (match type of H with
     | context [w ?X ?tr ?c] => destruct (w X tr c) as [?|?]
     | context [if negb (truthy ?h) then _ else _] => destruct (truthy h)
     | context [if ?b then _ else _] => destruct b
     end;
     run_in H).

#[local] Opaque send_message.

Lemma guarded_steps_in_order config w body (channel m : gmap string value)
    tr0 tr r :
  body !! "channel" = Some (VDict channel) →
  run w (docsbot_steps config body (VDict m)) tr0 = (tr, r) →
  ∃ more intro,
    tr = tr0 ++ more
    ∧ in_order (guarded_steps intro)
        (step_name <$>
           more ++
           match r with
           | inl e => [LogError "Error posting message: " e]
           | inr _ => []
           end) = true.
Proof.
  intros Hch Hrun.
  unfold docsbot_steps, channel_id_of in Hrun.
  rewrite thread_id_of_dict in Hrun.
  unfold get, dict_getitem in Hrun. rewrite Hch in Hrun.
  revert Hrun.
  generalize (py_or (dict_get m "thread_ts" VNone) (dict_get m "ts" VNone)).
  intros tid Hrun.
  run_in Hrun. any_world w Hrun.
  all: injection Hrun as <- <-; rewrite <- ?app_assoc; simpl.
  all: eexists; first
         [ exists true; split; [reflexivity|]; reflexivity
         | exists false; split; [reflexivity|]; reflexivity ].
Qed.

#[local] Transparent send_message.

(** X2.  The guarded steps of the primary action run in one fixed
    order, in every world: once the originating message is resolved,
    the calls that follow are the history fetch, the intro (its text,
    the formatter, the message) or not, then the query, the formatting
    of the answer, the formatter, the answer message, the two reactions
    and the record; either all of them, or a part of this list from its
    start followed by the error log and nothing else.  The handler
    returns normally in both cases. *)
Theorem docsbot_steps_in_order (config : Config) (w : world)
    (body : gmap string value) (message : value)
    (channel m : gmap string value) :
  resolves config w body message channel m →
  ∃ more intro,
    exec w (docsbot_handler config body)
    = (before_guard config body message channel m ++ more, inr tt)
    ∧ (step_name <$> more = guarded_steps intro
       ∨ ∃ n, step_name <$> more
              = take n (guarded_steps intro) ++ ["logger.error"%string]).
Proof.
  intros Hres. pose proof Hres as (_ & _ & Hch & _).
  rewrite (docsbot_handler_run _ _ _ _ _ _ Hres).
  destruct (run w _ _) as [tr r] eqn:Hrun.
  destruct (guarded_steps_in_order _ _ _ _ _ _ _ _ Hch Hrun)
    as (more & intro & -> & Horder).
  apply in_order_spec in Horder.
  destruct r as [e|[]].
  - exists (more ++ [LogError "Error posting message: " e]), intro.
    by rewrite app_assoc.
  - exists more, intro. by rewrite app_nil_r in Horder.
Qed.

Lemma docsbot_steps_in_order_witness :
  ∃ more intro,
    exec flaky_world (docsbot_handler en_config demo_body)
    = (before_guard en_config demo_body (VDict {[ "ts" := VStr "T9" ]})
         {[ "id" := VStr "C1" ]} demo_message ++ more, inr tt)
    ∧ (step_name <$> more = guarded_steps intro
       ∨ ∃ n, step_name <$> more
              = take n (guarded_steps intro) ++ ["logger.error"%string]).
Proof.
  apply (docsbot_steps_in_order en_config flaky_world demo_body
           (VDict {[ "ts" := VStr "T9" ]}) {[ "id" := VStr "C1" ]}
           demo_message).
  repeat split; try reflexivity; intros tr; reflexivity.
Defined.

(** *** A thread that already has history: the full sequence *)

#[local] Opaque send_message.

Lemma answered_steps config w body message channel m h response response'
    api sent tr0 :
  answered config w body message channel m h response response' api sent →
  run w (docsbot_steps config body (VDict m)) tr0 =
  run w
    (if bool_decide (is_Some (model_dump api !! "thread_id"))
        || bool_decide (is_Some (model_dump api !! "question_answer_id"))
        || bool_decide (is_Some (model_dump api !! "language"))
     then Raise (TypeError "got multiple values for keyword argument")
     else
       await (create_question_answer (thread_id m) (resp_get sent "ts")
                (bot_language config) (model_dump api)))
    (tr0 ++ answered_events config channel m h response response' api sent).
Proof.
  intros (Hres & Hhistory & Htruthy & Hquery & Hformat & Hresponse' & Hsay
          & Hup & Hdown).
  pose proof Hres as (Hack & _ & Hch & _).
  unfold docsbot_steps, channel_id_of.
  rewrite thread_id_of_dict. fold (thread_id m).
  unfold get, dict_getitem. rewrite Hch.
  unfold answered_events.
  run_with ltac:(rewrite ?Hhistory, ?Htruthy, ?Hquery, ?Hformat, ?Hup,
                   ?Hdown,
                   ?(send_message_run _ _ _ _ _ _ _ Hresponse' Hsay)).
  by rewrite <- !app_assoc.
Qed.

#[local] Transparent send_message.

(** X1.  The primary action on a thread that already has history, with
    every step succeeding, performs in this order: fetch the history;
    query the API with the question and that history; format the
    answer; send it threaded to the thread id; attach the two reactions
    to the sent message; persist the record.  No intro is sent, and the
    answer is the only message. *)
Theorem later_contact_sequence (config : Config) (w : world)
    (body : gmap string value) (message : value)
    (channel m : gmap string value) (h : value)
    (response response' : string) (api : APIResponse)
    (sent : SlackResponse) :
  answered config w body message channel m h response response' api sent →
  model_dump api !! "thread_id" = None →
  model_dump api !! "question_answer_id" = None →
  model_dump api !! "language" = None →
  answers w
    (create_question_answer (thread_id m) (resp_get sent "ts")
       (bot_language config) (model_dump api))
    (inr tt) →
  exec w (docsbot_handler config body) =
  (before_guard config body message channel m
   ++ [ Called (get_chat_history (APPLICATION config) (thread_id m));
        Called (query (dict_get m "text" VNone) h (bot_language config)
                  (APPLICATION config));
        Called (format_response api (OUTRO_MESSAGE config));
        Called (MrkdwnFormatter response);
        Called (say_text response' (thread_kw (thread_id m))
                  (SLACK_BOT_TOKEN config));
        Called (reactions_add (dict_get channel "id" VNone)
                  (resp_get sent "ts") "thumbsup" (SLACK_BOT_TOKEN config));
        Called (reactions_add (dict_get channel "id" VNone)
                  (resp_get sent "ts") "thumbsdown"
                  (SLACK_BOT_TOKEN config));
        Called (create_question_answer (thread_id m) (resp_get sent "ts")
                  (bot_language config) (model_dump api)) ],
   inr tt).
Proof.
  intros Hans Hf1 Hf2 Hf3 Hpersist. pose proof Hans as (Hres & _).
  rewrite (docsbot_handler_run _ _ _ _ _ _ Hres).
  rewrite (answered_steps _ _ _ _ _ _ _ _ _ _ _ _ Hans).
  rewrite Hf1, Hf2, Hf3.
  rewrite (bool_decide_eq_false_2 (is_Some None)) by (by intros [? ?]).
  cbn [orb]. rewrite run_await, Hpersist.
  unfold answered_events. by rewrite <- !app_assoc.
Qed.

Lemma demo_answered :
  answered en_config busy_world demo_body (VDict {[ "ts" := VStr "T9" ]})
    {[ "id" := VStr "C1" ]} demo_message busy_history "answer" "answer"
    demo_api sent_s1.
Proof.
  repeat split; try reflexivity; intros tr; reflexivity.
Defined.

Lemma later_contact_sequence_witness :
  exec busy_world (docsbot_handler en_config demo_body) =
  ([ Called ack;
     LogInfo "Received message: " (VDict demo_body);
     Called (get_initial_message (VDict {[ "ts" := VStr "T9" ]})
               (VStr "C1") "xoxb-1");
     LogInfo "Initial message: " (VDict demo_message);
     Called (get_chat_history "Slack_EN" (VStr "T2"));
     Called (query (VStr "How do I log a metric?") busy_history "en"
               "Slack_EN");
     Called (format_response demo_api "outro");
     Called (MrkdwnFormatter "answer");
     Called (say_text "answer" (Some (VStr "T2")) "xoxb-1");
     Called (reactions_add (VStr "C1") (VStr "S1") "thumbsup" "xoxb-1");
     Called (reactions_add (VStr "C1") (VStr "S1") "thumbsdown" "xoxb-1");
     Called (create_question_answer (VStr "T2") (VStr "S1") "en"
               answer_fields) ],
   inr tt).
Proof.
  etrans;
    [ apply (later_contact_sequence en_config busy_world demo_body
               (VDict {[ "ts" := VStr "T9" ]}) {[ "id" := VStr "C1" ]}
               demo_message busy_history "answer" "answer" demo_api
               sent_s1 demo_answered);
      [reflexivity | reflexivity | reflexivity | intros tr; reflexivity]
    | reflexivity ].
Defined.

(** X3.  When the structured API response has a field named
    [thread_id], [question_answer_id] or [language], the call that
    persists the record names that keyword twice: after the answer is
    sent and both reactions are attached, the [TypeError] is logged, the
    record is not persisted, and the handler returns normally. *)
Theorem keyword_collision_drops_record (config : Config) (w : world)
    (body : gmap string value) (message : value)
    (channel m : gmap string value) (h : value)
    (response response' : string) (api : APIResponse)
    (sent : SlackResponse) :
  answered config w body message channel m h response response' api sent →
  collides (model_dump api) →
  exec w (docsbot_handler config body) =
  (before_guard config body message channel m
   ++ answered_events config channel m h response response' api sent
   ++ [ LogError "Error posting message: "
          (TypeError "got multiple values for keyword argument") ],
   inr tt)
  ∧ persisted (exec w (docsbot_handler config body)).1 = [].
Proof.
  intros Hans Hcollides. pose proof Hans as (Hres & _).
  assert (Hrun : exec w (docsbot_handler config body) =
    (before_guard config body message channel m
     ++ answered_events config channel m h response response' api sent
     ++ [ LogError "Error posting message: "
            (TypeError "got multiple values for keyword argument") ],
     inr tt)).
  { rewrite (docsbot_handler_run _ _ _ _ _ _ Hres).
    rewrite (answered_steps _ _ _ _ _ _ _ _ _ _ _ _ Hans).
    assert (bool_decide (is_Some (model_dump api !! "thread_id"))
            || bool_decide (is_Some (model_dump api !! "question_answer_id"))
            || bool_decide (is_Some (model_dump api !! "language")) = true)
      as ->.
    { rewrite !orb_true_iff, !bool_decide_eq_true.
      destruct Hcollides as [?|[?|?]]; auto. }
    cbn [run]. reflexivity. }
  split; [exact Hrun|]. by rewrite Hrun.
Qed.

Lemma keyword_collision_drops_record_witness :
  exec echo_world (docsbot_handler en_config demo_body) =
  ([ Called ack;
     LogInfo "Received message: " (VDict demo_body);
     Called (get_initial_message (VDict {[ "ts" := VStr "T9" ]})
               (VStr "C1") "xoxb-1");
     LogInfo "Initial message: " (VDict demo_message);
     Called (get_chat_history "Slack_EN" (VStr "T2"));
     Called (query (VStr "How do I log a metric?") busy_history "en"
               "Slack_EN");
     Called (format_response echo_api "outro");
     Called (MrkdwnFormatter "answer");
     Called (say_text "answer" (Some (VStr "T2")) "xoxb-1");
     Called (reactions_add (VStr "C1") (VStr "S1") "thumbsup" "xoxb-1");
     Called (reactions_add (VStr "C1") (VStr "S1") "thumbsdown" "xoxb-1");
     LogError "Error posting message: "
       (TypeError "got multiple values for keyword argument") ],
   inr tt).
Proof.
  etrans;
    [ apply (proj1 (keyword_collision_drops_record en_config echo_world
                      demo_body (VDict {[ "ts" := VStr "T9" ]})
                      {[ "id" := VStr "C1" ]} demo_message busy_history
                      "answer" "answer" echo_api sent_s1
                      ltac:(repeat split; try reflexivity;
                            intros tr; reflexivity)
                      ltac:(left; eexists; reflexivity)))
    | reflexivity ].
Defined.

(** *** Action bodies that lack a key *)

Lemma resolve_without_message config w body tr :
  body !! "message" = None →
  run w (resolve_initial_message config body) tr =
  (tr ++ [LogInfo "Received message: " (VDict body)],
   inl (KeyError "message")).
Proof.
  intros Hmsg. unfold resolve_initial_message, dict_getitem.
  rewrite Hmsg. reflexivity.
Qed.

Lemma resolve_without_channel config w body message tr :
  body !! "message" = Some message →
  body !! "channel" = None →
  run w (resolve_initial_message config body) tr =
  (tr ++ [LogInfo "Received message: " (VDict body)],
   inl (KeyError "channel")).
Proof.
  intros Hmsg Hch. unfold resolve_initial_message, dict_getitem.
  rewrite Hmsg, Hch. reflexivity.
Qed.

(** X4.  An action body without its ["message"] (or, that present,
    without its ["channel"]) stops the three action handlers with a
    [KeyError] of that key: the body is logged, the originating message
    is not looked up, nothing is sent, and the exception leaves the
    handler, the primary action included (its guard starts later). *)
Theorem body_without_key_raises (config : Config) (w : world)
    (body : gmap string value) (action persona key : string) :
  answers w ack (inr tt) →
  (body !! "message" = None ∧ key = "message"%string)
  ∨ (is_Some (body !! "message") ∧ body !! "channel" = None
     ∧ key = "channel"%string) →
  exec w (docsbot_handler config body)
  = ([Called ack; LogInfo "Received message: " (VDict body)],
     inl (KeyError key))
  ∧ exec w (adcopy_handler config body)
    = ([Called ack; LogInfo "Received message: " (VDict body)],
       inl (KeyError key))
  ∧ exec w (handle_adcopy_action config body action persona)
    = ([LogInfo "Received message: " (VDict body)], inl (KeyError key)).
Proof.
  intros Hack Hkey.
  assert (Hres : ∀ tr,
    run w (resolve_initial_message config body) tr =
    (tr ++ [LogInfo "Received message: " (VDict body)], inl (KeyError key))).
  { intros tr. destruct Hkey as [[Hmsg ->]|([message Hmsg] & Hch & ->)].
    - by apply resolve_without_message.
    - by eapply resolve_without_channel. }
  unfold exec, docsbot_handler, adcopy_handler, handle_adcopy_action.
  repeat split.
  - rewrite run_bind, run_await, Hack. cbv beta iota.
    by rewrite run_bind, Hres.
  - rewrite run_bind, run_await, Hack. cbv beta iota.
    by rewrite run_bind, Hres.
  - by rewrite run_bind, Hres.
Qed.

Lemma body_without_key_raises_witness :
  exec demo_world (adcopy_handler en_config {[ "message" := VNone ]})
  = ([ Called ack;
       LogInfo "Received message: " (VDict {[ "message" := VNone ]}) ],
     inl (KeyError "channel")).
Proof.
  apply (body_without_key_raises en_config demo_world
           {[ "message" := VNone ]} "awareness" "executive" "channel").
  - intros tr; reflexivity.
  - right. split; [by eexists|]. split; reflexivity.
Defined.

(** *** The ad-copy buttons *)

Lemma adcopy_button_run config w body message channel m action persona
    resp :
  resolves config w body message channel m →
  answers w
    (generate_ads (dict_get m "text" VNone) (VStr action) (VStr persona))
    (inr resp) →
  (exec w (await ack;; handle_adcopy_action config body action persona)).1
  = [ Called ack;
      LogInfo "Received message: " (VDict body);
      Called (get_initial_message message (dict_get channel "id" VNone)
                (SLACK_BOT_TOKEN config));
      LogInfo "Initial message: " (VDict m);
      Called (generate_ads (dict_get m "text" VNone) (VStr action)
                (VStr persona)) ]
    ++ match ad_copies resp with
       | inr copies =>
           [ Called (say_positional copies (thread_id m)
                       (SLACK_BOT_TOKEN config)) ]
       | inl _ => []
       end.
Proof.
  intros Hres Hads. pose proof Hres as (Hack & _).
  unfold exec, handle_adcopy_action.
  rewrite run_bind, run_await, Hack. cbv beta iota.
  rewrite run_bind, (run_resolve_initial_message _ _ _ _ _ _ _ Hres).
  cbv beta iota. rewrite thread_id_of_dict. fold (thread_id m).
  run_with ltac:(rewrite ?Hads).
  destruct (ad_copies resp) as [e|copies]; [reflexivity|].
  run_with idtac.
  match goal with |- context [w _ ?tr ?c] => destruct (w _ tr c) end;
    reflexivity.
Qed.

(** X5.  Each of the four ad-copy buttons acknowledges the action, then
    resolves the originating message, asks the API for ad copy with the
    text of that message and the button's own action and persona
    (awareness or signups, executive or technical), and posts the copies
    to the thread of the message.  When the API response has no
    [ad_copies], nothing is posted. *)
Theorem adcopy_buttons_run (config : Config) (w : world)
    (handler : gmap string value → prog unit) (action persona : string)
    (body : gmap string value) (message : value)
    (channel m : gmap string value) (resp : APIResponse) :
  (handler, (action, persona)) ∈ adcopy_buttons config →
  resolves config w body message channel m →
  answers w
    (generate_ads (dict_get m "text" VNone) (VStr action) (VStr persona))
    (inr resp) →
  (exec w (handler body)).1
  = [ Called ack;
      LogInfo "Received message: " (VDict body);
      Called (get_initial_message message (dict_get channel "id" VNone)
                (SLACK_BOT_TOKEN config));
      LogInfo "Initial message: " (VDict m);
      Called (generate_ads (dict_get m "text" VNone) (VStr action)
                (VStr persona)) ]
    ++ match ad_copies resp with
       | inr copies =>
           [ Called (say_positional copies (thread_id m)
                       (SLACK_BOT_TOKEN config)) ]
       | inl _ => []
       end.
Proof.
  intros Hin Hres Hads. unfold adcopy_buttons in Hin.
  repeat (apply elem_of_cons in Hin as [[= -> -> ->]|Hin];
          [by apply adcopy_button_run|]).
  by apply elem_of_nil in Hin.
Qed.

Lemma adcopy_buttons_run_witness :
  (exec demo_world (technical_signups_handler en_config demo_body)).1
  = [ Called ack;
      LogInfo "Received message: " (VDict demo_body);
      Called (get_initial_message (VDict {[ "ts" := VStr "T9" ]})
                (VStr "C1") "xoxb-1");
      LogInfo "Initial message: " (VDict demo_message);
      Called (generate_ads (VStr "How do I log a metric?") (VStr "signups")
                (VStr "technical"));
      Called (say_positional (VStr "copy") (VStr "T2") "xoxb-1") ].
Proof.
  etrans;
    [ apply (adcopy_buttons_run en_config demo_world
               (technical_signups_handler en_config) "signups" "technical"
               demo_body (VDict {[ "ts" := VStr "T9" ]})
               {[ "id" := VStr "C1" ]} demo_message demo_api);
      [ do 3 apply list_elem_of_further; apply list_elem_of_here
      | repeat split; try reflexivity; intros tr; reflexivity
      | intros tr; reflexivity ]
    | reflexivity ].
Defined.

(** *** Mentions *)

(** X6.  A mention is answered under its own timestamp: the opening
    blocks are built for the mentioning user and sent with
    [thread_ts] the [ts] of the mention, whatever [thread_ts] the
    mention itself carries (a mention inside a thread is not answered
    in that thread's id), and a mention without [ts] or [user] passes
    [None] for it. *)
Theorem mention_opens_own_thread (config : Config) (w : world)
    (event : gmap string value) (block : value) :
  answers w (get_init_block (dict_get event "user" VNone)) (inr block) →
  (exec w (handle_mention config event)).1
  = [ Called (get_init_block (dict_get event "user" VNone));
      Called (say_blocks block (dict_get event "ts" VNone)
                (SLACK_BOT_TOKEN config)) ]
  ∧ ∀ v, handle_mention config (<[ "thread_ts" := v ]> event)
         = handle_mention config event.
Proof.
  intros Hblock. split.
  - unfold exec, handle_mention. run_with ltac:(rewrite ?Hblock).
    match goal with |- context [w _ ?tr ?c] => destruct (w _ tr c) end;
      reflexivity.
  - intros v. unfold handle_mention, dict_get.
    by rewrite !lookup_insert_ne.
Qed.

Lemma mention_opens_own_thread_witness :
  (exec demo_world (handle_mention en_config demo_mention)).1
  = [ Called (get_init_block (VStr "U2"));
      Called (say_blocks (VList []) (VStr "T5") "xoxb-1") ].
Proof.
  apply (proj1 (mention_opens_own_thread en_config demo_world demo_mention
                  (VList []) (λ tr, eq_refl))).
Defined.

(** *** Reactions, in every world *)

Lemma parse_reaction_range v :
  parse_reaction v = -1 ∨ parse_reaction v = 0 ∨ parse_reaction v = 1.
Proof.
  unfold parse_reaction.
  destruct (eq_str v "+1"); [auto|]. destruct (eq_str v "-1"); auto.
Qed.

#[local] Opaque parse_reaction.

(** X7.  Whatever the event holds and whatever the outside world
    answers, the reaction handler does one of three things: nothing; one
    thread lookup (of the message that the event names, alone:
    inclusive, limit 1); or that lookup followed by one feedback record,
    whose id and reaction are those of the event, whose question-answer
    id is the timestamp of that message, and whose rating is -1, 0 or
    1.  It never sends a
    message and never submits two records. *)
Theorem reaction_handler_traces (config : Config) (w : world)
    (event : gmap string value) :
  (exec w (handle_reaction_added config event)).1 = []
  ∨ ∃ item channel_id M,
      event !! "item" = Some (VDict item)
      ∧ item !! "channel" = Some channel_id
      ∧ item !! "ts" = Some M
      ∧ ((exec w (handle_reaction_added config event)).1
         = [ Called (conversations_replies channel_id M true 1
                       (SLACK_BOT_TOKEN config)) ]
         ∨ ∃ E reaction,
             event !! "event_ts" = Some E
             ∧ event !! "reaction" = Some reaction
             ∧ (parse_reaction reaction = -1 ∨ parse_reaction reaction = 0
                ∨ parse_reaction reaction = 1)
             ∧ (exec w (handle_reaction_added config event)).1
               = [ Called (conversations_replies channel_id M true 1
                             (SLACK_BOT_TOKEN config));
                   Called (create_feedback E M (parse_reaction reaction)) ]).
Proof.
  destruct (exec w (handle_reaction_added config event)) as [tr r] eqn:Hrun.
  unfold exec, handle_reaction_added, nonempty in Hrun.
  cbn [fst]. simpl in Hrun.
  repeat first
    [ injection Hrun as <- <-;
      first
        [ by left
        | right; do 3 eexists;
          split; [reflexivity|]; split; [eassumption|];
          split; [eassumption|];
          first
            [ left; reflexivity
            | right; do 2 eexists;
              split; [reflexivity|]; split; [reflexivity|];
              split; [apply parse_reaction_range|reflexivity] ] ]
    | progress unfold dict_getitem, getitem, first_item, len, get in Hrun;
      simpl in Hrun
    | match type of Hrun with
      | context [w ?X ?tr ?c] => destruct (w X tr c) eqn:?; simpl in Hrun
      | context [match ?x with _ => _ end] => destruct x eqn:?; simpl in Hrun
      | context [if ?b then _ else _] => destruct b eqn:?; simpl in Hrun
      end ].
Qed.

#[local] Transparent parse_reaction.

(** The handler up to the thread lookup. *)
Lemma reaction_lookup config w event item channel_id M conversation :
  event !! "item" = Some (VDict item) →
  item !! "channel" = Some channel_id →
  item !! "ts" = Some M →
  answers w
    (conversations_replies channel_id M true 1 (SLACK_BOT_TOKEN config))
    (inr conversation) →
  exec w (handle_reaction_added config event) =
  run w (let messages := resp_get conversation "messages" in
         has_messages ← nonempty messages;
         if has_messages : bool then
           first ← lift (first_item messages);
           thread_ts ← lift (get first "thread_ts" VNone);
           if truthy thread_ts then
             reaction ← lift (dict_getitem event "reaction");
             let rating := parse_reaction reaction in
             feedback_id ← lift (dict_getitem event "event_ts");
             await (create_feedback feedback_id M rating)
           else mret tt
         else mret tt)
    [ Called (conversations_replies channel_id M true 1
                (SLACK_BOT_TOKEN config)) ].
Proof.
  intros Hitem Hchannel Hts Hconv.
  unfold exec, handle_reaction_added, dict_getitem.
  rewrite Hitem. simpl. unfold dict_getitem. rewrite Hchannel, Hts.
  simpl. rewrite Hconv. reflexivity.
Qed.

(** X8.  A reaction event that lacks a key.  Without ["item"] the
    handler raises [KeyError] before any call is made.  The keys
    ["reaction"] and ["event_ts"] are read only once the reacted
    message is known to belong to a thread: when it does and one of them
    is missing (["reaction"] is read first), the [KeyError] leaves the
    handler after the lookup and no feedback is submitted. *)
Theorem reaction_without_key_raises (config : Config) (w : world)
    (event : gmap string value) :
  (event !! "item" = None →
   exec w (handle_reaction_added config event) = ([], inl (KeyError "item")))
  ∧ (∀ item channel_id M conversation first others t key,
       event !! "item" = Some (VDict item) →
       item !! "channel" = Some channel_id →
       item !! "ts" = Some M →
       answers w
         (conversations_replies channel_id M true 1 (SLACK_BOT_TOKEN config))
         (inr conversation) →
       resp_get conversation "messages" = VList (VDict first :: others) →
       first !! "thread_ts" = Some t →
       truthy t = true →
       (event !! "reaction" = None ∧ key = "reaction"%string)
       ∨ (is_Some (event !! "reaction") ∧ event !! "event_ts" = None
          ∧ key = "event_ts"%string) →
       exec w (handle_reaction_added config event)
       = ([ Called (conversations_replies channel_id M true 1
                      (SLACK_BOT_TOKEN config)) ],
          inl (KeyError key))).
Proof.
  split.
  - intros Hitem. unfold exec, handle_reaction_added, dict_getitem.
    by rewrite Hitem.
  - intros item channel_id M conversation first others t key
      Hitem Hchannel Hts Hconv Hmsgs Hthread Htruthy Hkey.
    rewrite (reaction_lookup _ _ _ _ _ _ _ Hitem Hchannel Hts Hconv).
    rewrite Hmsgs. unfold nonempty, dict_getitem, get, dict_get. simpl.
    rewrite Hthread. simpl. rewrite Htruthy.
    destruct Hkey as [[-> ->]|([reaction ->] & -> & ->)]; reflexivity.
Qed.

Lemma reaction_without_key_raises_witness :
  exec thread_world (handle_reaction_added en_config bare_reaction)
  = ([ Called (conversations_replies (VStr "C1") (VStr "T3") true 1
                 "xoxb-1") ],
     inl (KeyError "reaction")).
Proof.
  apply (proj2 (reaction_without_key_raises en_config thread_world
                  bare_reaction)
           {[ "channel" := VStr "C1"; "ts" := VStr "T3" ]}
           (VStr "C1") (VStr "T3") {| data := thread_replies |}
           {[ "ts" := VStr "T3"; "thread_ts" := VStr "T1" ]} []
           (VStr "T1") "reaction");
    try reflexivity.
  - intros tr; reflexivity.
  - left. split; reflexivity.
Defined.

(** *** Failures outside the guard *)

Lemma ack_first {A} w e (p : prog A) :
  answers w ack (inl e) →
  exec w (await ack;; p) = ([Called ack], inl e).
Proof. intros Hack. unfold exec. by rewrite run_bind, run_await, Hack. Qed.

(** X18.  When the acknowledgement itself fails, every action handler
    (the primary action, the ad-copy menu, the four ad-copy buttons)
    stops there: the exception leaves the handler and nothing is
    logged, looked up or sent. *)
Theorem failed_ack_stops_handler (config : Config) (w : world)
    (handler : gmap string value → prog unit) (body : gmap string value)
    (e : exn) :
  handler ∈ action_handlers config →
  answers w ack (inl e) →
  exec w (handler body) = ([Called ack], inl e).
Proof.
  intros Hin Hack. unfold action_handlers, adcopy_buttons in Hin.
  cbn [fmap list_fmap fst] in Hin.
  repeat (apply elem_of_cons in Hin as [->|Hin];
          [exact (ack_first _ _ _ Hack)|]).
  by apply elem_of_nil in Hin.
Qed.

Lemma failed_ack_stops_handler_witness :
  exec unacknowledged (technical_awareness_handler en_config demo_body)
  = ([Called ack], inl (Failure "SlackApiError")).
Proof.
  apply (failed_ack_stops_handler en_config unacknowledged
           (technical_awareness_handler en_config) demo_body
           (Failure "SlackApiError")).
  - do 4 apply list_elem_of_further. apply list_elem_of_here.
  - intros tr; reflexivity.
Defined.

(** X19.  The handlers without a guard let the failure of a call out.
    When the API cannot generate ad copy, the exception leaves
    [handle_adcopy_action] and nothing is posted; when the ad-copy
    blocks cannot be built, it leaves [adcopy_handler] and nothing is
    posted; when the thread lookup fails, it leaves the reaction
    handler and no feedback is submitted. *)
Theorem unguarded_failure_leaves (config : Config) (w : world) (e : exn) :
  (∀ body message channel m action persona,
     resolves config w body message channel m →
     answers w
       (generate_ads (dict_get m "text" VNone) (VStr action) (VStr persona))
       (inl e) →
     exec w (handle_adcopy_action config body action persona)
     = ([ LogInfo "Received message: " (VDict body);
          Called (get_initial_message message (dict_get channel "id" VNone)
                    (SLACK_BOT_TOKEN config));
          LogInfo "Initial message: " (VDict m);
          Called (generate_ads (dict_get m "text" VNone) (VStr action)
                    (VStr persona)) ],
        inl e))
  ∧ (∀ body message channel m,
       resolves config w body message channel m →
       answers w get_adcopy_blocks (inl e) →
       exec w (adcopy_handler config body)
       = ([ Called ack;
            LogInfo "Received message: " (VDict body);
            Called (get_initial_message message
                      (dict_get channel "id" VNone)
                      (SLACK_BOT_TOKEN config));
            LogInfo "Initial message: " (VDict m);
            Called get_adcopy_blocks ],
          inl e))
  ∧ (∀ event item channel_id M,
       event !! "item" = Some (VDict item) →
       item !! "channel" = Some channel_id →
       item !! "ts" = Some M →
       answers w
         (conversations_replies channel_id M true 1 (SLACK_BOT_TOKEN config))
         (inl e) →
       exec w (handle_reaction_added config event)
       = ([ Called (conversations_replies channel_id M true 1
                      (SLACK_BOT_TOKEN config)) ],
          inl e)).
Proof.
  split; [|split].
  - intros body message channel m action persona Hres Hads.
    unfold exec, handle_adcopy_action.
    rewrite run_bind, (run_resolve_initial_message _ _ _ _ _ _ _ Hres).
    cbv beta iota. by run_with ltac:(rewrite ?Hads).
  - intros body message channel m Hres Hblocks.
    pose proof Hres as (Hack & _).
    unfold exec, adcopy_handler.
    rewrite run_bind, run_await, Hack. cbv beta iota.
    rewrite run_bind, (run_resolve_initial_message _ _ _ _ _ _ _ Hres).
    cbv beta iota. rewrite thread_id_of_dict.
    by run_with ltac:(rewrite ?Hblocks).
  - intros event item channel_id M Hitem Hchannel Hts Hconv.
    unfold exec, handle_reaction_added, dict_getitem.
    rewrite Hitem. simpl. unfold dict_getitem. rewrite Hchannel, Hts.
    simpl. by rewrite Hconv.
Qed.

Lemma unguarded_failure_leaves_witness :
  exec flaky_world (handle_reaction_added en_config demo_reaction)
  = ([ Called (conversations_replies (VStr "C1") (VStr "T3") true 1
                 "xoxb-1") ],
     inl (Failure "SlackApiError")).
Proof.
  apply (proj2 (proj2 (unguarded_failure_leaves en_config flaky_world
                         (Failure "SlackApiError")))
           demo_reaction {[ "channel" := VStr "C1"; "ts" := VStr "T3" ]}
           (VStr "C1") (VStr "T3"));
    try reflexivity.
  intros tr; reflexivity.
Defined.

(** *** A message without timestamps *)

(** X20.  When the originating message carries neither [thread_ts] nor
    [ts], the thread id is [None]: on a first contact the history is
    fetched for the thread [None], and the intro and the answer are
    sent without [thread_ts], to the channel itself. *)
Theorem untimed_message_is_answered_in_channel (config : Config)
    (w : world) (body : gmap string value) (message : value)
    (channel m : gmap string value) (h : value)
    (intro intro' response response' : string) (api : APIResponse)
    (sent_intro sent : SlackResponse) :
  m !! "thread_ts" = None →
  m !! "ts" = None →
  first_contact config w body message channel m h intro intro' response
    response' api sent_intro sent →
  says (exec w (docsbot_handler config body)).1
  = [ (intro', None); (response', None) ]
  ∧ Called (get_chat_history (APPLICATION config) VNone)
    ∈ (exec w (docsbot_handler config body)).1.
Proof.
  intros Hthread Hts Hfc.
  rewrite (first_contact_run _ _ _ _ _ _ _ _ _ _ _ _ _ _ Hfc).
  assert (Htid : thread_id m = VNone).
  { unfold thread_id, py_or, dict_get. by rewrite Hthread, Hts. }
  unfold before_guard, first_contact_events. rewrite Htid. cbn [fst].
  split; [reflexivity|].
  do 4 apply list_elem_of_further. apply list_elem_of_here.
Qed.

Lemma untimed_message_is_answered_in_channel_witness :
  says (exec untimed_world (docsbot_handler en_config demo_body)).1
  = [ ("intro"%string, None); ("answer"%string, None) ].
Proof.
  apply (proj1 (untimed_message_is_answered_in_channel en_config
                  untimed_world demo_body (VDict {[ "ts" := VStr "T9" ]})
                  {[ "id" := VStr "C1" ]} untimed_message (VList [])
                  "intro" "intro" "answer" "answer" demo_api sent_s1
                  sent_s1 eq_refl eq_refl
                  ltac:(repeat split; try reflexivity;
                        intros tr; reflexivity))).
Defined.

(** *** An originating message that is no dict *)

Lemma resolve_any config w body message (channel : gmap string value) v tr :
  body !! "message" = Some message →
  body !! "channel" = Some (VDict channel) →
  answers w
    (get_initial_message message (dict_get channel "id" VNone)
       (SLACK_BOT_TOKEN config))
    (inr v) →
  run w (resolve_initial_message config body) tr =
  (tr ++ [ LogInfo "Received message: " (VDict body);
           Called (get_initial_message message
                     (dict_get channel "id" VNone)
                     (SLACK_BOT_TOKEN config));
           LogInfo "Initial message: " v ],
   inr v).
Proof.
  intros Hmsg Hch Hinit.
  unfold resolve_initial_message, dict_getitem.
  run_with ltac:(rewrite ?Hmsg, ?Hch, ?Hinit).
  by rewrite <- !app_assoc.
Qed.

(** X22.  When the lookup of the originating message answers an object
    that is no dict ([None], say), the first [.get] on it raises
    [AttributeError].  In the primary action this happens inside the
    guard: the error is logged, no further call is made and the handler
    returns normally.  In [adcopy_handler] and [handle_adcopy_action]
    the exception leaves the handler, and nothing is asked of the API or
    sent. *)
Theorem lost_message_is_an_attribute_error (config : Config) (w : world)
    (body : gmap string value) (message : value)
    (channel : gmap string value) (v : value) (action persona : string) :
  answers w ack (inr tt) →
  body !! "message" = Some message →
  body !! "channel" = Some (VDict channel) →
  answers w
    (get_initial_message message (dict_get channel "id" VNone)
       (SLACK_BOT_TOKEN config))
    (inr v) →
  (∀ d, v ≠ VDict d) →
  exec w (docsbot_handler config body)
  = ([ Called ack;
       LogInfo "Received message: " (VDict body);
       Called (get_initial_message message (dict_get channel "id" VNone)
                 (SLACK_BOT_TOKEN config));
       LogInfo "Initial message: " v;
       LogError "Error posting message: " (AttributeError "get") ],
     inr tt)
  ∧ exec w (adcopy_handler config body)
    = ([ Called ack;
         LogInfo "Received message: " (VDict body);
         Called (get_initial_message message (dict_get channel "id" VNone)
                   (SLACK_BOT_TOKEN config));
         LogInfo "Initial message: " v ],
       inl (AttributeError "get"))
  ∧ exec w (handle_adcopy_action config body action persona)
    = ([ LogInfo "Received message: " (VDict body);
         Called (get_initial_message message (dict_get channel "id" VNone)
                   (SLACK_BOT_TOKEN config));
         LogInfo "Initial message: " v ],
       inl (AttributeError "get")).
Proof.
  intros Hack Hmsg Hch Hinit Hv.
  assert (Hget : ∀ key, get v key VNone = inl (AttributeError "get")).
  { intros key. destruct v; try done. by destruct (Hv d). }
  unfold exec, docsbot_handler, adcopy_handler, handle_adcopy_action.
  repeat split.
  - rewrite run_bind, run_await, Hack. cbv beta iota.
    rewrite run_bind, (resolve_any _ _ _ _ _ _ _ Hmsg Hch Hinit).
    cbv beta iota. rewrite run_try. unfold docsbot_steps.
    rewrite run_bind, run_lift, Hget. reflexivity.
  - rewrite run_bind, run_await, Hack. cbv beta iota.
    rewrite run_bind, (resolve_any _ _ _ _ _ _ _ Hmsg Hch Hinit).
    cbv beta iota. unfold thread_id_of.
    rewrite run_bind, run_bind, run_lift, Hget. reflexivity.
  - rewrite run_bind, (resolve_any _ _ _ _ _ _ _ Hmsg Hch Hinit).
    cbv beta iota. rewrite run_bind, run_lift, Hget. reflexivity.
Qed.

Lemma lost_message_is_an_attribute_error_witness :
  exec lost_world (docsbot_handler en_config demo_body)
  = ([ Called ack;
       LogInfo "Received message: " (VDict demo_body);
       Called (get_initial_message (VDict {[ "ts" := VStr "T9" ]})
                 (VStr "C1") "xoxb-1");
       LogInfo "Initial message: " VNone;
       LogError "Error posting message: " (AttributeError "get") ],
     inr tt).
Proof.
  apply (proj1 (lost_message_is_an_attribute_error en_config lost_world
                  demo_body (VDict {[ "ts" := VStr "T9" ]})
                  {[ "id" := VStr "C1" ]} VNone "awareness" "executive"
                  (λ tr, eq_refl) eq_refl eq_refl (λ tr, eq_refl)
                  ltac:(discriminate))).
Defined.

(** *** A first contact whose query fails *)

#[local] Opaque send_message.

Lemma failed_query_steps config w body message channel m h intro intro'
    sent_intro e tr0 :
  resolves config w body message channel m →
  answers w (get_chat_history (APPLICATION config) (thread_id m)) (inr h) →
  truthy h = false →
  answers w (intro_message_format (dict_get m "user" VNone)) (inr intro) →
  answers w (MrkdwnFormatter intro) (inr intro') →
  answers w
    (say_text intro' (thread_kw (thread_id m)) (SLACK_BOT_TOKEN config))
    (inr sent_intro) →
  answers w
    (query (dict_get m "text" VNone) h (bot_language config)
       (APPLICATION config))
    (inl e) →
  run w (docsbot_steps config body (VDict m)) tr0
  = (tr0
     ++ [ Called (get_chat_history (APPLICATION config) (thread_id m));
          Called (intro_message_format (dict_get m "user" VNone));
          Called (MrkdwnFormatter intro);
          Called (say_text intro' (thread_kw (thread_id m))
                    (SLACK_BOT_TOKEN config));
          Called (query (dict_get m "text" VNone) h (bot_language config)
                    (APPLICATION config)) ],
     inl e).
Proof.
  intros Hres Hhistory Hempty Hintro Hintro' Hsay Hquery.
  pose proof Hres as (_ & _ & Hch & _).
  unfold docsbot_steps, channel_id_of.
  rewrite thread_id_of_dict. fold (thread_id m).
  unfold get, dict_getitem. rewrite Hch.
  run_with ltac:(rewrite ?Hhistory, ?Hempty, ?Hintro, ?Hquery,
                   ?(send_message_run _ _ _ _ _ _ _ Hintro' Hsay)).
  by rewrite <- !app_assoc.
Qed.

#[local] Transparent send_message.

(** X23.  Nothing of a failed run is taken back.  On a first contact in
    which the intro is sent and the query of the API then raises, the
    intro stays sent: the trace ends with the query and the error log,
    no answer is sent, no reaction is added, no record is persisted,
    and the handler returns normally. *)
Theorem failed_query_leaves_intro (config : Config) (w : world)
    (body : gmap string value) (message : value)
    (channel m : gmap string value) (h : value) (intro intro' : string)
    (sent_intro : SlackResponse) (e : exn) :
  resolves config w body message channel m →
  answers w (get_chat_history (APPLICATION config) (thread_id m)) (inr h) →
  truthy h = false →
  answers w (intro_message_format (dict_get m "user" VNone)) (inr intro) →
  answers w (MrkdwnFormatter intro) (inr intro') →
  answers w
    (say_text intro' (thread_kw (thread_id m)) (SLACK_BOT_TOKEN config))
    (inr sent_intro) →
  answers w
    (query (dict_get m "text" VNone) h (bot_language config)
       (APPLICATION config))
    (inl e) →
  exec w (docsbot_handler config body)
  = (before_guard config body message channel m
     ++ [ Called (get_chat_history (APPLICATION config) (thread_id m));
          Called (intro_message_format (dict_get m "user" VNone));
          Called (MrkdwnFormatter intro);
          Called (say_text intro' (thread_kw (thread_id m))
                    (SLACK_BOT_TOKEN config));
          Called (query (dict_get m "text" VNone) h (bot_language config)
                    (APPLICATION config));
          LogError "Error posting message: " e ],
     inr tt)
  ∧ says (exec w (docsbot_handler config body)).1
    = [ (intro', thread_kw (thread_id m)) ]
  ∧ persisted (exec w (docsbot_handler config body)).1 = [].
Proof.
  intros Hres Hhistory Hempty Hintro Hintro' Hsay Hquery.
  rewrite (docsbot_handler_run _ _ _ _ _ _ Hres).
  rewrite (failed_query_steps _ _ _ _ _ _ _ _ _ _ _ _ Hres Hhistory Hempty
             Hintro Hintro' Hsay Hquery).
  repeat split.
Qed.

Lemma failed_query_leaves_intro_witness :
  says (exec flaky_world (docsbot_handler en_config demo_body)).1
  = [ ("intro"%string, Some (VStr "T2")) ]
  ∧ persisted (exec flaky_world (docsbot_handler en_config demo_body)).1
    = [].
Proof.
  apply (proj2 (failed_query_leaves_intro en_config flaky_world demo_body
                  (VDict {[ "ts" := VStr "T9" ]}) {[ "id" := VStr "C1" ]}
                  demo_message (VList []) "intro" "intro" sent_s1
                  (Failure "HTTPError")
                  ltac:(repeat split; try reflexivity;
                        intros tr; reflexivity)
                  (λ tr, eq_refl) eq_refl (λ tr, eq_refl) (λ tr, eq_refl)
                  (λ tr, eq_refl) (λ tr, eq_refl))).
Defined.

End RunsFacts.

(** ** More on the index loader *)

Module LoaderFacts.
Import Py Eff Utils Runs EffFacts.

(** X9.  The guard of [load_index] covers the load only.  When the load
    fails and the build of the new index fails too, that second
    exception leaves [load_index] and nothing is persisted; when the
    build succeeds and the write fails, the exception of the write
    leaves [load_index] and the built index is not returned. *)
Theorem load_index_failures (w : world) (nodes : list string)
    (service_context storage_context persist_dir : string) (e : exn) :
  w _ [] (load_index_from_storage storage_context) = inl e →
  (∀ e',
     w _ [ Called (load_index_from_storage storage_context) ]
       (VectorStoreIndex nodes service_context storage_context true)
     = inl e' →
     exec w (load_index nodes service_context storage_context persist_dir)
     = ([ Called (load_index_from_storage storage_context);
          Called (VectorStoreIndex nodes service_context storage_context
                    true) ],
        inl e'))
  ∧ (∀ index e',
       w _ [ Called (load_index_from_storage storage_context) ]
         (VectorStoreIndex nodes service_context storage_context true)
       = inr index →
       w _ [ Called (load_index_from_storage storage_context);
             Called (VectorStoreIndex nodes service_context
                       storage_context true) ]
         (persist (storage_context_of index) persist_dir)
       = inl e' →
       exec w (load_index nodes service_context storage_context persist_dir)
       = ([ Called (load_index_from_storage storage_context);
            Called (VectorStoreIndex nodes service_context storage_context
                      true);
            Called (persist (storage_context_of index) persist_dir) ],
          inl e')).
Proof.
  intros Hload. unfold exec, load_index. split.
  - intros e' Hbuild. simpl. rewrite Hload. simpl. rewrite Hbuild.
    reflexivity.
  - intros index e' Hbuild Hpersist. simpl. rewrite Hload. simpl.
    rewrite Hbuild. simpl. rewrite Hpersist. reflexivity.
Qed.

Lemma load_index_failures_witness :
  exec failing_store (load_index ["n1"; "n2"] "svc" "store" "/data")
  = ([ Called (load_index_from_storage "store");
       Called (VectorStoreIndex ["n1"; "n2"] "svc" "store" true) ],
     inl (Failure "EmbeddingError"))
  ∧ exec read_only_store (load_index ["n1"; "n2"] "svc" "store" "/data")
    = ([ Called (load_index_from_storage "store");
         Called (VectorStoreIndex ["n1"; "n2"] "svc" "store" true);
         Called (persist "store" "/data") ],
       inl (Failure "PermissionError")).
Proof.
  split.
  - apply (proj1 (load_index_failures failing_store ["n1"; "n2"] "svc"
                    "store" "/data" (ValueError "No index in storage")
                    eq_refl)).
    reflexivity.
  - apply (proj2 (load_index_failures read_only_store ["n1"; "n2"] "svc"
                    "store" "/data" (ValueError "No index in storage")
                    eq_refl)
             {| index_id := "built"; storage_context_of := "store" |});
      reflexivity.
Defined.

End LoaderFacts.

(** ** More on the template formatter *)

Module FormatterFacts.
Import Py Prompts PromptsFacts.

(** *** Names that the template does not use *)

(** X10.  [partial_format] looks at the supplied values only under the
    field names of the template: two sets of values that agree on these
    names, neither with a value under the name [s] (which the call
    rejects, being the name of the function's first parameter), give the
    same result, so a value supplied under any other name is ignored. *)
Theorem unused_names_are_ignored
    (set_order : list text → list text) (s : text)
    (kwargs kwargs' : gmap text text) :
  enumerates set_order →
  kwargs !! str "s" = None →
  kwargs' !! str "s" = None →
  (∀ items k, Formatter_parse s = inr items → k ∈ field_names items →
              kwargs !! k = kwargs' !! k) →
  partial_format set_order s kwargs = partial_format set_order s kwargs'.
Proof.
  intros Horder Hs Hs' Hagree. unfold partial_format. rewrite Hs, Hs'.
  destruct (Formatter_parse s) as [e|items] eqn:Hparse; [done|].
  destruct (Horder (field_names items)) as [_ Hks].
  replace ((λ k, (k, default (braced k) (kwargs !! k)))
             <$> set_order (field_names items))
    with ((λ k, (k, default (braced k) (kwargs' !! k)))
            <$> set_order (field_names items)); [done|].
  apply list_fmap_ext. intros i k Hk.
  rewrite (Hagree items k eq_refl); [done|].
  apply Hks. by eapply list_elem_of_lookup_2.
Qed.

Lemma unused_names_are_ignored_witness :
  partial_format last_seen (render greeting)
    (<[ str "team" := str "core" ]> bob_kwargs)
  = partial_format last_seen (render greeting) bob_kwargs.
Proof.
  apply (unused_names_are_ignored last_seen (render greeting)
           (<[ str "team" := str "core" ]> bob_kwargs) bob_kwargs
           last_seen_enumerates); [reflexivity..|].
  intros items k Hparse Hk.
  assert (Hitems : items = items_of greeting).
  { assert (H : Formatter_parse (render greeting) = inr (items_of greeting))
      by reflexivity.
    congruence. }
  subst items.
  apply lookup_insert_ne. intros <-.
  revert Hk. vm_compute. intros Hk.
  repeat (apply elem_of_cons in Hk as [Hk|Hk]; [discriminate Hk|]).
  by apply elem_of_nil in Hk.
Defined.

(** *** Escaping, then formatting *)

(** X11.  The escaping of line 37 is undone by [format]: a text whose
    braces have all been doubled formats to the text itself, whatever
    the keyword arguments, and raises nothing. *)
Theorem escaped_text_formats_back (x : text) (kwargs : gmap text text) :
  format (replace (replace x (str "{") (str "{{")) (str "}") (str "}}"))
    kwargs
  = Returned x.
Proof.
  change (str "{") with ["{"%char]. change (str "}") with ["}"%char].
  rewrite !replace_nonempty by done. rewrite !replace_from_char.
  fold (escape_text x). rewrite <- render_char_tokens.
  rewrite format_render.
  - by rewrite formatted_char_tokens.
  - apply plain_char_tokens.
  - intros k Hk. rewrite holes_char_tokens in Hk.
    by apply elem_of_nil in Hk.
Qed.

(** *** Templates without replacement fields *)

Lemma span_literal_spec s lit r :
  span_literal s = (lit, r) →
  brace_free lit = true
  ∧ match r with
    | None => s = lit
    | Some (c, rest) => s = lit ++ c :: rest ∧ is_brace c = true
    end.
Proof.
  revert lit r; induction s as [|a s IH]; intros lit r; cbn [span_literal].
  { by intros [= <- <-]. }
  destruct (is_brace a) eqn:Ha.
  { by intros [= <- <-]. }
  destruct (span_literal s) as [lit' r'].
  intros [= <- <-]. destruct (IH _ _ eq_refl) as [Hlit Hs].
  split; [by apply brace_free_cons|].
  destruct r' as [[c rest]|]; [|by rewrite Hs].
  destruct Hs as [-> Hc]. done.
Qed.

Lemma names_lit_tokens v : names (Lit <$> v) = [].
Proof. unfold names. by induction v. Qed.

Lemma names_app l1 l2 : names (l1 ++ l2) = names l1 ++ names l2.
Proof. apply omap_app. Qed.

Lemma render_app l1 l2 : render (l1 ++ l2) = render l1 ++ render l2.
Proof. apply flat_map_app. Qed.

(** A text that parses without any replacement field is made of
    characters other than braces and of doubled braces. *)
Lemma no_field_tokens fuel s items :
  (List.length s < fuel)%nat →
  markup_steps fuel s = (items, None) →
  field_names items = [] →
  ∃ toks, s = render toks ∧ forallb template_token toks = true
          ∧ names toks = [].
Proof.
  revert s items; induction fuel as [|fuel IH]; intros s items Hfuel;
    [lia|].
  rewrite markup_steps_S.
  destruct (markup_next s) as [e|[[it rest]|]] eqn:Hnext; [done| |].
  2: { intros _ _. destruct s as [|a s]; [by exists []|].
       by apply markup_next_nonempty in Hnext. }
  pose proof (markup_next_length _ _ _ Hnext) as Hlen.
  destruct (markup_steps fuel rest) as [items' err] eqn:Hrest.
  intros [= <- ->] Hnames.
  assert (Hfield : field_of it = None ∧ field_names items' = []).
  { unfold field_names in Hnames |- *. cbn [omap list_omap] in Hnames.
    destruct (field_of it); [done|]. done. }
  destruct Hfield as [Hfield Hnames'].
  destruct (IH rest items' ltac:(lia) Hrest Hnames')
    as (toks' & Hr & Htoks' & Hn').
  unfold markup_next in Hnext. destruct s as [|a s]; [done|].
  destruct (span_literal (a :: s)) as [lit [[c r]|]] eqn:Hspan.
  - destruct (span_literal_spec _ _ _ Hspan) as [Hlit [Hs Hc]].
    destruct r as [|c' r']; [by destruct (Ascii.eqb c "}")|].
    destruct (Ascii.eqb_spec c c') as [<-|Hcc].
    + injection Hnext as <- <-.
      exists ((Lit <$> lit) ++ (if Ascii.eqb c "{" then Open else Close)
                :: toks').
      rewrite Hs, Hr, render_app, render_lits, names_app, names_lit_tokens.
      rewrite forallb_app, (template_lits _ Hlit).
      unfold is_brace in Hc. apply orb_true_iff in Hc.
      destruct (Ascii.eqb_spec c "{") as [->|_]; [done|].
      destruct Hc as [?|Hc]; [done|]. apply Ascii.eqb_eq in Hc as ->.
      done.
    + destruct (Ascii.eqb c "}"); [done|].
      destruct (parse_field (c' :: r')) as [e|[f rest']]; [done|].
      injection Hnext as <- <-. done.
  - destruct (span_literal_spec _ _ _ Hspan) as [Hlit Hs].
    injection Hnext as <- <-. exists (Lit <$> lit).
    rewrite Hs, render_lits, names_lit_tokens.
    by rewrite (template_lits _ Hlit).
Qed.

Lemma expand_without_holes kwargs toks :
  names toks = [] → expand kwargs toks = render toks.
Proof.
  intros Hn. unfold expand, render.
  induction toks as [|t ts IH]; [done|].
  destruct t as [c| | |k|body]; try done; cbn [flat_map]; f_equal;
    by apply IH.
Qed.

(** X12.  A text in which [Formatter.parse] finds no replacement field
    comes back unchanged, whatever is supplied under names other than
    [s] (the name of the function's first parameter): its doubled braces
    stay doubled. *)
Theorem fieldless_text_is_unchanged
    (set_order : list text → list text) (s : text)
    (kwargs : gmap text text) (items : list item) :
  enumerates set_order →
  kwargs !! str "s" = None →
  Formatter_parse s = inr items →
  field_names items = [] →
  partial_format set_order s kwargs = Returned s.
Proof.
  intros Horder Hs Hparse Hnames.
  unfold Formatter_parse, markup in Hparse.
  destruct (markup_steps (S (List.length s)) s) as [items' [e|]] eqn:Hm;
    [done|].
  injection Hparse as ->.
  destruct (no_field_tokens _ _ _ (Nat.lt_succ_diag_r _) Hm Hnames)
    as (toks & -> & Htoks & Hn).
  rewrite partial_format_tokens; [|done|done| |done].
  - by rewrite expand_without_holes.
  - unfold interference_free. by rewrite Hn.
Qed.

Lemma fieldless_text_is_unchanged_witness :
  partial_format last_seen (str "a {{b}} c") bob_kwargs
  = Returned (str "a {{b}} c").
Proof.
  apply (fieldless_text_is_unchanged last_seen (str "a {{b}} c") bob_kwargs
           [ {| literal := str "a {"; field_of := None |};
             {| literal := str "b}"; field_of := None |};
             {| literal := str " c"; field_of := None |} ]
           last_seen_enumerates eq_refl eq_refl eq_refl).
Defined.

(** *** Formatting in two steps *)

Lemma expand_after_fill (first second : gmap text text) toks :
  expand second (fill first toks) = expand (first ∪ second) toks.
Proof.
  unfold expand, fill.
  induction toks as [|t ts IH]; [done|].
  cbn [flat_map]. rewrite flat_map_app, IH. f_equal.
  destruct t as [c| | |k|body]; try (by cbn [flat_map]; rewrite app_nil_r).
  destruct (first !! k) as [v|] eqn:Hk.
  - rewrite (lookup_union_Some_l _ _ _ _ Hk). cbn [default].
    clear. induction v as [|c v IH]; [done|].
    cbn [fmap list_fmap flat_map piece_plain]. by rewrite IH.
  - rewrite (lookup_union_r _ _ _ Hk). cbn [flat_map].
    by rewrite app_nil_r.
Qed.

(** X13.  Formatting in two steps is formatting in one.  For a template
    of the specified class (its placeholders with plain names), two sets
    of values without a value under the name [s], values for the first
    step without braces, and a first output in which the two textual
    substitutions still hit placeholders only: formatting the output of
    the first step with the second set of values gives what one call
    with both sets gives (the first set winning on a name that both
    supply), and formatting it again with nothing supplied changes
    nothing. *)
Theorem two_steps_as_one
    (set_order : list text → list text) (toks : list token)
    (first second : gmap text text) :
  enumerates set_order →
  forallb template_token toks = true →
  interference_free toks = true →
  first !! str "s" = None →
  second !! str "s" = None →
  (∀ k v, k ∈ holes toks → first !! k = Some v → brace_free v = true) →
  interference_free (fill first toks) = true →
  ∃ out,
    partial_format set_order (render toks) first = Returned out
    ∧ partial_format set_order out second
      = partial_format set_order (render toks) (first ∪ second)
    ∧ partial_format set_order out second
      = Returned (expand (first ∪ second) toks)
    ∧ partial_format set_order out ∅ = Returned out.
Proof.
  intros Horder Htoks Hfree Hs Hs' Hvalues Hfree'.
  exists (expand first toks).
  pose proof (template_fill _ _ Htoks Hvalues) as Hfill.
  assert (Hboth : (first ∪ second) !! str "s" = None)
    by by apply lookup_union_None.
  split; [by apply partial_format_tokens|].
  rewrite expand_fill.
  rewrite !(partial_format_tokens _ (fill first toks)) by done.
  rewrite (partial_format_tokens _ toks) by done.
  rewrite expand_after_fill, expand_empty. done.
Qed.

Lemma two_steps_as_one_witness :
  ∃ out,
    partial_format last_seen (render greeting) bob_kwargs = Returned out
    ∧ partial_format last_seen out (kw [("lang", "en")])
      = partial_format last_seen (render greeting)
          (bob_kwargs ∪ kw [("lang", "en")])
    ∧ partial_format last_seen out (kw [("lang", "en")])
      = Returned (expand (bob_kwargs ∪ kw [("lang", "en")]) greeting)
    ∧ partial_format last_seen out ∅ = Returned out.
Proof.
  apply (two_steps_as_one last_seen greeting bob_kwargs
           (kw [("lang", "en")]) last_seen_enumerates eq_refl eq_refl
           eq_refl eq_refl).
  - intros k v _ Hv. unfold bob_kwargs in Hv.
    apply lookup_singleton_Some in Hv as [_ <-].
    reflexivity.
  - vm_compute. reflexivity.
Defined.

(** *** Braces that are not closed *)

Lemma span_literal_brace x b r :
  brace_free x = true → is_brace b = true →
  span_literal (x ++ b :: r) = (x, Some (b, r)).
Proof.
  intros Hx Hb. induction x as [|a x IH]; cbn [app span_literal].
  { by rewrite Hb. }
  apply brace_free_cons in Hx as [Ha Hx]. by rewrite Ha, (IH Hx).
Qed.

Lemma scan_name_brace_free b z :
  brace_free z = true →
  scan_name b z = NameOpen
  ∨ ∃ name t rest, scan_name b z = NameEnd name t rest
                   ∧ Ascii.eqb t "}" = false ∧ brace_free rest = true.
Proof.
  revert b; induction z as [|c z IH]; intros b Hz; [by left|].
  apply brace_free_cons in Hz as [Hc Hz].
  unfold is_brace in Hc. apply orb_false_iff in Hc as [Hc1 Hc2].
  assert (Hcons : ∀ b',
    name_cons c (scan_name b' z) = NameOpen
    ∨ ∃ name t rest, name_cons c (scan_name b' z) = NameEnd name t rest
                     ∧ Ascii.eqb t "}" = false ∧ brace_free rest = true).
  { intros b'. destruct (IH b' Hz) as [->|(name & t & rest & -> & ?)];
      [by left|right]. by exists (c :: name), t, rest. }
  cbn [scan_name]. destruct b; [apply Hcons|].
  rewrite Hc1. destruct (Ascii.eqb c "["); [apply Hcons|].
  rewrite Hc2. cbn [orb].
  destruct (Ascii.eqb c ":" || Ascii.eqb c "!"); [|apply Hcons].
  right. by exists [], c, z.
Qed.

Lemma scan_spec_brace_free d z :
  brace_free z = true → scan_spec d z = None.
Proof.
  induction z as [|c z IH]; [done|].
  intros [Hc Hz]%brace_free_cons.
  unfold is_brace in Hc. apply orb_false_iff in Hc as [Hc1 Hc2].
  cbn [scan_spec]. by rewrite Hc1, Hc2, (IH Hz).
Qed.

Lemma spec_field_brace_free name conv z :
  brace_free z = true →
  spec_field name conv z = inl (ValueError "unmatched '{' in format spec").
Proof. intros Hz. unfold spec_field. by rewrite scan_spec_brace_free. Qed.

Lemma span_continuation_brace_free s more rest :
  span_continuation s = (more, rest) →
  brace_free s = true → brace_free rest = true.
Proof.
  revert more rest; induction s as [|a s IH]; intros more rest;
    cbn [span_continuation].
  { by intros [= _ <-]. }
  destruct (is_continuation a); [|by intros [= _ <-]].
  destruct (span_continuation s) as [more' rest'].
  intros [= _ <-] [_ Hs]%brace_free_cons. by eapply IH.
Qed.

Lemma first_char_brace_free s c rest :
  first_char s = Some (c, rest) →
  brace_free s = true → brace_free rest = true.
Proof.
  destruct s as [|a s]; [done|]. cbn [first_char].
  destruct (span_continuation s) as [more rest'] eqn:E.
  intros [= _ <-] [_ Hs]%brace_free_cons.
  by eapply span_continuation_brace_free.
Qed.

Lemma parse_field_brace_free z :
  brace_free z = true → ∃ msg, parse_field z = inl (ValueError msg).
Proof.
  intros Hz. unfold parse_field.
  destruct (scan_name_brace_free false z Hz)
    as [->|(name & t & rest & -> & Ht & Hrest)]; [by eexists|].
  rewrite Ht. destruct (Ascii.eqb t ":").
  { rewrite spec_field_brace_free by done. by eexists. }
  destruct (first_char rest) as [[conv rest1]|] eqn:Hconv; [|by eexists].
  apply first_char_brace_free in Hconv; [|done].
  destruct rest1 as [|c rest2]; [by eexists|].
  apply brace_free_cons in Hconv as [Hc Hrest2].
  unfold is_brace in Hc. apply orb_false_iff in Hc as [_ Hc].
  rewrite Hc. destruct (Ascii.eqb c ":"); [|by eexists].
  rewrite spec_field_brace_free by done. by eexists.
Qed.

Lemma parse_error_raises set_order s kwargs e :
  kwargs !! str "s" = None →
  markup_next s = inl e → partial_format set_order s kwargs = Raised e.
Proof.
  intros Hs Hnext. unfold partial_format, Formatter_parse, markup.
  by rewrite Hs, markup_steps_S, Hnext.
Qed.

(** X14.  A brace that is not closed makes [partial_format] raise: a
    template whose first brace is an opening one with no brace after it
    raises [ValueError], and so does a template whose first brace is a
    closing one that is not doubled.  No value is substituted and
    nothing is returned, whatever is supplied under names other than
    [s] (a value under the name [s] is rejected before the template is
    looked at). *)
Theorem unclosed_brace_raises
    (set_order : list text → list text) (x z : text)
    (kwargs : gmap text text) :
  kwargs !! str "s" = None →
  brace_free x = true →
  (brace_free z = true →
   ∃ msg, partial_format set_order (x ++ str "{" ++ z) kwargs
          = Raised (ValueError msg))
  ∧ (starts_with (str "}") z = false →
     partial_format set_order (x ++ str "}" ++ z) kwargs
     = Raised (ValueError "Single '}' encountered in format string")).
Proof.
  intros Hkw Hx. split.
  - intros Hz.
    enough (∃ msg, markup_next (x ++ str "{" ++ z) = inl (ValueError msg))
      as [msg Hm] by (exists msg; by apply parse_error_raises).
    unfold markup_next.
    destruct (x ++ str "{" ++ z) as [|a s] eqn:Hs; [by destruct x|].
    rewrite <- Hs. change (str "{" ++ z) with ("{"%char :: z).
    rewrite (span_literal_brace x "{"%char z Hx eq_refl).
    destruct z as [|c' r']; [by eexists|].
    pose proof Hz as [Hc _]%brace_free_cons.
    unfold is_brace in Hc. apply orb_false_iff in Hc as [Hc _].
    rewrite (Ascii.eqb_sym "{" c'), Hc.
    change (Ascii.eqb "{" "}") with false. cbv iota.
    destruct (parse_field_brace_free _ Hz) as [msg ->]. by eexists.
  - intros Hz. apply parse_error_raises; [done|]. unfold markup_next.
    destruct (x ++ str "}" ++ z) as [|a s] eqn:Hs; [by destruct x|].
    rewrite <- Hs. change (str "}" ++ z) with ("}"%char :: z).
    rewrite (span_literal_brace x "}"%char z Hx eq_refl).
    destruct z as [|c' r']; [done|].
    change (starts_with (str "}") (c' :: r')) with (Ascii.eqb "}" c' && true)
      in Hz.
    rewrite andb_true_r in Hz. by rewrite Hz.
Qed.

Lemma unclosed_brace_raises_witness :
  (∃ msg, partial_format last_seen (str "Hi {user") bob_kwargs
          = Raised (ValueError msg))
  ∧ partial_format last_seen (str "a } b") bob_kwargs
    = Raised (ValueError "Single '}' encountered in format string").
Proof.
  split.
  - apply (proj1 (unclosed_brace_raises last_seen (str "Hi ") (str "user")
                    bob_kwargs eq_refl eq_refl) eq_refl).
  - apply (proj2 (unclosed_brace_raises last_seen (str "a ") (str " b")
                    bob_kwargs eq_refl eq_refl) eq_refl).
Defined.

End FormatterFacts.

(** ** Loading a chat prompt *)

Module ChatPromptFacts.
Import Py Prompts ChatPrompt PromptsFacts.

Lemma bind_value {A B} (a : A) (f : A → answer B) : (Value a ≫= f) = f a.
Proof. reflexivity. Qed.

Lemma bind_error {A B} e (f : A → answer B) : (Error e ≫= f) = Error e.
Proof. reflexivity. Qed.

Lemma last_item_snoc l x : last_item (VList (l ++ [x])) = inr x.
Proof. unfold last_item. by rewrite last_snoc. Qed.

Lemma but_last_snoc l x : but_last (VList (l ++ [x])) = inr l.
Proof. unfold but_last. by rewrite removelast_last. Qed.

(** The entries of an object with one entry. *)
Lemma items_single outside entry :
  enumerates_entries (dict_items outside) →
  items outside (single entry) = inr [entry].
Proof.
  intros Hitems. unfold items, single. f_equal.
  specialize (Hitems {[ entry.1 := entry.2 ]}).
  rewrite map_to_list_singleton in Hitems.
  apply Permutation_singleton_r in Hitems. rewrite Hitems.
  by destruct entry.
Qed.

(** The file, read up to the text of the human template. *)
Lemma load_chat_prompt_read outside path lc qi t earlier last :
  json_load outside path = inr (VDict t) →
  t !! "messages" = Some (VList (earlier ++ [VDict last])) →
  load_chat_prompt outside (Some path) lc qi =
  (human ← of_result (dict_getitem last "human");
   human_template ← format_human outside human lc qi;
   chat ← for_each (chat_messages outside) earlier;
   user ←
     of_result
       (ChatMessage outside USER
          (VStr (string_of_list_ascii human_template)));
   of_result (ChatPromptTemplate outside (List.concat chat ++ [user]))).
Proof.
  intros Hload Hmsgs. unfold load_chat_prompt.
  cbn [Path of_result]. rewrite bind_value, Hload.
  cbn [of_result]. rewrite bind_value.
  cbn [getitem]. unfold dict_getitem at 1 2. rewrite Hmsgs.
  cbn [of_result]. rewrite bind_value, last_item_snoc.
  cbn [of_result getitem]. rewrite bind_value.
  change (getitem (VDict last) "human") with (dict_getitem last "human").
  destruct (dict_getitem last "human") as [e|human]; [done|].
  cbn [of_result]. rewrite !bind_value.
  destruct (format_human outside human lc qi) as [ht|e|]; [|done..].
  rewrite !bind_value, but_last_snoc. cbn [of_result].
  by rewrite bind_value.
Qed.

(** X15.  What [load_chat_prompt] raises before any message is built.
    Called without [f_name] (its default, [None]) it raises [TypeError]
    and reads no file.  An exception of the reading leaves the function
    as it is.  A file whose object has no ["messages"] gives
    [KeyError]; an empty list of messages gives [IndexError]; a last
    message without ["human"] gives [KeyError]; a human template that
    is not a string gives [TypeError]. *)
Theorem load_chat_prompt_failures (outside : Outside)
    (language_code query_intent : text) :
  load_chat_prompt outside None language_code query_intent
  = Error (TypeError
             "expected str, bytes or os.PathLike object, not NoneType")
  ∧ ∀ path,
      (∀ e, json_load outside path = inl e →
            load_chat_prompt outside (Some path) language_code query_intent
            = Error e)
      ∧ ∀ t,
          json_load outside path = inr (VDict t) →
          (t !! "messages" = None →
           load_chat_prompt outside (Some path) language_code query_intent
           = Error (KeyError "messages"))
          ∧ (t !! "messages" = Some (VList []) →
             load_chat_prompt outside (Some path) language_code
               query_intent
             = Error IndexError)
          ∧ ∀ earlier last,
              t !! "messages" = Some (VList (earlier ++ [VDict last])) →
              (last !! "human" = None →
               load_chat_prompt outside (Some path) language_code
                 query_intent
               = Error (KeyError "human"))
              ∧ ∀ v,
                  last !! "human" = Some v →
                  (∀ s, v ≠ VStr s) →
                  load_chat_prompt outside (Some path) language_code
                    query_intent
                  = Error (TypeError ("expected str, got " ++ type_name v)).
Proof.
  split; [reflexivity|]. intros path. split.
  { intros e Hload. unfold load_chat_prompt.
    cbn [Path of_result]. by rewrite bind_value, Hload. }
  intros t Hload. split; [|split].
  - intros Hmsgs. unfold load_chat_prompt.
    cbn [Path of_result]. rewrite bind_value, Hload.
    cbn [of_result]. rewrite bind_value.
    cbn [getitem]. unfold dict_getitem. by rewrite Hmsgs.
  - intros Hmsgs. unfold load_chat_prompt.
    cbn [Path of_result]. rewrite bind_value, Hload.
    cbn [of_result]. rewrite bind_value.
    cbn [getitem]. unfold dict_getitem. by rewrite Hmsgs.
  - intros earlier last Hmsgs.
    rewrite (load_chat_prompt_read _ _ _ _ _ _ _ Hload Hmsgs).
    unfold dict_getitem. split.
    + by intros ->.
    + intros v -> Hv. cbn [of_result]. rewrite bind_value.
      destruct v; try done. by destruct (Hv s).
Qed.

Lemma load_chat_prompt_failures_witness :
  load_chat_prompt demo_outside (Some "missing.json"%string) (str "en") []
  = Error (Failure "FileNotFoundError")
  ∧ load_chat_prompt demo_outside (Some "empty.json"%string) (str "en") []
    = Error IndexError.
Proof.
  pose proof (load_chat_prompt_failures demo_outside (str "en") [])
    as [_ H].
  split.
  - apply (proj1 (H "missing.json"%string)). reflexivity.
  - apply (proj2 (H "empty.json"%string) {[ "messages" := VList [] ]}
             eq_refl).
    reflexivity.
Defined.

(** *** The messages of a well-formed file *)

Lemma chat_messages_single outside entry r m :
  enumerates_entries (dict_items outside) →
  ROLE_MAP !! entry.1 = Some r →
  ChatMessage outside r entry.2 = inr m →
  chat_messages outside (single entry) = Value [m].
Proof.
  intros Hitems Hrole Hm. unfold chat_messages.
  rewrite (items_single _ _ Hitems). cbn [of_result].
  rewrite bind_value. destruct entry as [k v]. cbn [for_each fst snd] in *.
  unfold role_of. rewrite Hrole. cbn [of_result].
  rewrite bind_value, Hm. reflexivity.
Qed.

Lemma chat_messages_unknown outside k v :
  enumerates_entries (dict_items outside) →
  ROLE_MAP !! k = None →
  chat_messages outside (single (k, v)) = Error (KeyError k).
Proof.
  intros Hitems Hrole. unfold chat_messages.
  rewrite (items_single _ _ Hitems). cbn [of_result].
  rewrite bind_value. cbn [for_each].
  unfold role_of. rewrite Hrole. reflexivity.
Qed.

Lemma for_each_singles outside earlier
    (build : MessageRole → value → message outside) :
  enumerates_entries (dict_items outside) →
  (∀ r c, ChatMessage outside r c = inr (build r c)) →
  Forall (λ entry, is_Some (ROLE_MAP !! entry.1)) earlier →
  for_each (chat_messages outside) (single <$> earlier)
  = Value ((λ entry, [build (role entry.1) entry.2]) <$> earlier).
Proof.
  intros Hitems Hbuild. induction 1 as [|entry earlier [r Hr] _ IH];
    [done|].
  cbn [fmap list_fmap for_each].
  rewrite (chat_messages_single _ _ r _ Hitems Hr (Hbuild _ _)).
  rewrite bind_value. fold (fmap (M:=list) single earlier). rewrite IH.
  rewrite bind_value. unfold role. by rewrite Hr.
Qed.

Lemma concat_singletons {A B} (f : A → B) (l : list A) :
  List.concat ((λ x, [f x]) <$> l) = f <$> l.
Proof.
  induction l as [|x l IH]; [done|].
  cbn [fmap list_fmap List.concat app]. f_equal. exact IH.
Qed.

(** The two keyword arguments of [load_chat_prompt]'s call are not
    named [s]. *)
Lemma prompt_kwargs_without_s language_code query_intent :
  prompt_kwargs language_code query_intent !! str "s" = None.
Proof.
  unfold prompt_kwargs. rewrite lookup_insert_ne by done.
  by apply lookup_singleton_ne.
Qed.

(** X16.  A well-formed prompt file.  When every message before the last
    is an object with one entry whose key is ["system"], ["human"] or
    ["assistant"], and the human template of the last message is of the
    class for which [partial_format] is specified (its placeholders
    with plain names, in which a character of ASCII that is not a digit
    comes before any character outside ASCII), the prompt is built
    from one chat message for each earlier entry, in order, with the
    role that [ROLE_MAP] gives its key and its text as it stands in the
    file (not formatted), followed by one user message: the human
    template with [{language_code}] and [{query_intent}] replaced and
    every other placeholder left for later.  The other entries of the
    last message are not read. *)
Theorem chat_prompt_structure (outside : Outside) (path : string)
    (language_code query_intent : text) (t : gmap string value)
    (earlier : list (string * value)) (last : gmap string value)
    (h : string) (toks : list token)
    (build : MessageRole → value → message outside) :
  enumerates (set_iter outside) →
  enumerates_entries (dict_items outside) →
  (∀ r c, ChatMessage outside r c = inr (build r c)) →
  json_load outside path = inr (VDict t) →
  t !! "messages" = Some (VList ((single <$> earlier) ++ [VDict last])) →
  Forall (λ entry, is_Some (ROLE_MAP !! entry.1)) earlier →
  last !! "human" = Some (VStr h) →
  str h = render toks →
  forallb template_token toks = true →
  interference_free toks = true →
  load_chat_prompt outside (Some path) language_code query_intent
  = of_result
      (ChatPromptTemplate outside
         (((λ entry, build (role entry.1) entry.2) <$> earlier)
          ++ [ build USER
                 (VStr (string_of_list_ascii
                          (expand (prompt_kwargs language_code query_intent)
                             toks))) ])).
Proof.
  intros Horder Hitems Hbuild Hload Hmsgs Hroles Hhuman Hrender Htoks Hfree.
  rewrite (load_chat_prompt_read _ _ _ _ _ _ _ Hload Hmsgs).
  unfold dict_getitem. rewrite Hhuman. cbn [of_result].
  rewrite bind_value. cbn [format_human].
  fold (prompt_kwargs language_code query_intent).
  rewrite Hrender,
    (partial_format_tokens _ _ _ Horder Htoks Hfree
       (prompt_kwargs_without_s _ _)).
  cbn [of_outcome]. rewrite bind_value.
  rewrite (for_each_singles _ _ build Hitems Hbuild Hroles).
  rewrite bind_value, Hbuild. cbn [of_result].
  by rewrite bind_value, concat_singletons.
Qed.

Lemma chat_prompt_structure_witness :
  load_chat_prompt demo_outside (Some "prompt.json"%string) (str "en")
    (str "docs")
  = Value
      [ (SYSTEM, VStr "You answer from {context_str}.");
        (USER, VStr "Hello");
        (ASSISTANT, VStr "Hi.");
        (USER,
         VStr "Answer in en. Intent: docs. Question: {query_str}") ].
Proof.
  etrans;
    [ apply (chat_prompt_structure demo_outside "prompt.json" (str "en")
               (str "docs") demo_template
               [ ("system"%string, VStr "You answer from {context_str}.");
                 ("human"%string, VStr "Hello");
                 ("assistant"%string, VStr "Hi.") ]
               {[ "human" :=
                    VStr (string_of_list_ascii (render demo_human));
                  "note" := VStr "not read" ]}
               (string_of_list_ascii (render demo_human)) demo_human
               (λ r c, (r, c)) last_seen_enumerates);
      [ intros d; reflexivity
      | reflexivity | reflexivity | reflexivity
      | repeat constructor; by eexists
      | reflexivity | reflexivity | reflexivity | reflexivity ]
    | reflexivity ].
Defined.

(** *** A role that [ROLE_MAP] does not know *)

Lemma for_each_app {A B} (f : A → answer B) l1 l2 :
  for_each f (l1 ++ l2) =
  (y1 ← for_each f l1; y2 ← for_each f l2; mret (y1 ++ y2)).
Proof.
  induction l1 as [|x l1 IH]; cbn [app for_each].
  { rewrite bind_value. by destruct (for_each f l2). }
  destruct (f x) as [y|e|]; [|done..]. rewrite !bind_value, IH.
  destruct (for_each f l1) as [y1|e|]; [|done..]. rewrite !bind_value.
  by destruct (for_each f l2).
Qed.

Lemma for_each_known outside earlier :
  enumerates_entries (dict_items outside) →
  (∀ r c, ∃ m, ChatMessage outside r c = inr m) →
  Forall (λ entry, is_Some (ROLE_MAP !! entry.1)) earlier →
  ∃ chat, for_each (chat_messages outside) (single <$> earlier)
          = Value chat.
Proof.
  intros Hitems Hbuild. induction 1 as [|entry earlier [r Hr] _ [chat IH]];
    [by eexists|].
  destruct (Hbuild r entry.2) as [m Hm].
  cbn [fmap list_fmap for_each].
  rewrite (chat_messages_single _ _ r _ Hitems Hr Hm).
  rewrite bind_value. fold (fmap (M:=list) single earlier). rewrite IH.
  by eexists.
Qed.

(** X17.  Only the keys ["system"], ["human"] and ["assistant"] are
    roles.  When a message before the last one has an entry under any
    other key (["user"], say), [load_chat_prompt] raises [KeyError] of
    that key and builds no prompt, although the human template of the
    last message has been formatted by then. *)
Theorem unknown_role_raises (outside : Outside) (path : string)
    (language_code query_intent : text) (t : gmap string value)
    (before after : list (string * value)) (k : string) (v : value)
    (others : list value) (last : gmap string value) (h : string)
    (out : text) :
  enumerates_entries (dict_items outside) →
  (∀ r c, ∃ m, ChatMessage outside r c = inr m) →
  json_load outside path = inr (VDict t) →
  t !! "messages"
  = Some (VList (((single <$> before) ++ single (k, v) :: others)
                 ++ [VDict last])) →
  Forall (λ entry, is_Some (ROLE_MAP !! entry.1)) before →
  k ∉ ["system"; "human"; "assistant"]%string →
  last !! "human" = Some (VStr h) →
  partial_format (set_iter outside) (str h)
    (prompt_kwargs language_code query_intent)
  = Returned out →
  load_chat_prompt outside (Some path) language_code query_intent
  = Error (KeyError k).
Proof.
  intros Hitems Hbuild Hload Hmsgs Hroles Hk Hhuman Hformat.
  assert (Hrole : ROLE_MAP !! k = None).
  { unfold ROLE_MAP. rewrite !not_elem_of_cons in Hk.
    destruct Hk as (? & ? & ? & _).
    rewrite !lookup_insert_ne by done. by rewrite lookup_singleton_ne. }
  rewrite (load_chat_prompt_read _ _ _ _ _ _ _ Hload Hmsgs).
  unfold dict_getitem. rewrite Hhuman. cbn [of_result].
  rewrite bind_value. cbn [format_human].
  fold (prompt_kwargs language_code query_intent). rewrite Hformat.
  cbn [of_outcome]. rewrite bind_value, for_each_app.
  destruct (for_each_known _ _ Hitems Hbuild Hroles) as [chat ->].
  rewrite bind_value. cbn [for_each].
  by rewrite (chat_messages_unknown _ _ _ Hitems Hrole).
Qed.

Lemma unknown_role_raises_witness :
  load_chat_prompt demo_outside (Some "wrong.json"%string) (str "en") []
  = Error (KeyError "user").
Proof.
  apply (unknown_role_raises demo_outside "wrong.json" (str "en") []
           wrong_role_template [("system"%string, VStr "You answer.")] []
           "user" (VStr "Hello") []
           {[ "human" := VStr "{query_str}" ]} "{query_str}"
           (str "{query_str}")).
  - intros d; reflexivity.
  - intros r c. by eexists.
  - reflexivity.
  - reflexivity.
  - repeat constructor. by eexists.
  - rewrite !not_elem_of_cons. repeat split; try discriminate.
    apply not_elem_of_nil.
  - reflexivity.
  - vm_compute. reflexivity.
Defined.

(** *** Messages with several entries *)

Lemma for_each_entries outside (entries : list (string * value))
    (build : MessageRole → value → message outside) :
  (∀ r c, ChatMessage outside r c = inr (build r c)) →
  Forall (λ entry, is_Some (ROLE_MAP !! entry.1)) entries →
  for_each
    (λ '(k, v),
       r ← of_result (role_of k); of_result (ChatMessage outside r v))
    entries
  = Value ((λ entry, build (role entry.1) entry.2) <$> entries).
Proof.
  intros Hbuild. induction 1 as [|[k v] entries [r Hr] _ IH]; [done|].
  cbn [for_each fmap list_fmap fst snd] in *.
  assert (Hk : role_of k = inr r) by (unfold role_of; by rewrite Hr).
  rewrite Hk. cbn [of_result].
  rewrite bind_value, Hbuild. cbn [of_result]. rewrite bind_value.
  rewrite IH, bind_value. unfold role. by rewrite Hr.
Qed.

Lemma chat_messages_object outside (d : gmap string value)
    (build : MessageRole → value → message outside) :
  enumerates_entries (dict_items outside) →
  (∀ r c, ChatMessage outside r c = inr (build r c)) →
  (∀ k, is_Some (d !! k) → is_Some (ROLE_MAP !! k)) →
  chat_messages outside (VDict d)
  = Value ((λ entry, build (role entry.1) entry.2) <$> dict_items outside d).
Proof.
  intros Hitems Hbuild Hd.
  unfold chat_messages. cbn [items of_result]. rewrite bind_value.
  apply (for_each_entries _ _ build Hbuild).
  apply Forall_forall. intros [k v] Hin. apply Hd.
  rewrite (Hitems d) in Hin. apply elem_of_map_to_list in Hin.
  by eexists.
Qed.

Lemma for_each_objects outside (earlier : list (gmap string value))
    (build : MessageRole → value → message outside) :
  enumerates_entries (dict_items outside) →
  (∀ r c, ChatMessage outside r c = inr (build r c)) →
  Forall (λ d : gmap string value,
            ∀ k, is_Some (d !! k) → is_Some (ROLE_MAP !! k)) earlier →
  for_each (chat_messages outside) (VDict <$> earlier)
  = Value ((λ d, (λ entry, build (role entry.1) entry.2)
                   <$> dict_items outside d) <$> earlier).
Proof.
  intros Hitems Hbuild. induction 1 as [|d earlier Hd _ IH]; [done|].
  cbn [fmap list_fmap for_each].
  rewrite (chat_messages_object _ _ build Hitems Hbuild Hd).
  rewrite bind_value. fold (fmap (M:=list) VDict earlier).
  by rewrite IH.
Qed.

(** X21.  Every entry of every message before the last becomes one chat
    message.  When these messages are objects whose keys are all roles
    of [ROLE_MAP], the prompt is built from the chat messages of their
    entries, message after message and, inside a message, in the order
    in which its entries are iterated, followed by the user message
    with the formatted human template: as many chat messages as the
    earlier messages have entries, and one more. *)
Theorem every_entry_is_a_message (outside : Outside) (path : string)
    (language_code query_intent : text) (t : gmap string value)
    (earlier : list (gmap string value)) (last : gmap string value)
    (h : string) (out : text)
    (build : MessageRole → value → message outside) :
  enumerates_entries (dict_items outside) →
  (∀ r c, ChatMessage outside r c = inr (build r c)) →
  json_load outside path = inr (VDict t) →
  t !! "messages" = Some (VList ((VDict <$> earlier) ++ [VDict last])) →
  Forall (λ d : gmap string value,
            ∀ k, is_Some (d !! k) → is_Some (ROLE_MAP !! k)) earlier →
  last !! "human" = Some (VStr h) →
  partial_format (set_iter outside) (str h)
    (prompt_kwargs language_code query_intent)
  = Returned out →
  ∃ chat,
    load_chat_prompt outside (Some path) language_code query_intent
    = of_result
        (ChatPromptTemplate outside
           (chat ++ [build USER (VStr (string_of_list_ascii out))]))
    ∧ chat = flat_map (λ d, (λ entry, build (role entry.1) entry.2)
                              <$> dict_items outside d) earlier
    ∧ List.length chat = sum_list (size <$> earlier).
Proof.
  intros Hitems Hbuild Hload Hmsgs Hroles Hhuman Hformat.
  eexists. split; [|split; [reflexivity|]].
  - rewrite (load_chat_prompt_read _ _ _ _ _ _ _ Hload Hmsgs).
    unfold dict_getitem. rewrite Hhuman. cbn [of_result].
    rewrite bind_value. cbn [format_human].
    fold (prompt_kwargs language_code query_intent). rewrite Hformat.
    cbn [of_outcome]. rewrite bind_value.
    rewrite (for_each_objects _ _ build Hitems Hbuild Hroles).
    rewrite bind_value, Hbuild. cbn [of_result]. rewrite bind_value.
    do 3 f_equal. clear.
    induction earlier as [|d earlier IH]; [done|].
    cbn [fmap list_fmap List.concat flat_map]. f_equal. exact IH.
  - clear -Hitems. induction earlier as [|d earlier IH]; [done|].
    cbn [flat_map fmap list_fmap sum_list]. rewrite length_app, IH.
    f_equal. rewrite length_fmap, (Hitems d).
    apply length_map_to_list.
Qed.

Lemma every_entry_is_a_message_witness :
  ∃ chat,
    load_chat_prompt demo_outside (Some "prompt.json"%string) (str "en")
      (str "docs")
    = Value (chat
             ++ [ (USER,
                   VStr "Answer in en. Intent: docs. Question: {query_str}")
                ])
    ∧ chat = [ (SYSTEM, VStr "You answer from {context_str}.");
               (USER, VStr "Hello");
               (ASSISTANT, VStr "Hi.") ]
    ∧ List.length chat = 3%nat.
Proof.
  destruct (every_entry_is_a_message demo_outside "prompt.json" (str "en")
              (str "docs") demo_template
              [ {[ "system" := VStr "You answer from {context_str}." ]};
                {[ "human" := VStr "Hello" ]};
                {[ "assistant" := VStr "Hi." ]} ]
              {[ "human" := VStr (string_of_list_ascii (render demo_human));
                 "note" := VStr "not read" ]}
              (string_of_list_ascii (render demo_human))
              (str "Answer in en. Intent: docs. Question: {query_str}")
              (λ r c, (r, c)))
    as (chat & Hrun & Hchat & Hlen).
  - intros d; reflexivity.
  - reflexivity.
  - reflexivity.
  - reflexivity.
  - repeat constructor; intros k [v Hk];
      apply lookup_singleton_Some in Hk as [<- _]; by eexists.
  - reflexivity.
  - vm_compute. reflexivity.
  - exists chat. split; [exact Hrun|]. split; [|exact Hlen].
    rewrite Hchat. reflexivity.
Defined.

End ChatPromptFacts.
